(** * NotebookLight-Ollama: the response-normalization and extraction services

    A shallow embedding of [src/services/geminiService.ts] (the cloud
    variant) and [src/services/ollamaService.ts] (the local variant), with
    the parts of the JavaScript platform they call: strings as sequences of
    UTF-16 code units, IEEE doubles printed by [Number::toString], the
    [ToString] and [ToBoolean] coercions, [String.prototype.trim],
    [JSON.parse] and the one regular expression of the source.

    An [async] function is a function that returns a completion: the value
    it resolves to, or the value it rejects with.  What the services do not
    decide is an argument of the model: the SDK client and the [fetch] of
    the local backend are functions, [Date.now()] is a clock that gives the
    time of its every call, and a streamed body is the list of its chunks
    as [TextDecoder.decode] returns them.  The values are data and
    callables; no object carries methods of its own besides the [toString]
    and [valueOf] that the coercions look up, and none is a thenable.  The
    start-up checks of the cloud module (the API key, the export name of
    the SDK) come before any call; they are modelled apart, in
    [Startup]. *)

From Stdlib Require Import ZArith NArith List Bool Lia String Ascii.
From Stdlib Require Import DecimalN FinFun.
Import ListNotations.

(** ** JavaScript strings *)

(** A JavaScript string is a finite sequence of 16-bit code units. *)
Definition code_unit := N.
Definition jsstring := list code_unit.

(** The code units of an ASCII literal of the source. *)
Fixpoint js (s : string) : jsstring :=
  match s with
  | EmptyString => []
  | String c r => N_of_ascii c :: js r
  end.
Arguments js s%_string.

(** The same for a text that holds double quotes, written here as
    apostrophes: [jsq "{'a':1}"] is the text of the JSON object with the
    member [a]. *)
Definition jsq (s : string) : jsstring :=
  map (fun c => if N.eqb c 39 then 34%N else c) (js s).
Arguments jsq s%_string.

Definition unit_eqb (a b : code_unit) : bool := N.eqb a b.

Fixpoint jsstring_eqb (a b : jsstring) : bool :=
  match a, b with
  | [], [] => true
  | x :: a', y :: b' => unit_eqb x y && jsstring_eqb a' b'
  | _, _ => false
  end.

(** Named code units. *)
Module U.
Definition lf : code_unit := 10%N.
Definition quote : code_unit := 34%N.
Definition plus : code_unit := 43%N.
Definition comma : code_unit := 44%N.
Definition minus : code_unit := 45%N.
Definition dot : code_unit := 46%N.
Definition zero : code_unit := 48%N.
Definition colon : code_unit := 58%N.
Definition lbracket : code_unit := 91%N.
Definition backslash : code_unit := 92%N.
Definition rbracket : code_unit := 93%N.
Definition lbrace : code_unit := 123%N.
Definition rbrace : code_unit := 125%N.
(** U+2013 EN DASH and U+2019 RIGHT SINGLE QUOTATION MARK occur in the
    string literals of the source. *)
Definition en_dash : code_unit := 8211%N.
Definition rsquo : code_unit := 8217%N.
End U.

(** [Array.prototype.join] on strings. *)
Fixpoint join (sep : jsstring) (parts : list jsstring) : jsstring :=
  match parts with
  | [] => []
  | [p] => p
  | p :: rest => p ++ sep ++ join sep rest
  end.

(** WhiteSpace and LineTerminator code points, the ones
    [String.prototype.trim] strips. *)
Definition is_trim_space (c : code_unit) : bool :=
  ((9 <=? c) && (c <=? 13) || (c =? 32) || (c =? 160) || (c =? 5760)
   || (8192 <=? c) && (c <=? 8202) || (c =? 8232) || (c =? 8233)
   || (c =? 8239) || (c =? 8287) || (c =? 12288) || (c =? 65279))%N.

Fixpoint trimStart (s : jsstring) : jsstring :=
  match s with
  | c :: r => if is_trim_space c then trimStart r else s
  | [] => []
  end.

Definition trimEnd (s : jsstring) : jsstring := rev (trimStart (rev s)).

(** [s.trim()] *)
Definition trim (s : jsstring) : jsstring := trimEnd (trimStart s).

(** [Boolean(s)] for a string: whether it is not empty. *)
Definition non_empty (s : jsstring) : bool :=
  match s with
  | [] => false
  | _ => true
  end.

(** [s.slice(0, n)] for a non-negative [n]. *)
Definition slice0 (n : nat) (s : jsstring) : jsstring := firstn n s.

(** [s.split("\n")]: the pieces between line feeds; the empty string gives
    one empty piece. *)
Fixpoint split_lf_aux (cur : jsstring) (s : jsstring) : list jsstring :=
  match s with
  | [] => [rev cur]
  | c :: r =>
      if unit_eqb c U.lf then rev cur :: split_lf_aux [] r
      else split_lf_aux (c :: cur) r
  end.

Definition split_lf (s : jsstring) : list jsstring := split_lf_aux [] s.

(** ** Decimal numerals *)

Fixpoint uint_units (d : Decimal.uint) : jsstring :=
  match d with
  | Decimal.Nil => []
  | Decimal.D0 d => 48%N :: uint_units d
  | Decimal.D1 d => 49%N :: uint_units d
  | Decimal.D2 d => 50%N :: uint_units d
  | Decimal.D3 d => 51%N :: uint_units d
  | Decimal.D4 d => 52%N :: uint_units d
  | Decimal.D5 d => 53%N :: uint_units d
  | Decimal.D6 d => 54%N :: uint_units d
  | Decimal.D7 d => 55%N :: uint_units d
  | Decimal.D8 d => 56%N :: uint_units d
  | Decimal.D9 d => 57%N :: uint_units d
  end.

(** The decimal digits of a natural number, ["0"] for zero: what
    [Number::toString] gives for an integral Number from 0 to below [1e21]
    (an array index, an HTTP status code). *)
Definition dec_of_N (n : N) : jsstring := uint_units (N.to_uint n).

Definition is_digit (c : code_unit) : bool := ((48 <=? c) && (c <=? 57))%N.

(** ** Numbers

    A Number is an IEEE 754 binary64 value.  [JSON.parse] produces only
    finite values, signed zeros and, for literals beyond the range,
    infinities.  A finite value is [(-1)^neg * m * 2^e] with [m < 2^53] and
    [-1074 <= e <= 971], in the unique form where [2^52 <= m] unless
    [e = -1074]; zero is [m = 0, e = 0]. *)
Module Num.
Local Open Scope Z_scope.

Inductive Number : Type :=
| Finite (neg : bool) (m : Z) (e : Z)
| Infinite (neg : bool).

Definition Number_eqb (x y : Number) : bool :=
  match x, y with
  | Finite n1 m1 e1, Finite n2 m2 e2 =>
      Bool.eqb n1 n2 && (m1 =? m2) && (e1 =? e2)
  | Infinite n1, Infinite n2 => Bool.eqb n1 n2
  | _, _ => false
  end.

(** The quotient [a/b] divided by [base^d], as a fraction. *)
Definition scale (base : Z) (a b d : Z) : Z * Z :=
  if 0 <=? d then (a, b * base ^ d) else (a * base ^ (- d), b).

(** [base^d <= a/b], for positive [a] and [b]. *)
Definition ge_pow (base : Z) (a b d : Z) : bool :=
  let '(a', b') := scale base a b d in b' <=? a'.

(** [floor (log2 (a/b))] for positive [a] and [b]. *)
Definition floor_log2 (a b : Z) : Z :=
  let p := Z.log2 a - Z.log2 b in
  if ge_pow 2 a b p then p else p - 1.

(** [a/b] rounded to the nearest integer, ties to even. *)
Definition round_half_even (a b : Z) : Z :=
  let q := a / b in
  let r := a mod b in
  match 2 * r ?= b with
  | Lt => q
  | Gt => q + 1
  | Eq => if Z.even q then q else q + 1
  end.

(** The Number nearest to [(-1)^neg * a/b] (round to nearest, ties to
    even), for [0 <= a] and [0 < b]. *)
Definition of_ratio (neg : bool) (a b : Z) : Number :=
  if a =? 0 then Finite neg 0 0
  else
    let e := Z.max (floor_log2 a b - 52) (-1074) in
    let '(a', b') := scale 2 a b e in
    let m := round_half_even a' b' in
    if m =? 0 then Finite neg 0 0
    else
      let '(m, e) := if m =? 2 ^ 53 then (2 ^ 52, e + 1) else (m, e) in
      if 971 <? e then Infinite neg else Finite neg m e.

(** The Number of the decimal [(-1)^neg * d * 10^x]. *)
Definition of_decimal (neg : bool) (d x : Z) : Number :=
  let '(a, b) := scale 10 d 1 (- x) in of_ratio neg a b.

(** [floor (log10 (a/b))] for positive [a] and [b]: the estimate from
    the binary logarithm is at most two below. *)
Definition floor_log10 (a b : Z) : Z :=
  let k0 := (floor_log2 a b * 30103) / 100000 - 1 in
  if ge_pow 10 a b (k0 + 2) then k0 + 2
  else if ge_pow 10 a b (k0 + 1) then k0 + 1
  else k0.

(** The candidate with [k] significant digits for the positive Number
    [x = m * 2^e]: the pair [(s, n)] with [10^(k-1) <= s < 10^k] whose
    value [s * 10^(n-k)] is nearest to [x] among those that convert back
    to [x], if there is one. *)
Definition candidate (m e : Z) (k : Z) : option (Z * Z) :=
  let '(a, b) := scale 2 m 1 (- e) in
  let n := floor_log10 a b + 1 in
  let '(a', b') := scale 10 a b (n - k) in
  let lo := a' / b' in
  let r := a' mod b' in
  let back s := Number_eqb (of_decimal false s (n - k)) (Finite false m e) in
  let norm s := if s =? 10 ^ k then (10 ^ (k - 1), n + 1) else (s, n) in
  if r =? 0 then Some (lo, n)
  else
    let hi := lo + 1 in
    match back lo, back hi with
    | true, true =>
        match 2 * r ?= b' with
        | Lt => Some (lo, n)
        | Gt => Some (norm hi)
        | Eq => if Z.even lo then Some (lo, n) else Some (norm hi)
        end
    | true, false => Some (lo, n)
    | false, true => Some (norm hi)
    | false, false => None
    end.

(** The shortest candidate, trying [k], [k+1], ... for [fuel] lengths;
    seventeen digits identify every double. *)
Fixpoint shortest (m e : Z) (k : Z) (fuel : nat) : Z * Z * Z :=
  match fuel with
  | O => (m, 0, 0)
  | S f =>
      match candidate m e k with
      | Some (s, n) => (s, n, k)
      | None => shortest m e (k + 1) f
      end
  end.

Definition zeros (n : Z) : jsstring := repeat U.zero (Z.to_nat n).

Definition exponent_part (n : Z) : jsstring :=
  101%N :: (if 0 <=? n - 1 then U.plus else U.minus)
    :: dec_of_N (Z.abs_N (n - 1)).

(** [Number::toString(x)] in radix 10, for a positive finite [x]. *)
Definition positive_toString (m e : Z) : jsstring :=
  let '(s, n, k) := shortest m e 1 17 in
  let digits := dec_of_N (Z.to_N s) in
  if (k <=? n) && (n <=? 21) then digits ++ zeros (n - k)
  else if (0 <? n) && (n <=? 21) then
    firstn (Z.to_nat n) digits ++ U.dot :: skipn (Z.to_nat n) digits
  else if (-6 <? n) && (n <=? 0) then
    U.zero :: U.dot :: zeros (- n) ++ digits
  else if k =? 1 then digits ++ exponent_part n
  else firstn 1 digits ++ U.dot :: skipn 1 digits ++ exponent_part n.

(** [Number::toString(x)] *)
Definition toString (x : Number) : jsstring :=
  match x with
  | Finite neg m e =>
      if m =? 0 then js "0"
      else if neg then U.minus :: positive_toString m e
      else positive_toString m e
  | Infinite neg => if neg then js "-Infinity" else js "Infinity"
  end.

(** [ToBoolean] on a Number: false for the zeros (there is no NaN here). *)
Definition toBoolean (x : Number) : bool :=
  match x with
  | Finite _ m _ => negb (m =? 0)
  | Infinite _ => true
  end.

(** An integer as a Number. *)
Definition of_Z (z : Z) : Number := of_ratio (z <? 0) (Z.abs z) 1.
End Num.

(** ** Values

    The values the services handle: JSON data, [undefined], callables and
    error objects.  A callable is known by its source text (what
    [Function.prototype.toString] returns) and by the outcome of calling it
    without arguments on its receiver.  An object is the list of its own
    properties in source order; [JSON.parse] lets a later member of the same
    name overwrite an earlier one, so the last binding is the property. *)

#[local] Set Warnings "-register-all".

Inductive Outcome (E A : Type) : Type :=
| Normal (a : A)
| Throw (e : E).
Arguments Normal {E A} a.
Arguments Throw {E A} e.

Inductive JsVal : Type :=
| JUndefined
| JNull
| JBool (b : bool)
| JNumber (x : Num.Number)
| JString (s : jsstring)
| JArray (elems : list JsVal)
| JObject (props : list (jsstring * JsVal))
| JFunction (src : jsstring) (call : Outcome JsVal JsVal)
| JError (name message : jsstring).

(** A completion: a value, or a thrown value. *)
Definition Completion (A : Type) : Type := Outcome JsVal A.

Definition bind {A B : Type} (c : Completion A) (k : A -> Completion B)
  : Completion B :=
  match c with
  | Normal a => k a
  | Throw e => Throw e
  end.

Notation "x <- c ;; k" := (bind c (fun x => k))
  (at level 61, c at next level, right associativity).

(** The error objects the platform throws; their messages are the
    engine's. *)
Definition TypeError_not_primitive : JsVal :=
  JError (js "TypeError") (js "Cannot convert object to primitive value").

Definition TypeError_null_property : JsVal :=
  JError (js "TypeError") (js "Cannot read properties of null").

Definition TypeError_not_a_function : JsVal :=
  JError (js "TypeError") (js "not a function").

Definition is_nullish (v : JsVal) : bool :=
  match v with
  | JUndefined | JNull => true
  | _ => false
  end.

(** Whether a value is an Object (anything but a primitive). *)
Definition is_object (v : JsVal) : bool :=
  match v with
  | JArray _ | JObject _ | JFunction _ _ | JError _ _ => true
  | _ => false
  end.

(** [typeof v === "function"] *)
Definition is_function (v : JsVal) : bool :=
  match v with
  | JFunction _ _ => true
  | _ => false
  end.

(** [typeof v === "string"] *)
Definition is_string (v : JsVal) : bool :=
  match v with
  | JString _ => true
  | _ => false
  end.

(** [Array.isArray(v)] *)
Definition isArray (v : JsVal) : bool :=
  match v with
  | JArray _ => true
  | _ => false
  end.

(** The own property [key] of an object: its last binding. *)
Fixpoint own_prop (props : list (jsstring * JsVal)) (key : jsstring)
  : option JsVal :=
  match props with
  | [] => None
  | (k, v) :: rest =>
      match own_prop rest key with
      | Some w => Some w
      | None => if jsstring_eqb k key then Some v else None
      end
  end.

(** [v.key] for a value that is neither [undefined] nor [null] and a [key]
    among the names the source reads ([response], [text], [candidates],
    [content], [parts], [question], [answer]): no prototype defines them,
    so only own properties count. *)
Definition get (v : JsVal) (key : jsstring) : JsVal :=
  match v with
  | JObject props =>
      match own_prop props key with
      | Some x => x
      | None => JUndefined
      end
  | JError name message =>
      if jsstring_eqb key (js "message") then JString message
      else if jsstring_eqb key (js "name") then JString name
      else JUndefined
  | _ => JUndefined
  end.

(** [v[0]] for a value that is neither [undefined] nor [null]. *)
Definition get_index0 (v : JsVal) : JsVal :=
  match v with
  | JArray (x :: _) => x
  | JString (c :: _) => JString [c]
  | JObject props =>
      match own_prop props (js "0") with
      | Some x => x
      | None => JUndefined
      end
  | _ => JUndefined
  end.

(** [v?.key] *)
Definition opt_get (v : JsVal) (key : jsstring) : JsVal :=
  if is_nullish v then JUndefined else get v key.

(** [v?.[0]] *)
Definition opt_index0 (v : JsVal) : JsVal :=
  if is_nullish v then JUndefined else get_index0 v.

(** [v.key]: a TypeError on [undefined] and [null]. *)
Definition get_strict (v : JsVal) (key : jsstring) : Completion JsVal :=
  if is_nullish v then Throw TypeError_null_property else Normal (get v key).

(** [ToBoolean] *)
Definition ToBoolean (v : JsVal) : bool :=
  match v with
  | JUndefined | JNull => false
  | JBool b => b
  | JNumber x => Num.toBoolean x
  | JString s => match s with [] => false | _ => true end
  | _ => true
  end.

(** [ToString] on a primitive. *)
Definition prim_toString (v : JsVal) : jsstring :=
  match v with
  | JUndefined => js "undefined"
  | JNull => js "null"
  | JBool true => js "true"
  | JBool false => js "false"
  | JNumber x => Num.toString x
  | JString s => s
  | _ => []
  end.

(** One step of OrdinaryToPrimitive on a plain object: the method [name]
    is the own property of that name if there is one, else the built-in of
    [Object.prototype], whose result is [builtin] ([None] when it is not a
    primitive).  [Some (Normal p)]: the method returned the primitive [p];
    [Some (Throw e)]: it threw; [None]: not callable, or it returned an
    object, so the next method is tried. *)
Definition try_method (props : list (jsstring * JsVal)) (name : jsstring)
  (builtin : option JsVal) : option (Completion JsVal) :=
  match own_prop props name with
  | Some (JFunction _ (Normal r)) =>
      if is_object r then None else Some (Normal r)
  | Some (JFunction _ (Throw e)) => Some (Throw e)
  | Some _ => None
  | None => option_map Normal builtin
  end.

Definition object_Object : JsVal := JString (js "[object Object]").

(** OrdinaryToPrimitive on a plain object; [string_hint] puts [toString]
    before [valueOf].  [Object.prototype.valueOf] returns the object
    itself, never a primitive. *)
Definition object_toPrimitive (string_hint : bool)
  (props : list (jsstring * JsVal)) : Completion JsVal :=
  let ts := try_method props (js "toString") (Some object_Object) in
  let vo := try_method props (js "valueOf") None in
  let '(first, second) := if string_hint then (ts, vo) else (vo, ts) in
  match first with
  | Some c => c
  | None =>
      match second with
      | Some c => c
      | None => Throw TypeError_not_primitive
      end
  end.

(** [Error.prototype.toString] *)
Definition error_toString (name message : jsstring) : jsstring :=
  match name, message with
  | [], _ => message
  | _, [] => name
  | _, _ => name ++ js ": " ++ message
  end.

(** [ToString(ToPrimitive(v, hint))].  An array prints as its elements
    joined by commas, [undefined] and [null] elements as empty strings;
    arrays, callables and error objects print the same under both hints. *)
Fixpoint toString_hint (string_hint : bool) (v : JsVal)
  : Completion jsstring :=
  match v with
  | JArray elems =>
      (fix items (l : list JsVal) : Completion jsstring :=
         match l with
         | [] => Normal []
         | x :: rest =>
             s <- (if is_nullish x then Normal [] else toString_hint true x) ;;
             match rest with
             | [] => Normal s
             | _ => t <- items rest ;; Normal (s ++ U.comma :: t)
             end
         end) elems
  | JObject props =>
      p <- object_toPrimitive string_hint props ;; Normal (prim_toString p)
  | JFunction src _ => Normal src
  | JError name message => Normal (error_toString name message)
  | _ => Normal (prim_toString v)
  end.

(** [String(v)], and [ToString(v)] as [Array.prototype.join] applies it. *)
Definition ToString (v : JsVal) : Completion jsstring := toString_hint true v.

(** [s + v] for a string [s] (and [s += v]). *)
Definition string_plus (s : jsstring) (v : JsVal) : Completion jsstring :=
  t <- toString_hint false v ;; Normal (s ++ t).

(** ** [JSON.parse]

    The JSON grammar of ECMA-404 as [JSON.parse] reads it, by recursive
    descent.  [fuel] bounds the nesting and the number of items; twice the length
    of the text is always enough ([JSONFacts.parse_text_fuel]). *)
Module JSON.

(** The result of a parser: a value and the unread rest of the text, a
    syntax error, or not enough fuel. *)
Inductive pres (A : Type) : Type :=
| POk (a : A) (rest : jsstring)
| PErr
| PFuel.
Arguments POk {A} a rest.
Arguments PErr {A}.
Arguments PFuel {A}.

(** JSON white space: tab, line feed, carriage return, space. *)
Definition is_ws (c : code_unit) : bool :=
  ((c =? 9) || (c =? 10) || (c =? 13) || (c =? 32))%N.

Fixpoint skip_ws (s : jsstring) : jsstring :=
  match s with
  | c :: r => if is_ws c then skip_ws r else s
  | [] => []
  end.

Definition hex_val (c : code_unit) : option N :=
  (if (48 <=? c) && (c <=? 57) then Some (c - 48)
   else if (65 <=? c) && (c <=? 70) then Some (c - 55)
   else if (97 <=? c) && (c <=? 102) then Some (c - 87)
   else None)%N.

Definition hex4 (a b c d : code_unit) : option code_unit :=
  match hex_val a, hex_val b, hex_val c, hex_val d with
  | Some x, Some y, Some z, Some w =>
      Some (((x * 16 + y) * 16 + z) * 16 + w)%N
  | _, _, _, _ => None
  end.

(** The single-character escapes: the code unit after the backslash and
    the one it stands for. *)
Definition simple_escape (c : code_unit) : option code_unit :=
  (if c =? 34 then Some 34          (* quote *)
   else if c =? 92 then Some 92     (* backslash *)
   else if c =? 47 then Some 47     (* slash *)
   else if c =? 98 then Some 8      (* b: backspace *)
   else if c =? 102 then Some 12    (* f: form feed *)
   else if c =? 110 then Some 10    (* n: line feed *)
   else if c =? 114 then Some 13    (* r: carriage return *)
   else if c =? 116 then Some 9     (* t: tab *)
   else None)%N.

(** The characters of a string after its opening quote, up to the
    closing one; [acc] holds the code units read so far, last first. *)
Fixpoint parse_string_chars (s : jsstring) (acc : jsstring)
  : pres jsstring :=
  match s with
  | [] => PErr
  | c :: r =>
      if unit_eqb c U.quote then POk (rev acc) r
      else if unit_eqb c U.backslash then
        match r with
        | [] => PErr
        | e :: r1 =>
            if unit_eqb e 117%N then
              match r1 with
              | h1 :: h2 :: h3 :: h4 :: r2 =>
                  match hex4 h1 h2 h3 h4 with
                  | Some u => parse_string_chars r2 (u :: acc)
                  | None => PErr
                  end
              | _ => PErr
              end
            else
              match simple_escape e with
              | Some u => parse_string_chars r1 (u :: acc)
              | None => PErr
              end
        end
      else if (c <? 32)%N then PErr
      else parse_string_chars r (c :: acc)
  end.

(** The longest prefix of digits, and the rest. *)
Fixpoint span_digits (s : jsstring) : jsstring * jsstring :=
  match s with
  | c :: r =>
      if is_digit c then let '(ds, rest) := span_digits r in (c :: ds, rest)
      else ([], s)
  | [] => ([], [])
  end.

Definition digits_value (ds : jsstring) : Z :=
  fold_left (fun acc c => (acc * 10 + (Z.of_N c - 48))%Z) ds 0%Z.

(** The parts of a number: an optional minus; a zero, or a non-zero digit
    and more digits; an optional fraction (a dot and one digit or more); an
    optional exponent ([e] or [E], an optional sign, one digit or more).
    Each returns what it read and the rest. *)
Definition number_sign (s : jsstring) : bool * jsstring :=
  match s with
  | c :: r => if unit_eqb c U.minus then (true, r) else (false, s)
  | [] => (false, s)
  end.

Definition number_int (s : jsstring) : jsstring * jsstring :=
  match s with
  | c :: r => if unit_eqb c U.zero then ([c], r) else span_digits s
  | [] => ([], [])
  end.

Definition number_frac (s : jsstring) : option (jsstring * jsstring) :=
  match s with
  | c :: r =>
      if unit_eqb c U.dot then
        match span_digits r with
        | ([], _) => None
        | (fp, rest) => Some (fp, rest)
        end
      else Some ([], s)
  | [] => Some ([], s)
  end.

Definition number_exp (s : jsstring) : option (Z * jsstring) :=
  match s with
  | c :: r =>
      if unit_eqb c 101%N || unit_eqb c 69%N then
        let '(eneg, r1) :=
          match r with
          | d :: r' =>
              if unit_eqb d U.minus then (true, r')
              else if unit_eqb d U.plus then (false, r')
              else (false, r)
          | [] => (false, r)
          end in
        match span_digits r1 with
        | ([], _) => None
        | (ep, rest) =>
            Some ((if eneg then - digits_value ep else digits_value ep)%Z,
                  rest)
        end
      else Some (0%Z, s)
  | [] => Some (0%Z, s)
  end.

(** A number; its value is the double nearest to the decimal read. *)
Definition parse_number (s : jsstring) : pres Num.Number :=
  let '(neg, s1) := number_sign s in
  let '(ip, s2) := number_int s1 in
  match ip with
  | [] => PErr
  | _ =>
      match number_frac s2 with
      | None => PErr
      | Some (fp, s3) =>
          match number_exp s3 with
          | None => PErr
          | Some (x, s4) =>
              POk (Num.of_decimal neg (digits_value (ip ++ fp))
                     (x - Z.of_nat (List.length fp))%Z) s4
          end
      end
  end.

(** [s] without the prefix [lit], if it starts with it. *)
Fixpoint strip_prefix (lit s : jsstring) : option jsstring :=
  match lit, s with
  | [], _ => Some s
  | a :: lit', b :: s' => if unit_eqb a b then strip_prefix lit' s' else None
  | _ :: _, [] => None
  end.

Definition parse_literal (lit : jsstring) (v : JsVal) (s : jsstring)
  : pres JsVal :=
  match strip_prefix lit s with
  | Some rest => POk v rest
  | None => PErr
  end.

(** A value, with the white space before it.  [parse_items] reads the
    elements of an array after the first one was found to be there,
    [parse_members] the members of an object likewise, each up to and
    including the closing bracket; [acc] holds what was read, last
    first. *)
Fixpoint parse_value (fuel : nat) (s : jsstring) : pres JsVal :=
  match fuel with
  | O => PFuel
  | S f =>
      match skip_ws s with
      | [] => PErr
      | c :: r =>
          if unit_eqb c U.lbrace then
            match skip_ws r with
            | d :: r1 =>
                if unit_eqb d U.rbrace then POk (JObject []) r1
                else parse_members f (d :: r1) []
            | [] => PErr
            end
          else if unit_eqb c U.lbracket then
            match skip_ws r with
            | d :: r1 =>
                if unit_eqb d U.rbracket then POk (JArray []) r1
                else parse_items f (d :: r1) []
            | [] => PErr
            end
          else if unit_eqb c U.quote then
            match parse_string_chars r [] with
            | POk str rest => POk (JString str) rest
            | PErr => PErr
            | PFuel => PFuel
            end
          else if unit_eqb c 116%N then
            parse_literal (js "true") (JBool true) (c :: r)
          else if unit_eqb c 102%N then
            parse_literal (js "false") (JBool false) (c :: r)
          else if unit_eqb c 110%N then
            parse_literal (js "null") JNull (c :: r)
          else
            match parse_number (c :: r) with
            | POk x rest => POk (JNumber x) rest
            | PErr => PErr
            | PFuel => PFuel
            end
      end
  end

with parse_items (fuel : nat) (s : jsstring) (acc : list JsVal)
  : pres JsVal :=
  match fuel with
  | O => PFuel
  | S f =>
      match parse_value f s with
      | POk v rest =>
          match skip_ws rest with
          | c :: r =>
              if unit_eqb c U.comma then parse_items f r (v :: acc)
              else if unit_eqb c U.rbracket then
                POk (JArray (rev (v :: acc))) r
              else PErr
          | [] => PErr
          end
      | PErr => PErr
      | PFuel => PFuel
      end
  end

with parse_members (fuel : nat) (s : jsstring)
  (acc : list (jsstring * JsVal)) : pres JsVal :=
  match fuel with
  | O => PFuel
  | S f =>
      match skip_ws s with
      | q :: r0 =>
          if unit_eqb q U.quote then
            match parse_string_chars r0 [] with
            | POk key rest =>
                match skip_ws rest with
                | c :: r =>
                    if unit_eqb c U.colon then
                      match parse_value f r with
                      | POk v rest1 =>
                          match skip_ws rest1 with
                          | d :: r1 =>
                              if unit_eqb d U.comma then
                                parse_members f r1 ((key, v) :: acc)
                              else if unit_eqb d U.rbrace then
                                POk (JObject (rev ((key, v) :: acc))) r1
                              else PErr
                          | [] => PErr
                          end
                      | PErr => PErr
                      | PFuel => PFuel
                      end
                    else PErr
                | [] => PErr
                end
            | PErr => PErr
            | PFuel => PFuel
            end
          else PErr
      | [] => PErr
      end
  end.

(** A whole text: one value, white space around it and nothing else. *)
Definition parse_text (fuel : nat) (text : jsstring) : pres JsVal :=
  match parse_value fuel text with
  | POk v rest =>
      match skip_ws rest with
      | [] => POk v []
      | _ => PErr
      end
  | PErr => PErr
  | PFuel => PFuel
  end.

(** [JSON.parse(text)]: [None] when it throws a SyntaxError. *)
Definition parse (text : jsstring) : option JsVal :=
  match parse_text (S (2 * List.length text)) text with
  | POk v _ => Some v
  | _ => None
  end.

End JSON.

(** ** The regular expression of the extractor *)

(** The longest prefix of [s] that ends with a closing bracket. *)
Fixpoint upto_last_rbracket (s : jsstring) : option jsstring :=
  match s with
  | [] => None
  | c :: r =>
      match upto_last_rbracket r with
      | Some p => Some (c :: p)
      | None => if unit_eqb c U.rbracket then Some [c] else None
      end
  end.

(** [text.match(/\[[\s\S]*\]/)]: the match [m[0]] at the leftmost opening
    bracket that has a closing bracket after it, extended to the last
    closing bracket of the text; [None] when nothing matches. *)
Fixpoint match_bracketed (text : jsstring) : option jsstring :=
  match text with
  | [] => None
  | c :: r =>
      if unit_eqb c U.lbracket then
        match upto_last_rbracket r with
        | Some p => Some (c :: p)
        | None => match_bracketed r
        end
      else match_bracketed r
  end.

(** [new Error(message)] *)
Definition Error (message : jsstring) : JsVal := JError (js "Error") message.

(** [try { body } catch (err) { handler }] *)
Definition try_catch {A : Type} (body : Completion A)
  (handler : JsVal -> Completion A) : Completion A :=
  match body with
  | Normal a => Normal a
  | Throw err => handler err
  end.

(** [a || b] *)
Definition or_else (a b : JsVal) : JsVal := if ToBoolean a then a else b.

(** What [JSON.parse] throws. *)
Definition SyntaxError_json : JsVal :=
  JError (js "SyntaxError") (js "Unexpected token in JSON").

Definition JSON_parse_or_throw (text : jsstring) : Completion JsVal :=
  match JSON.parse text with
  | Some v => Normal v
  | None => Throw SyntaxError_json
  end.

(** ** The cloud variant: [services/geminiService.ts] *)
Module Gemini.

(** The SDK client, in the two shapes [getModel] tells apart, or neither:
    a newer one with [getGenerativeModel({model})], whose result has
    [generateContent(prompt)], and an older one with
    [models.generateContent({model, contents})]. *)
Inductive Client : Type :=
| NewSdk (getGenerativeModel :
            jsstring -> Completion (jsstring -> Completion JsVal))
| OldSdk (generateContent : jsstring -> jsstring -> Completion JsVal)
| UnknownSdk.

Definition unexpected_shape : JsVal :=
  Error (js "Your @google/genai version has an unexpected API shape.").

(** [getModel(name)]: an object with [generateContent(prompt)]. *)
Definition getModel (client : Client) (name : jsstring)
  : Completion (jsstring -> Completion JsVal) :=
  match client with
  | NewSdk getGenerativeModel => getGenerativeModel name
  | OldSdk generateContent => Normal (fun prompt => generateContent name prompt)
  | UnknownSdk => Throw unexpected_shape
  end.

(** [Array.prototype.join] on values: [ToString] of each element
    ([undefined] and [null] as empty strings), with [sep] between. *)
Fixpoint join_values (sep : jsstring) (l : list JsVal)
  : Completion jsstring :=
  match l with
  | [] => Normal []
  | x :: rest =>
      s <- (if is_nullish x then Normal [] else ToString x) ;;
      match rest with
      | [] => Normal s
      | _ => t <- join_values sep rest ;; Normal (s ++ sep ++ t)
      end
  end.

(** [toText(res)] *)
Definition toText (res : JsVal) : Completion JsVal :=
  let response := opt_get res (js "response") in
  let t := opt_get response (js "text") in
  match t with
  | JFunction _ call => call
  | JString _ => Normal t
  | _ =>
      let c := opt_index0 (opt_get response (js "candidates")) in
      let parts := opt_get (opt_get c (js "content")) (js "parts") in
      match parts with
      | JArray ps =>
          txt <- join_values [U.lf]
                   (filter ToBoolean
                      (map (fun p => opt_get p (js "text")) ps)) ;;
          match txt with
          | [] => Normal (JString [])
          | _ => Normal (JString txt)
          end
      | _ => Normal (JString [])
      end
  end.

(** [pingGemini()], with the default model of [getModel]. *)
Definition pingGemini (client : Client) : Completion JsVal :=
  model <- getModel client (js "gemini-2.5-flash") ;;
  res <- model (js "Say 'ready' if you can hear me.") ;;
  text <- toText res ;;
  Normal (or_else text (JString (js "(no text)"))).

Definition no_answer : jsstring :=
  js "I couldn" ++ U.rsquo :: js "t produce an answer.".

Definition askQuestion_apology : jsstring :=
  js "Sorry, I encountered an error while processing your question.".

Definition no_report : jsstring := js "No report text returned.".

Definition generateReport_apology : jsstring :=
  js "Sorry, I encountered an error while generating the report.".

Definition askQuestion_prompt (question sourceContent : jsstring)
  (useThinkingMode : bool) : jsstring :=
  let systemHint :=
    if useThinkingMode
    then js "Think step by step, state key assumptions, then answer concisely."
    else js "Answer concisely and clearly." in
  join [U.lf]
    [ systemHint;
      js "Use the SOURCE when relevant. If the SOURCE lacks the answer, say so briefly.";
      [];
      js "--- SOURCE ---";
      sourceContent;
      js "--- END SOURCE ---";
      [];
      js "QUESTION: " ++ question ].

(** The [try] block of [askQuestion]; its [console.log] writes a line
    and does nothing else. *)
Definition askQuestion_try (client : Client)
  (question sourceContent : jsstring) (useThinkingMode : bool)
  : Completion JsVal :=
  let modelName :=
    if useThinkingMode then js "gemini-2.5-pro"
    else js "gemini-2.5-flash" in
  let prompt := askQuestion_prompt question sourceContent useThinkingMode in
  model <- getModel client modelName ;;
  res <- model prompt ;;
  text <- toText res ;;
  Normal (or_else text (JString no_answer)).

(** [geminiService.askQuestion]; the handler logs the error with
    [console.error] and returns the apology. *)
Definition askQuestion (client : Client)
  (question sourceContent : jsstring) (useThinkingMode : bool)
  : Completion JsVal :=
  try_catch (askQuestion_try client question sourceContent useThinkingMode)
    (fun err => Normal (JString askQuestion_apology)).

Definition generateReport_prompt (sourceContent : jsstring) : jsstring :=
  join [U.lf]
    [ js "Create a crisp, well-structured report with short sections:";
      js "- Key ideas";
      js "- Evidence";
      js "- Uncertainties / open questions";
      js "End with 3 actionable next steps.";
      [];
      js "--- SOURCE ---";
      sourceContent;
      js "--- END SOURCE ---" ].

(** The [try] block of [generateReport]. *)
Definition generateReport_try (client : Client) (sourceContent : jsstring)
  : Completion JsVal :=
  let prompt := generateReport_prompt sourceContent in
  model <- getModel client (js "gemini-2.5-pro") ;;
  res <- model prompt ;;
  text <- toText res ;;
  Normal (or_else text (JString no_report)).

(** [geminiService.generateReport] *)
Definition generateReport (client : Client) (sourceContent : jsstring)
  : Completion JsVal :=
  try_catch (generateReport_try client sourceContent)
    (fun err => Normal (JString generateReport_apology)).

(** A flashcard as [generateFlashcards] builds it. *)
Record Flashcard : Type := {
  id : jsstring;
  question : jsstring;
  answer : jsstring
}.

(** [`flashcard-${Date.now()}-${i}`], for the time [now] in milliseconds
    and the index [i] (an index prints as its decimal digits). *)
Definition flashcard_id (now : Z) (i : nat) : jsstring :=
  js "flashcard-" ++ Num.toString (Num.of_Z now) ++ js "-"
    ++ dec_of_N (N.of_nat i).

(** [String(card?.key ?? "").trim()] *)
Definition card_field (card : JsVal) (key : jsstring)
  : Completion jsstring :=
  let v := opt_get card key in
  s <- ToString (if is_nullish v then JString [] else v) ;;
  Normal (trim s).

(** [arr.map((card, i) => ({id, question, answer}))], from index [i] on;
    [clock k] is what the call number [k] of [Date.now()] returns, and
    the callback makes one call per element. *)
Fixpoint map_cards (clock : nat -> Z) (i : nat) (arr : list JsVal)
  : Completion (list Flashcard) :=
  match arr with
  | [] => Normal []
  | card :: rest =>
      let id := flashcard_id (clock i) i in
      q <- card_field card (js "question") ;;
      a <- card_field card (js "answer") ;;
      cards <- map_cards clock (S i) rest ;;
      Normal ({| id := id; question := q; answer := a |} :: cards)
  end.

(** The lines that set [arr]: the whole text as JSON, and when that
    throws, the bracketed match as JSON; [None] is [null]. *)
Definition extract_array (text : jsstring) : option (list JsVal) :=
  match JSON.parse text with
  | Some parsed =>
      match parsed with
      | JArray elems => Some elems
      | _ => None
      end
  | None =>
      match match_bracketed text with
      | Some m0 =>
          match JSON.parse m0 with
          | Some (JArray elems) => Some elems
          | _ => None
          end
      | None => None
      end
  end.

Definition fallback_card (clock : nat -> Z) (text : jsstring) : Flashcard :=
  {| id := flashcard_id (clock 0%nat) 0;
     question := js "Summary";
     answer := slice0 1000 text |}.

(** The extractor: from [let arr] to the [return] of the [try] block. *)
Definition cards_of_text (clock : nat -> Z) (text : jsstring)
  : Completion (list Flashcard) :=
  let arr := extract_array text in
  cards <- map_cards clock 0
             (match arr with Some elems => elems | None => [] end) ;;
  Normal (match cards with
          | [] => [fallback_card clock text]
          | _ => cards
          end).

Definition generateFlashcards_prompt (sourceContent : jsstring) : jsstring :=
  join [U.lf]
    [ js "From the SOURCE, produce 8" ++ U.en_dash
        :: js "12 flashcards as pure JSON (no prose):";
      js "[" ++ U.lf
        :: jsq "  {'question':'...', 'answer':'...'}," ++ U.lf
        :: jsq "  {'question':'...', 'answer':'...'}" ++ U.lf
        :: js "]";
      js "Short Q/A, one idea per card. No markdown, only JSON.";
      [];
      js "--- SOURCE ---";
      sourceContent;
      js "--- END SOURCE ---" ].

Definition TypeError_trim : JsVal :=
  JError (js "TypeError") (js "trim is not a function").

(** [(await toText(res)).trim()]: a value that is not a string has no
    method [trim] (the objects of this model carry none), so the call
    throws. *)
Definition trimmed_text (t : JsVal) : Completion jsstring :=
  match t with
  | JString s => Normal (trim s)
  | _ => Throw TypeError_trim
  end.

(** The [try] block of [generateFlashcards]. *)
Definition generateFlashcards_try (client : Client) (clock : nat -> Z)
  (sourceContent : jsstring) : Completion (list Flashcard) :=
  let prompt := generateFlashcards_prompt sourceContent in
  model <- getModel client (js "gemini-2.5-flash") ;;
  res <- model prompt ;;
  t <- toText res ;;
  text <- trimmed_text t ;;
  cards_of_text clock text.

(** [geminiService.generateFlashcards]: on any error, the empty array. *)
Definition generateFlashcards (client : Client) (clock : nat -> Z)
  (sourceContent : jsstring) : Completion (list Flashcard) :=
  try_catch (generateFlashcards_try client clock sourceContent)
    (fun err => Normal []).

End Gemini.

(** ** The local variant: [services/ollamaService.ts] *)
Module Ollama.

(** The body of a response as [reader.read()] delivers it: chunks, each
    given here as the text [decoder.decode(value)] makes of it, until the
    stream is done or a read fails. *)
Inductive Stream : Type :=
| Done
| Chunk (text : jsstring) (rest : Stream)
| Broken (err : JsVal).

(** A response of the server: its status, the completion of
    [res.text()] (the text of the body, or what reading it throws), and
    [res.body] ([None] for [null]). *)
Record Response : Type := {
  status : N;
  text : Completion jsstring;
  body : option Stream
}.

(** [res.ok]: a status from 200 to 299. *)
Definition ok (res : Response) : bool :=
  ((200 <=? status res) && (status res <=? 299))%N.

Definition OLLAMA_URL : jsstring := js "http://127.0.0.1:11434/api/generate".

Definition MODEL : jsstring := js "qwen2.5:7b-instruct-q4_0".

(** The arguments of [fetch]: the URL, the method, the [Content-Type]
    header and the value whose [JSON.stringify] is the body. *)
Record Request : Type := {
  req_url : jsstring;
  req_method : jsstring;
  req_content_type : jsstring;
  req_body : JsVal
}.

(** The request [queryOllama] makes for a prompt. *)
Definition request (prompt : jsstring) : Request :=
  {| req_url := OLLAMA_URL;
     req_method := js "POST";
     req_content_type := js "application/json";
     req_body := JObject [(js "model", JString MODEL);
                          (js "prompt", JString prompt)] |}.

(** [fetch]: the response of the server, or what it throws when the
    request fails. *)
Definition Backend : Type := Request -> Completion Response.

(** What the service does to the outside, in order. *)
Inductive Event : Type :=
| Fetch (req : Request)
| ResText
| GetReader
| Read
| ConsoleError (err : JsVal).

(** A computation: the events it made and how it completed. *)
Definition Eff (A : Type) : Type := list Event * Completion A.

Definition events {A : Type} (m : Eff A) : list Event := fst m.
Definition outcome {A : Type} (m : Eff A) : Completion A := snd m.

Definition ret {A : Type} (a : A) : Eff A := ([], Normal a).
Definition throw {A : Type} (e : JsVal) : Eff A := ([], Throw e).
Definition emit (ev : Event) : Eff unit := ([ev], Normal tt).

Definition ebind {A B : Type} (m : Eff A) (k : A -> Eff B) : Eff B :=
  match m with
  | (log, Normal a) => let '(log', r) := k a in (log ++ log', r)
  | (log, Throw e) => (log, Throw e)
  end.

Notation "x <-- c ;; k" := (ebind c (fun x => k))
  (at level 61, c at next level, right associativity).

(** [try { body } catch (err) { handler }] *)
Definition etry {A : Type} (body : Eff A) (handler : JsVal -> Eff A)
  : Eff A :=
  match body with
  | (log, Normal a) => (log, Normal a)
  | (log, Throw err) => let '(log', r) := handler err in (log ++ log', r)
  end.

(** The body of the [for] loop: one line of a chunk.  A line that does
    not parse, or whose handling throws, leaves [result] as it was. *)
Definition process_line (result line : jsstring) : jsstring :=
  match
    json <- JSON_parse_or_throw line ;;
    response <- get_strict json (js "response") ;;
    if ToBoolean response then string_plus result response
    else Normal result
  with
  | Normal r => r
  | Throw _ => result
  end.

(** [chunk.split("\n").filter(Boolean)] *)
Definition lines_of (chunk : jsstring) : list jsstring :=
  filter non_empty (split_lf chunk).

Definition process_chunk (result chunk : jsstring) : jsstring :=
  fold_left process_line (lines_of chunk) result.

(** The [while (true)] loop, with [result] so far. *)
Fixpoint read_loop (stream : Stream) (result : jsstring) : Eff jsstring :=
  match stream with
  | Done => _ <-- emit Read ;; ret (trim result)
  | Broken err => _ <-- emit Read ;; throw err
  | Chunk chunk rest =>
      _ <-- emit Read ;; read_loop rest (process_chunk result chunk)
  end.

(** [queryOllama(prompt)] *)
Definition queryOllama (fetch : Backend) (prompt : jsstring)
  : Eff jsstring :=
  res <-- ([Fetch (request prompt)], fetch (request prompt)) ;;
  if negb (ok res) then
    errText <-- ([ResText], text res) ;;
    throw (Error (js "Ollama error " ++ dec_of_N (status res)
                    ++ js ": " ++ errText))
  else
    match body res with
    | None => ret (js "(no response body)")
    | Some stream => _ <-- emit GetReader ;; read_loop stream []
    end.

Definition askQuestion_apology : jsstring :=
  js "Sorry, I encountered an error while processing your question.".

Definition askQuestion_prompt (question sourceContent : jsstring)
  (useThinkingMode : bool) : jsstring :=
  let systemHint :=
    if useThinkingMode
    then js "Think step by step, state assumptions clearly, then answer concisely."
    else js "Answer clearly and concisely." in
  join [U.lf]
    [ systemHint;
      [];
      js "--- SOURCE ---";
      sourceContent;
      js "--- END SOURCE ---";
      [];
      js "QUESTION: " ++ question ].

(** [geminiService.askQuestion] of the local variant. *)
Definition askQuestion (fetch : Backend)
  (question sourceContent : jsstring) (useThinkingMode : bool)
  : Eff jsstring :=
  let prompt := askQuestion_prompt question sourceContent useThinkingMode in
  etry (queryOllama fetch prompt)
    (fun err =>
       _ <-- emit (ConsoleError err) ;; ret askQuestion_apology).

Definition generateReport_prompt (sourceContent : jsstring) : jsstring :=
  join [U.lf]
    [ js "Write a short, well-structured report with sections:";
      js "- Key ideas";
      js "- Evidence";
      js "- Open questions";
      js "End with 3 actionable next steps.";
      [];
      js "--- SOURCE ---";
      sourceContent;
      js "--- END SOURCE ---" ].

(** [geminiService.generateReport] of the local variant. *)
Definition generateReport (fetch : Backend) (sourceContent : jsstring)
  : Eff jsstring :=
  let prompt := generateReport_prompt sourceContent in
  queryOllama fetch prompt.

Definition generateFlashcards_prompt (sourceContent : jsstring) : jsstring :=
  join [U.lf]
    [ js "Create 8" ++ U.en_dash :: js "12 concise Q/A flashcards as JSON:";
      js "[" ++ U.lf
        :: jsq "  {'question':'...','answer':'...'}" ++ U.lf
        :: js "]";
      js "Keep answers short and factual.";
      [];
      js "--- SOURCE ---";
      sourceContent;
      js "--- END SOURCE ---" ].

(** [[{ question: "Summary", answer: text }]] *)
Definition summary_card (text : jsstring) : JsVal :=
  JObject [(js "question", JString (js "Summary"));
           (js "answer", JString text)].

(** The lines after [queryOllama] returned [text]. *)
Definition cards_of_text (text : jsstring) : JsVal :=
  match JSON.parse text with
  | Some (JArray elems) => JArray elems
  | _ => JArray [summary_card text]
  end.

(** [geminiService.generateFlashcards] of the local variant. *)
Definition generateFlashcards (fetch : Backend) (sourceContent : jsstring)
  : Eff JsVal :=
  let prompt := generateFlashcards_prompt sourceContent in
  text <-- queryOllama fetch prompt ;;
  ret (cards_of_text text).

End Ollama.

(** ** Vocabulary of the properties *)

(** [needle] occurs in [hay]. *)
Definition occurs_in (needle hay : jsstring) : Prop :=
  exists pre post, hay = pre ++ needle ++ post.

(** A stream that delivers the given chunks and is then done. *)
Definition stream_of_chunks (chunks : list jsstring) : Ollama.Stream :=
  fold_right Ollama.Chunk Ollama.Done chunks.

(** A server that answers every request with the status [st], the body
    text [txt] and the stream [body]. *)
Definition server (st : N) (txt : jsstring) (body : option Ollama.Stream)
  : Ollama.Backend :=
  fun _ => Normal {| Ollama.status := st; Ollama.text := Normal txt;
                     Ollama.body := body |}.

(** A server that answers every request with the status [st] and a body
    whose reading fails with [err], as when the connection drops after
    the headers. *)
Definition unreadable_server (st : N) (err : JsVal) : Ollama.Backend :=
  fun _ => Normal {| Ollama.status := st; Ollama.text := Throw err;
                     Ollama.body := None |}.

(** An older SDK whose every call returns [res]. *)
Definition sdk_returning (res : JsVal) : Gemini.Client :=
  Gemini.OldSdk (fun _ _ => Normal res).

(** A response of the shape [{response: {text: v}}]. *)
Definition response_with_text (v : JsVal) : JsVal :=
  JObject [(js "response", JObject [(js "text", v)])].

(** [res?.response?.text] *)
Definition text_accessor (res : JsVal) : JsVal :=
  opt_get (opt_get res (js "response")) (js "text").

(** [res?.response?.candidates?.[0]?.content?.parts] *)
Definition first_candidate_parts (res : JsVal) : JsVal :=
  opt_get
    (opt_get (opt_index0 (opt_get (opt_get res (js "response"))
                            (js "candidates")))
       (js "content"))
    (js "parts").

(** [p?.text] *)
Definition part_text (p : JsVal) : JsVal := opt_get p (js "text").

(** A callable with the given outcome; its source text plays no role. *)
Definition accessor (call : Completion JsVal) : JsVal :=
  JFunction (js "() => ...") call.

(** A response of the shape
    [{response: {candidates: [{content: {parts: [{text: ...}, ...]}}]}}]. *)
Definition response_with_parts (texts : list JsVal) : JsVal :=
  JObject
    [(js "response",
      JObject
        [(js "candidates",
          JArray
            [JObject
               [(js "content",
                 JObject
                   [(js "parts",
                     JArray (map (fun t => JObject [(js "text", t)]) texts))])]])])].

(** The message of an error object. *)
Definition message_of (e : JsVal) : jsstring :=
  match e with
  | JError _ message => message
  | _ => []
  end.

(** The text holds a valid JSON array somewhere: one of its substrings
    parses to an array. *)
Definition contains_json_array (text : jsstring) : Prop :=
  exists pre mid post elems,
    text = pre ++ mid ++ post /\ JSON.parse mid = Some (JArray elems).

Fixpoint prefixes (s : jsstring) : list jsstring :=
  [] :: match s with
        | [] => []
        | c :: r => map (cons c) (prefixes r)
        end.

Fixpoint suffixes (s : jsstring) : list jsstring :=
  s :: match s with
       | [] => []
       | _ :: r => suffixes r
       end.

(** Every substring of [s]. *)
Definition substrings (s : jsstring) : list jsstring :=
  flat_map prefixes (suffixes s).

Definition parses_to_array (text : jsstring) : bool :=
  match JSON.parse text with
  | Some (JArray _) => true
  | _ => false
  end.

(** The decision of [contains_json_array], by trying every substring. *)
Definition has_json_array (text : jsstring) : bool :=
  existsb parses_to_array (substrings text).

(** The identifier of a record is made of a time the clock gave and of the
    index it gave it at. *)
Definition id_of_clock (clock : nat -> Z) (c : Gemini.Flashcard) : Prop :=
  exists k, Gemini.id c = Gemini.flashcard_id (clock k) k.

(** The question and the answer of a flashcard. *)
Definition qa (c : Gemini.Flashcard) : jsstring * jsstring :=
  (Gemini.question c, Gemini.answer c).

(** The coercion of a field as the specification words it: a string field
    is trimmed, a missing or non-string field gives the empty string. *)
Definition spec_field (card : JsVal) (key : jsstring) : jsstring :=
  match opt_get card key with
  | JString s => trim s
  | _ => []
  end.

Definition spec_pair (card : JsVal) : jsstring * jsstring :=
  (spec_field card (js "question"), spec_field card (js "answer")).

(** The object [{question, answer}] of a pair of strings. *)
Definition pair_object (p : jsstring * jsstring) : JsVal :=
  JObject [(js "question", JString (fst p)); (js "answer", JString (snd p))].

(** [String(v)] returns [s]. *)
Definition converts_to (v : JsVal) (s : jsstring) : Prop :=
  ToString v = Normal s.

(** The coercion of a field as the code has it,
    [String(card?.key ?? "").trim()]: the empty string for a missing,
    [undefined] or [null] field, the trimmed string for a string, and for
    any other value its string form, trimmed, when it has one. *)
Definition field_string (card : JsVal) (key : jsstring) (s : jsstring)
  : Prop :=
  match opt_get card key with
  | JUndefined | JNull => s = []
  | JString str => s = trim str
  | v => exists str, ToString v = Normal str /\ s = trim str
  end.

Definition coerced (card : JsVal) (p : jsstring * jsstring) : Prop :=
  field_string card (js "question") (fst p)
  /\ field_string card (js "answer") (snd p).

(** The coercion of a field of [card] throws: [String] of its [question]
    or of its [answer] does. *)
Definition coercion_fails (card : JsVal) : Prop :=
  exists key e,
    (key = js "question" \/ key = js "answer")
    /\ ToString (opt_get card key) = Throw e.

(** A server that streams the given chunks with status 200. *)
Definition streaming_server (chunks : list jsstring) : Ollama.Backend :=
  server 200 [] (Some (stream_of_chunks chunks)).

(** The [response] text of a line of the stream: the string under
    [response] when the line is a JSON object that has one, else nothing. *)
Definition line_response (line : jsstring) : jsstring :=
  match JSON.parse line with
  | Some (JObject props) =>
      match own_prop props (js "response") with
      | Some (JString s) => s
      | _ => []
      end
  | _ => []
  end.

(** A complete line of the stream: it holds no line feed and is a JSON
    object whose [response], if it has one, is a string. *)
Definition ndjson_line (line : jsstring) : Prop :=
  ~ In U.lf line
  /\ exists props,
       JSON.parse line = Some (JObject props)
       /\ (own_prop props (js "response") = None
           \/ exists s, own_prop props (js "response") = Some (JString s)).

(** The text of some lines, each ended by a line feed. *)
Definition render (lines : list jsstring) : jsstring :=
  List.concat (map (fun l => l ++ [U.lf]) lines).

(** A parser result that did not run out of fuel and left no more text
    than it was given. *)
Definition fuel_ok {A : Type} (r : JSON.pres A) (s : jsstring) : Prop :=
  r <> JSON.PFuel
  /\ forall v rest, r = JSON.POk v rest -> List.length rest <= List.length s.

(** ** The start of the cloud module: the lines before [getModel] *)
Module Startup.

(** What [@google/genai/web] exports under a name: a constructor, called
    with [new] on [{ apiKey }], or nothing. *)
Definition Constructor : Type := JsVal -> Completion Gemini.Client.

Record Exports : Type := {
  GoogleGenerativeAI : option Constructor;
  GoogleGenAI : option Constructor
}.

Definition missing_key : JsVal :=
  Error (js "VITE_GEMINI_API_KEY environment variable is not set").

Definition missing_export : JsVal :=
  Error (js "Could not find GoogleGenerativeAI or GoogleGenAI in '@google/genai/web'. "
         ++ js "Open node_modules/@google/genai/web/index.d.ts to see the correct export name.").

(** [GenAI.GoogleGenerativeAI || GenAI.GoogleGenAI] *)
Definition GoogleClient (exports : Exports) : option Constructor :=
  match GoogleGenerativeAI exports with
  | Some ctor => Some ctor
  | None => GoogleGenAI exports
  end.

(** The statements of the module up to [const client]: [apiKey] is
    [import.meta.env.VITE_GEMINI_API_KEY]. *)
Definition client (apiKey : JsVal) (exports : Exports)
  : Completion Gemini.Client :=
  if negb (ToBoolean apiKey) then Throw missing_key
  else
    match GoogleClient exports with
    | None => Throw missing_export
    | Some ctor => ctor (JObject [(js "apiKey", apiKey)])
    end.

End Startup.

(** ** Vocabulary of the further properties *)

(** Neither the first nor the last code unit of [s] is white space. *)
Definition no_outer_space (s : jsstring) : Prop :=
  (forall c r, s = c :: r -> is_trim_space c = false)
  /\ (forall c r, s = r ++ [c] -> is_trim_space c = false).

(** What one line of the stream adds to the result. *)
Definition fragment (line : jsstring) : jsstring :=
  Ollama.process_line [] line.

(** The number of [reader.read()] calls a stream answers. *)
Fixpoint reads (stream : Ollama.Stream) : nat :=
  match stream with
  | Ollama.Chunk _ rest => S (reads rest)
  | _ => 1
  end.

(** A stream that delivers the given chunks and then fails with [err]. *)
Definition broken_stream (chunks : list jsstring) (err : JsVal)
  : Ollama.Stream :=
  fold_right Ollama.Chunk (Ollama.Broken err) chunks.

(** What stands between the source and the question in a prompt of
    [askQuestion]. *)
Definition question_delimiter : jsstring :=
  U.lf :: js "--- END SOURCE ---" ++ [U.lf; U.lf] ++ js "QUESTION: ".

(** What stands before the source in a prompt of the cloud
    [askQuestion], and in one of the local [askQuestion]. *)
Definition cloud_question_head (useThinkingMode : bool) : jsstring :=
  (if useThinkingMode
   then js "Think step by step, state key assumptions, then answer concisely."
   else js "Answer concisely and clearly.")
  ++ U.lf
  :: js "Use the SOURCE when relevant. If the SOURCE lacks the answer, say so briefly."
  ++ [U.lf; U.lf] ++ js "--- SOURCE ---" ++ [U.lf].

Definition local_question_head (useThinkingMode : bool) : jsstring :=
  (if useThinkingMode
   then js "Think step by step, state assumptions clearly, then answer concisely."
   else js "Answer clearly and concisely.")
  ++ [U.lf; U.lf] ++ js "--- SOURCE ---" ++ [U.lf].

(** A value whose conversion to a string runs no code of its own and
    goes no deeper than its elements: a primitive, an array of primitives,
    a callable, an error object, or an object without a member of its own
    named [toString]. *)
Definition flat (v : JsVal) : bool :=
  match v with
  | JArray elems => forallb (fun x => negb (is_object x)) elems
  | JObject props =>
      match own_prop props (js "toString") with
      | None => true
      | Some _ => false
      end
  | _ => true
  end.

(** An object that has no string form: its own [toString] is not
    callable, and it has no callable [valueOf] of its own to fall back
    on.  In JSON data, where nothing is callable, this is any object with
    a member named [toString]. *)
Definition unprintable (v : JsVal) : bool :=
  match v with
  | JObject props =>
      match own_prop props (js "toString") with
      | Some t =>
          negb (is_function t)
          && match own_prop props (js "valueOf") with
             | Some w => negb (is_function w)
             | None => true
             end
      | None => false
      end
  | _ => false
  end.

(** An element whose [question] and [answer] are strings without white
    space around them. *)
Definition clean_card (e : JsVal) : Prop :=
  exists q a,
    opt_get e (js "question") = JString q
    /\ opt_get e (js "answer") = JString a
    /\ no_outer_space q /\ no_outer_space a.

(** A card holds the question and the answer of an element. *)
Definition same_qa (c : Gemini.Flashcard) (e : JsVal) : Prop :=
  opt_get e (js "question") = JString (Gemini.question c)
  /\ opt_get e (js "answer") = JString (Gemini.answer c).

(** An SDK of the newer or of the older shape that answers the request
    for a model name and a prompt with [gen]. *)
Definition sdk_of_shape (newer : bool)
  (gen : jsstring -> jsstring -> Completion JsVal) : Gemini.Client :=
  if newer then Gemini.NewSdk (fun name => Normal (gen name))
  else Gemini.OldSdk gen.

(** A text inside a Markdown code fence. *)
Definition fenced (text : jsstring) : jsstring :=
  js "```json" ++ U.lf :: text ++ U.lf :: js "```".

(** * Properties *)

(** ** Completions *)

Lemma bind_Normal {A B : Type} (c : Completion A) (k : A -> Completion B)
  (b : B) :
  bind c k = Normal b -> exists a, c = Normal a /\ k a = Normal b.
Proof.
  destruct c as [a|e]; simpl; intros H; [eauto | discriminate].
Qed.

Lemma bind_Throw {A B : Type} (c : Completion A) (k : A -> Completion B)
  (e : JsVal) :
  bind c k = Throw e ->
  c = Throw e \/ exists a, c = Normal a /\ k a = Throw e.
Proof.
  destruct c as [a|e']; simpl; intros H; [eauto | left; congruence].
Qed.

Lemma try_catch_Normal {A : Type} (body : Completion A) (h : A) :
  exists a, try_catch body (fun _ => Normal h) = Normal a.
Proof.
  destruct body; simpl; eauto.
Qed.

(** ** [JSON.parse] never runs out of fuel *)
Module JSONFacts.
Import JSON.

Lemma skip_ws_length (s : jsstring) : List.length (skip_ws s) <= List.length s.
Proof.
  induction s as [|c r IH]; simpl; [lia|].
  destruct (is_ws c); simpl; lia.
Qed.

Lemma parse_string_chars_rest (n : nat) :
  forall s acc, List.length s <= n ->
    parse_string_chars s acc <> PFuel
    /\ forall str rest, parse_string_chars s acc = POk str rest ->
                        List.length rest < List.length s.
Proof.
  induction n as [|n IH]; intros s acc Hn.
  - destruct s; [|simpl in Hn; lia]. simpl. split; [discriminate|discriminate].
  - destruct s as [|c r]; [simpl; split; discriminate|].
    simpl in Hn. cbn [parse_string_chars].
    destruct (unit_eqb c U.quote).
    { split; [discriminate|]. intros str rest H. injection H as _ <-. simpl; lia. }
    destruct (unit_eqb c U.backslash).
    { destruct r as [|e r1]; [split; discriminate|].
      destruct (unit_eqb e 117%N).
      - destruct r1 as [|h1 [|h2 [|h3 [|h4 r2]]]]; try (split; discriminate).
        destruct (hex4 h1 h2 h3 h4) as [u|]; [|split; discriminate].
        destruct (IH r2 (u :: acc)) as (H1 & H2); [simpl in *; lia|].
        split; [exact H1|]. intros str rest H. apply H2 in H. simpl; lia.
      - destruct (simple_escape e) as [u|]; [|split; discriminate].
        destruct (IH r1 (u :: acc)) as (H1 & H2); [simpl in *; lia|].
        split; [exact H1|]. intros str rest H. apply H2 in H. simpl; lia. }
    destruct (c <? 32)%N; [split; discriminate|].
    destruct (IH r (c :: acc)) as (H1 & H2); [lia|].
    split; [exact H1|]. intros str rest H. apply H2 in H. simpl; lia.
Qed.

Lemma span_digits_rest (s : jsstring) :
  List.length (snd (span_digits s)) <= List.length s.
Proof.
  induction s as [|c r IH]; simpl; [lia|].
  destruct (is_digit c); simpl; [|lia].
  destruct (span_digits r); simpl in *; lia.
Qed.

Lemma number_sign_rest s : List.length (snd (number_sign s)) <= List.length s.
Proof.
  destruct s as [|c r]; simpl; [lia|]. destruct (unit_eqb c U.minus); simpl; lia.
Qed.

Lemma number_int_rest s : List.length (snd (number_int s)) <= List.length s.
Proof.
  destruct s as [|c r]; [simpl; lia|]. unfold number_int.
  destruct (unit_eqb c U.zero); [simpl; lia|]. apply span_digits_rest.
Qed.

Lemma number_frac_rest s fp rest :
  number_frac s = Some (fp, rest) -> List.length rest <= List.length s.
Proof.
  destruct s as [|c r]; simpl.
  - intros H. injection H as _ <-. simpl; lia.
  - destruct (unit_eqb c U.dot).
    + pose proof (span_digits_rest r) as Hr.
      destruct (span_digits r) as [[|d ds] rest']; [discriminate|].
      intros H. injection H as _ <-. simpl in Hr. lia.
    + intros H. injection H as _ <-. simpl; lia.
Qed.

Lemma number_exp_rest s x rest :
  number_exp s = Some (x, rest) -> List.length rest <= List.length s.
Proof.
  destruct s as [|c r]; simpl.
  - intros H. injection H as _ <-. simpl; lia.
  - destruct (unit_eqb c 101%N || unit_eqb c 69%N).
    + assert (Hr1 : forall eneg r1,
                 match r with
                 | d :: r' =>
                     if unit_eqb d U.minus then (true, r')
                     else if unit_eqb d U.plus then (false, r')
                     else (false, r)
                 | [] => (false, r)
                 end = (eneg, r1) -> List.length r1 <= List.length r).
      { intros eneg r1. destruct r as [|d r']; [intros H; injection H as _ <-; lia|].
        destruct (unit_eqb d U.minus); [intros H; injection H as _ <-; simpl; lia|].
        destruct (unit_eqb d U.plus); intros H; injection H as _ <-; simpl; lia. }
      destruct (match r with [] => _ | _ => _ end) as [eneg r1].
      specialize (Hr1 eneg r1 eq_refl).
      pose proof (span_digits_rest r1) as Hs.
      destruct (span_digits r1) as [[|d ds] rest']; [discriminate|].
      intros H. injection H as _ <-. simpl in Hs. lia.
    + intros H. injection H as _ <-. simpl; lia.
Qed.

Lemma parse_number_rest (s : jsstring) :
  parse_number s <> PFuel
  /\ forall x rest, parse_number s = POk x rest ->
                    List.length rest <= List.length s.
Proof.
  unfold parse_number.
  pose proof (number_sign_rest s) as H1.
  destruct (number_sign s) as [neg s1]. simpl in H1.
  pose proof (number_int_rest s1) as H2.
  destruct (number_int s1) as [ip s2]. simpl in H2.
  destruct ip as [|d ds]; [split; discriminate|].
  destruct (number_frac s2) as [[fp s3]|] eqn:Hf; [|split; discriminate].
  apply number_frac_rest in Hf.
  destruct (number_exp s3) as [[x s4]|] eqn:He; [|split; discriminate].
  apply number_exp_rest in He.
  split; [discriminate|]. intros y rest H. injection H as _ <-. lia.
Qed.

Lemma strip_prefix_rest lit : forall s rest,
  strip_prefix lit s = Some rest -> List.length rest <= List.length s.
Proof.
  induction lit as [|a lit IH]; intros s rest; simpl.
  - intros H. injection H as <-. lia.
  - destruct s as [|b s']; [discriminate|].
    destruct (unit_eqb a b); [|discriminate].
    intros H. apply IH in H. simpl; lia.
Qed.

Lemma parse_literal_rest lit v s :
  parse_literal lit v s <> PFuel
  /\ forall w rest, parse_literal lit v s = POk w rest ->
                    List.length rest <= List.length s.
Proof.
  unfold parse_literal. destruct (strip_prefix lit s) eqn:H; [|split; discriminate].
  apply strip_prefix_rest in H. split; [discriminate|].
  intros w rest E. injection E as _ <-. exact H.
Qed.

Lemma fuel_ok_err {A : Type} (s : jsstring) : fuel_ok (@PErr A) s.
Proof. split; discriminate. Qed.

Lemma fuel_ok_done {A : Type} (v : A) (rest s : jsstring) :
  List.length rest <= List.length s -> fuel_ok (POk v rest) s.
Proof.
  intros H. split; [discriminate|]. intros w r E. injection E as _ <-. exact H.
Qed.

Lemma fuel_ok_weaken {A : Type} (r : pres A) (s s' : jsstring) :
  fuel_ok r s -> List.length s <= List.length s' -> fuel_ok r s'.
Proof.
  intros (H1 & H2) Hl. split; [exact H1|].
  intros v rest E. apply H2 in E. lia.
Qed.

Lemma skip_ws_cons (s r : jsstring) (c : code_unit) :
  skip_ws s = c :: r -> List.length r < List.length s.
Proof.
  intros H. pose proof (skip_ws_length s) as Hl. rewrite H in Hl. simpl in Hl. lia.
Qed.

Lemma parse_fuel (fuel : nat) :
  (forall s, 2 * List.length s < fuel -> fuel_ok (parse_value fuel s) s)
  /\ (forall s acc, 2 * List.length s + 1 < fuel ->
                    fuel_ok (parse_items fuel s acc) s)
  /\ (forall s acc, 2 * List.length s + 1 < fuel ->
                    fuel_ok (parse_members fuel s acc) s).
Proof.
  induction fuel as [|f (IHv & IHi & IHm)].
  - repeat split; intros; lia.
  - split; [|split].
    + intros s Hs. cbn [parse_value].
      destruct (skip_ws s) as [|c r] eqn:Hws; [apply fuel_ok_err|].
      apply skip_ws_cons in Hws.
      destruct (unit_eqb c U.lbrace).
      { destruct (skip_ws r) as [|d r1] eqn:Hws1; [apply fuel_ok_err|].
        pose proof (skip_ws_length r) as Hl. rewrite Hws1 in Hl. simpl in Hl.
        destruct (unit_eqb d U.rbrace); [apply fuel_ok_done; lia|].
        eapply fuel_ok_weaken; [apply IHm|]; simpl; lia. }
      destruct (unit_eqb c U.lbracket).
      { destruct (skip_ws r) as [|d r1] eqn:Hws1; [apply fuel_ok_err|].
        pose proof (skip_ws_length r) as Hl. rewrite Hws1 in Hl. simpl in Hl.
        destruct (unit_eqb d U.rbracket); [apply fuel_ok_done; lia|].
        eapply fuel_ok_weaken; [apply IHi|]; simpl; lia. }
      destruct (unit_eqb c U.quote).
      { destruct (parse_string_chars_rest (List.length r) r [] (le_n _))
          as (H1 & H2).
        destruct (parse_string_chars r []) as [str rest| |];
          [|apply fuel_ok_err|now elim H1].
        specialize (H2 _ _ eq_refl). apply fuel_ok_done. lia. }
      assert (Hlit : forall lit v, fuel_ok (parse_literal lit v (c :: r)) s).
      { intros lit v. destruct (parse_literal_rest lit v (c :: r)) as (H1 & H2).
        split; [exact H1|]. intros w rest E. apply H2 in E. simpl in E. lia. }
      destruct (unit_eqb c 116%N); [apply Hlit|].
      destruct (unit_eqb c 102%N); [apply Hlit|].
      destruct (unit_eqb c 110%N); [apply Hlit|].
      destruct (parse_number_rest (c :: r)) as (H1 & H2).
      destruct (parse_number (c :: r)) as [x rest| |];
        [|apply fuel_ok_err|now elim H1].
      specialize (H2 _ _ eq_refl). apply fuel_ok_done. simpl in H2. lia.
    + intros s acc Hs. cbn [parse_items].
      destruct (IHv s) as (H1 & H2); [lia|].
      destruct (parse_value f s) as [v rest| |];
        [|apply fuel_ok_err|now elim H1].
      specialize (H2 _ _ eq_refl).
      destruct (skip_ws rest) as [|c r] eqn:Hws; [apply fuel_ok_err|].
      apply skip_ws_cons in Hws.
      destruct (unit_eqb c U.comma).
      { eapply fuel_ok_weaken; [apply IHi|]; lia. }
      destruct (unit_eqb c U.rbracket); [apply fuel_ok_done; lia|].
      apply fuel_ok_err.
    + intros s acc Hs. cbn [parse_members].
      destruct (skip_ws s) as [|q r0] eqn:Hws; [apply fuel_ok_err|].
      apply skip_ws_cons in Hws.
      destruct (unit_eqb q U.quote); [|apply fuel_ok_err].
      destruct (parse_string_chars_rest (List.length r0) r0 [] (le_n _))
        as (H1 & H2).
      destruct (parse_string_chars r0 []) as [key rest| |];
        [|apply fuel_ok_err|now elim H1].
      specialize (H2 _ _ eq_refl).
      destruct (skip_ws rest) as [|c r] eqn:Hws1; [apply fuel_ok_err|].
      apply skip_ws_cons in Hws1.
      destruct (unit_eqb c U.colon); [|apply fuel_ok_err].
      destruct (IHv r) as (H3 & H4); [lia|].
      destruct (parse_value f r) as [v rest1| |];
        [|apply fuel_ok_err|now elim H3].
      specialize (H4 _ _ eq_refl).
      destruct (skip_ws rest1) as [|d r1] eqn:Hws2; [apply fuel_ok_err|].
      apply skip_ws_cons in Hws2.
      destruct (unit_eqb d U.comma).
      { eapply fuel_ok_weaken; [apply IHm|]; lia. }
      destruct (unit_eqb d U.rbrace); [apply fuel_ok_done; lia|].
      apply fuel_ok_err.
Qed.

(** The fuel [JSON.parse] takes is enough for every text. *)
Theorem parse_text_fuel (text : jsstring) :
  parse_text (S (2 * List.length text)) text <> PFuel.
Proof.
  unfold parse_text.
  destruct (proj1 (parse_fuel (S (2 * List.length text))) text) as (H1 & _);
    [lia|].
  destruct (parse_value _ text) as [v rest| |]; [|discriminate|exact H1].
  destruct (skip_ws rest); discriminate.
Qed.

Lemma parse_more_fuel (fuel : nat) :
  (forall s fuel', fuel <= fuel' -> parse_value fuel s <> PFuel ->
                   parse_value fuel' s = parse_value fuel s)
  /\ (forall s acc fuel', fuel <= fuel' -> parse_items fuel s acc <> PFuel ->
                          parse_items fuel' s acc = parse_items fuel s acc)
  /\ (forall s acc fuel', fuel <= fuel' -> parse_members fuel s acc <> PFuel ->
                          parse_members fuel' s acc = parse_members fuel s acc).
Proof.
  induction fuel as [|f (IHv & IHi & IHm)].
  - repeat split; intros; simpl in *; congruence.
  - split; [|split].
    + intros s [|f'] Hle; [lia|]. apply le_S_n in Hle.
      cbn [parse_value].
      destruct (skip_ws s) as [|c r]; [reflexivity|].
      destruct (unit_eqb c U.lbrace).
      { destruct (skip_ws r) as [|d r1]; [reflexivity|].
        destruct (unit_eqb d U.rbrace); [reflexivity|]. now apply IHm. }
      destruct (unit_eqb c U.lbracket).
      { destruct (skip_ws r) as [|d r1]; [reflexivity|].
        destruct (unit_eqb d U.rbracket); [reflexivity|]. now apply IHi. }
      reflexivity.
    + intros s acc [|f'] Hle; [lia|]. apply le_S_n in Hle.
      cbn [parse_items]. intros Hno.
      destruct (parse_value f s) as [v rest| |] eqn:Hv;
        [| |now elim Hno].
      * rewrite (IHv s f' Hle), Hv by (rewrite Hv; discriminate).
        destruct (skip_ws rest) as [|c r]; [reflexivity|].
        destruct (unit_eqb c U.comma); [now apply IHi|]. reflexivity.
      * rewrite (IHv s f' Hle), Hv by (rewrite Hv; discriminate). reflexivity.
    + intros s acc [|f'] Hle; [lia|]. apply le_S_n in Hle.
      cbn [parse_members]. intros Hno.
      destruct (skip_ws s) as [|q r0]; [reflexivity|].
      destruct (unit_eqb q U.quote); [|reflexivity].
      destruct (parse_string_chars r0 []) as [key rest| |]; try reflexivity.
      destruct (skip_ws rest) as [|c r]; [reflexivity|].
      destruct (unit_eqb c U.colon); [|reflexivity].
      destruct (parse_value f r) as [v rest1| |] eqn:Hv;
        [| |now elim Hno].
      * rewrite (IHv r f' Hle), Hv by (rewrite Hv; discriminate).
        destruct (skip_ws rest1) as [|d r1]; [reflexivity|].
        destruct (unit_eqb d U.comma); [now apply IHm|]. reflexivity.
      * rewrite (IHv r f' Hle), Hv by (rewrite Hv; discriminate). reflexivity.
Qed.

(** More fuel than [JSON.parse] takes changes nothing. *)
Theorem parse_enough_fuel (text : jsstring) (fuel : nat) :
  S (2 * List.length text) <= fuel ->
  parse_text fuel text = parse_text (S (2 * List.length text)) text.
Proof.
  intros Hle. unfold parse_text.
  destruct (proj1 (parse_fuel (S (2 * List.length text))) text) as (H1 & _);
    [lia|].
  now rewrite (proj1 (parse_more_fuel _) text fuel Hle H1).
Qed.

End JSONFacts.

(** ** Numbers as the platform prints them *)

Example toString_tenth : Num.toString (Num.of_decimal false 1 (-1)) = js "0.1".
Proof. vm_compute. reflexivity. Qed.

Example toString_integer :
  Num.toString (Num.of_Z 1700000000000) = js "1700000000000".
Proof. vm_compute. reflexivity. Qed.

Example toString_large : Num.toString (Num.of_decimal false 1 21) = js "1e+21".
Proof. vm_compute. reflexivity. Qed.

Example toString_small :
  Num.toString (Num.of_decimal false 15 (-8)) = js "1.5e-7".
Proof. vm_compute. reflexivity. Qed.

Example toString_rounds :
  Num.toString (Num.of_Z 9007199254740993) = js "9007199254740992".
Proof. vm_compute. reflexivity. Qed.

Example toString_negative_zero :
  Num.toString (Num.of_decimal true 0 0) = js "0".
Proof. vm_compute. reflexivity. Qed.

Example toString_overflow :
  Num.toString (Num.of_decimal false 1 400) = js "Infinity".
Proof. vm_compute. reflexivity. Qed.

Example parse_sample :
  JSON.parse (jsq " {'a': [1, true, null], 'b': 'x\u0041\n'} ")
  = Some (JObject
            [(js "a", JArray [JNumber (Num.of_Z 1); JBool true; JNull]);
             (js "b", JString (js "xA" ++ [U.lf]))]).
Proof. vm_compute. reflexivity. Qed.

Example parse_rejects :
  map JSON.parse [jsq "[1,]"; js "01"; js "1."; jsq "{'a' 1}"; js "tru";
                  jsq "'a"; []; js "[1] x"]
  = [None; None; None; None; None; None; None; None].
Proof. vm_compute. reflexivity. Qed.

(** ** Decimal numerals *)

Lemma uint_units_inj (d d' : Decimal.uint) :
  uint_units d = uint_units d' -> d = d'.
Proof.
  revert d'; induction d; intros d' H; destruct d'; simpl in H;
    try discriminate; try reflexivity;
    injection H as H; f_equal; auto.
Qed.

Lemma dec_of_N_inj (n m : N) : dec_of_N n = dec_of_N m -> n = m.
Proof.
  intros H. apply DecimalN.Unsigned.to_uint_inj, uint_units_inj, H.
Qed.

Lemma uint_units_digits (d : Decimal.uint) :
  Forall (fun c => is_digit c = true) (uint_units d).
Proof.
  induction d; simpl; constructor; auto.
Qed.

Lemma dec_of_N_no_minus (n : N) : ~ In U.minus (dec_of_N n).
Proof.
  intros Hin.
  pose proof (uint_units_digits (N.to_uint n)) as Hd.
  rewrite Forall_forall in Hd. apply Hd in Hin. discriminate Hin.
Qed.

(** The part of a string before the first occurrence of [c] is determined
    by the string. *)
Lemma before_first_unique (c : code_unit) (l1 l2 r1 r2 : jsstring) :
  ~ In c l1 -> ~ In c l2 -> l1 ++ c :: r1 = l2 ++ c :: r2 -> l1 = l2.
Proof.
  revert l2; induction l1 as [|x l1 IH]; intros [|y l2] H1 H2 E; simpl in *.
  - reflexivity.
  - injection E as E _. subst y. exfalso; apply H2; now left.
  - injection E as E _. subst x. exfalso; apply H1; now left.
  - injection E as E E'. subst y. f_equal.
    apply IH; auto.
Qed.

(** So is the part after the last occurrence. *)
Lemma after_last_unique (c : code_unit) (l1 l2 r1 r2 : jsstring) :
  ~ In c r1 -> ~ In c r2 -> l1 ++ c :: r1 = l2 ++ c :: r2 -> r1 = r2.
Proof.
  intros H1 H2 E.
  apply (f_equal (@rev code_unit)) in E.
  rewrite !rev_app_distr in E. simpl in E. rewrite <- !app_assoc in E.
  simpl in E.
  apply before_first_unique in E.
  - apply (f_equal (@rev code_unit)) in E. now rewrite !rev_involutive in E.
  - now rewrite <- in_rev.
  - now rewrite <- in_rev.
Qed.

(** ** Flashcard identifiers *)

Lemma flashcard_id_inj (t t' : Z) (i j : nat) :
  Gemini.flashcard_id t i = Gemini.flashcard_id t' j -> i = j.
Proof.
  unfold Gemini.flashcard_id. intros E.
  apply app_inv_head in E.
  change (js "-" ++ ?x) with (U.minus :: x) in E.
  apply after_last_unique in E; auto using dec_of_N_no_minus.
  apply dec_of_N_inj in E. now apply Nat2N.inj.
Qed.

Lemma map_cards_ids (clock : nat -> Z) (arr : list JsVal) :
  forall i cards,
    Gemini.map_cards clock i arr = Normal cards ->
    map Gemini.id cards
    = map (fun k => Gemini.flashcard_id (clock k) k) (seq i (List.length arr)).
Proof.
  induction arr as [|card rest IH]; intros i cards H.
  - injection H as <-. reflexivity.
  - cbn [Gemini.map_cards] in H.
    apply bind_Normal in H as (q & _ & H).
    apply bind_Normal in H as (a & _ & H).
    apply bind_Normal in H as (cs & Hrest & H).
    injection H as <-. simpl. f_equal. now apply IH.
Qed.

Lemma map_cards_length (clock : nat -> Z) (arr : list JsVal) :
  forall i cards,
    Gemini.map_cards clock i arr = Normal cards ->
    List.length cards = List.length arr.
Proof.
  intros i cards H. apply map_cards_ids in H.
  apply (f_equal (@List.length jsstring)) in H.
  now rewrite !length_map, length_seq in H.
Qed.

Lemma ids_of_seq_NoDup (clock : nat -> Z) (i n : nat) :
  NoDup (map (fun k => Gemini.flashcard_id (clock k) k) (seq i n)).
Proof.
  apply Injective_map_NoDup.
  - intros x y E. now apply flashcard_id_inj in E.
  - apply seq_NoDup.
Qed.

Lemma cards_of_text_ids (clock : nat -> Z) (text : jsstring)
  (cards : list Gemini.Flashcard) :
  Gemini.cards_of_text clock text = Normal cards ->
  NoDup (map Gemini.id cards) /\ Forall (id_of_clock clock) cards.
Proof.
  unfold Gemini.cards_of_text. intros H.
  apply bind_Normal in H as (cs & Hmap & H).
  injection H as <-.
  destruct cs as [|c cs'].
  - split.
    + simpl. constructor; [intros [] | constructor].
    + constructor; [now exists 0%nat | constructor].
  - pose proof (map_cards_ids _ _ _ _ Hmap) as Hids. split.
    + rewrite Hids. apply ids_of_seq_NoDup.
    + apply Forall_forall. intros x Hx.
      apply (in_map Gemini.id) in Hx. rewrite Hids in Hx.
      apply in_map_iff in Hx as (k & Hk & _). now exists k.
Qed.

(** C9: the records returned by one call of the cloud
    [generateFlashcards] have pairwise distinct [id] fields, whatever the
    client answers and whatever times [Date.now()] reports during the
    call; each [id] is [flashcard-], a time of the clock, a hyphen and the
    index of the record. *)
Theorem generateFlashcards_ids_distinct (client : Gemini.Client)
  (clock : nat -> Z) (sourceContent : jsstring) :
  exists cards,
    Gemini.generateFlashcards client clock sourceContent = Normal cards
    /\ NoDup (map Gemini.id cards)
    /\ Forall (id_of_clock clock) cards.
Proof.
  unfold Gemini.generateFlashcards.
  destruct (Gemini.generateFlashcards_try client clock sourceContent)
    as [cards|e] eqn:Htry; simpl.
  - exists cards. split; [reflexivity|].
    unfold Gemini.generateFlashcards_try in Htry.
    apply bind_Normal in Htry as (model & _ & Htry).
    apply bind_Normal in Htry as (res & _ & Htry).
    apply bind_Normal in Htry as (t & _ & Htry).
    apply bind_Normal in Htry as (text & _ & Htry).
    now apply cards_of_text_ids in Htry.
  - exists []. split; [reflexivity|]. split; constructor.
Qed.

(** Across calls nothing keeps identifiers apart: two calls in the same
    millisecond give their first records the same [id]. *)
Lemma ids_repeat_across_calls (clock : nat -> Z) (text text' : jsstring) :
  Gemini.id (Gemini.fallback_card clock text)
  = Gemini.id (Gemini.fallback_card clock text').
Proof. reflexivity. Qed.

(** ** The local transport *)

Lemma occurs_in_middle (a b c : jsstring) : occurs_in b (a ++ b ++ c).
Proof. now exists a, c. Qed.

Lemma occurs_in_end (a b : jsstring) : occurs_in b (a ++ b).
Proof. exists a, []. now rewrite app_nil_r. Qed.

Lemma queryOllama_not_ok (fetch : Ollama.Backend) (prompt : jsstring)
  (res : Ollama.Response) :
  fetch (Ollama.request prompt) = Normal res ->
  Ollama.ok res = false ->
  Ollama.queryOllama fetch prompt
  = ([Ollama.Fetch (Ollama.request prompt); Ollama.ResText],
     errText <- Ollama.text res ;;
     Throw (Error (js "Ollama error " ++ dec_of_N (Ollama.status res)
                     ++ js ": " ++ errText))).
Proof.
  intros Hfetch Hok. unfold Ollama.queryOllama.
  rewrite Hfetch. unfold Ollama.ebind at 1. rewrite Hok. cbn [negb].
  destruct (Ollama.text res); reflexivity.
Qed.

(** C6, as the code has it: when the local backend answers with a status
    outside 200..299, [queryOllama] reads the body with [res.text()] and
    throws.  When the body reads as a text, it throws an [Error] whose
    message holds the decimal status code and that text as it is; when the
    reading fails, it throws what the reading threw.  Either way the only
    call made on the response is [res.text()]: no reader is taken, nothing
    is read from the stream. *)
Theorem queryOllama_non_2xx (fetch : Ollama.Backend) (prompt : jsstring)
  (res : Ollama.Response) :
  fetch (Ollama.request prompt) = Normal res ->
  (Ollama.status res < 200 \/ 299 < Ollama.status res)%N ->
  (forall errText,
     Ollama.text res = Normal errText ->
     exists e,
       Ollama.outcome (Ollama.queryOllama fetch prompt) = Throw e
       /\ e = Error (js "Ollama error " ++ dec_of_N (Ollama.status res)
                       ++ js ": " ++ errText)
       /\ occurs_in (dec_of_N (Ollama.status res)) (message_of e)
       /\ occurs_in errText (message_of e))
  /\ (forall err,
        Ollama.text res = Throw err ->
        Ollama.outcome (Ollama.queryOllama fetch prompt) = Throw err)
  /\ (exists e, Ollama.outcome (Ollama.queryOllama fetch prompt) = Throw e)
  /\ Ollama.events (Ollama.queryOllama fetch prompt)
     = [Ollama.Fetch (Ollama.request prompt); Ollama.ResText]
  /\ ~ In Ollama.GetReader (Ollama.events (Ollama.queryOllama fetch prompt))
  /\ ~ In Ollama.Read (Ollama.events (Ollama.queryOllama fetch prompt)).
Proof.
  intros Hfetch Hstatus.
  assert (Hok : Ollama.ok res = false).
  { unfold Ollama.ok. destruct Hstatus as [H|H].
    - apply N.leb_gt in H. now rewrite H.
    - apply N.leb_gt in H. rewrite H. apply andb_false_r. }
  rewrite (queryOllama_not_ok _ _ _ Hfetch Hok).
  unfold Ollama.outcome, Ollama.events, fst, snd.
  split; [|split; [|split; [|split; [reflexivity|]]]].
  - intros errText ->. cbn [bind].
    eexists. split; [reflexivity|]. split; [reflexivity|].
    change (message_of (Error ?m)) with m.
    split; [apply occurs_in_middle|].
    rewrite !app_assoc. apply occurs_in_end.
  - intros err ->. reflexivity.
  - destruct (Ollama.text res); eexists; reflexivity.
  - split; intros [H|[H|[]]]; discriminate H.
Qed.

Lemma queryOllama_non_2xx_witness :
  exists e,
    Ollama.outcome
      (Ollama.queryOllama (server 503 (js "overloaded") None) (js "p"))
    = Throw e
    /\ message_of e = js "Ollama error 503: overloaded".
Proof.
  destruct (proj1 (queryOllama_non_2xx
                     (server 503 (js "overloaded") None) (js "p")
                     _ eq_refl (or_intror eq_refl))
              (js "overloaded") eq_refl)
    as (e & Hout & He & _).
  exists e. split; [exact Hout|]. now rewrite He.
Defined.

(** C6 as stated fails for a response whose body cannot be read: the
    server answers 503 and the connection drops before the body arrives,
    so [res.text()] rejects.  [queryOllama] then throws what the reading
    threw, and that error holds no status code. *)
Lemma unreadable_body_hides_status :
  Ollama.outcome
    (Ollama.queryOllama
       (unreadable_server 503 (JError (js "TypeError") (js "network error")))
       (js "p"))
  = Throw (JError (js "TypeError") (js "network error"))
  /\ Ollama.events
       (Ollama.queryOllama
          (unreadable_server 503
             (JError (js "TypeError") (js "network error")))
          (js "p"))
     = [Ollama.Fetch (Ollama.request (js "p")); Ollama.ResText]
  /\ ~ occurs_in (dec_of_N 503)
        (message_of (JError (js "TypeError") (js "network error"))).
Proof.
  split; [reflexivity|]. split; [reflexivity|].
  intros (pre & post & H).
  assert (Hin : In 53%N (message_of
                           (JError (js "TypeError") (js "network error")))).
  { rewrite H. apply in_or_app. right. left. reflexivity. }
  vm_compute in Hin. intuition discriminate.
Qed.

(** ** Failures of the question-answering operation *)

(** The [try] block of the cloud [askQuestion] throws exactly when
    [getModel], the model call or [toText] does. *)
Lemma askQuestion_try_Throw (client : Gemini.Client)
  (question sourceContent : jsstring) (useThinkingMode : bool) (e : JsVal) :
  let modelName :=
    if useThinkingMode then js "gemini-2.5-pro" else js "gemini-2.5-flash" in
  let prompt :=
    Gemini.askQuestion_prompt question sourceContent useThinkingMode in
  Gemini.askQuestion_try client question sourceContent useThinkingMode
  = Throw e
  <-> (Gemini.getModel client modelName = Throw e
       \/ (exists model, Gemini.getModel client modelName = Normal model
                         /\ model prompt = Throw e)
       \/ (exists model res, Gemini.getModel client modelName = Normal model
                             /\ model prompt = Normal res
                             /\ Gemini.toText res = Throw e)).
Proof.
  intros modelName prompt. unfold Gemini.askQuestion_try.
  fold modelName. fold prompt. split.
  - intros H. apply bind_Throw in H as [H|(model & Hm & H)]; [now left|].
    apply bind_Throw in H as [H|(res & Hr & H)]; [right; left; eauto|].
    apply bind_Throw in H as [H|(text & Ht & H)]; [|discriminate].
    right; right; eauto.
  - intros [H|[(model & Hm & H)|(model & res & Hm & Hr & H)]].
    + now rewrite H.
    + rewrite Hm. simpl. now rewrite H.
    + rewrite Hm. simpl. rewrite Hr. simpl. now rewrite H.
Qed.

(** C7: [askQuestion] never throws, in the cloud variant and in the local
    one; whenever its attempt fails (the [try] block of the cloud variant,
    [queryOllama] in the local one), it returns the fixed apology. *)
Theorem askQuestion_catches_failures (client : Gemini.Client)
  (fetch : Ollama.Backend) (question sourceContent : jsstring)
  (useThinkingMode : bool) :
  let apology :=
    js "Sorry, I encountered an error while processing your question." in
  (exists v,
     Gemini.askQuestion client question sourceContent useThinkingMode
     = Normal v)
  /\ (forall e,
        Gemini.askQuestion_try client question sourceContent useThinkingMode
        = Throw e ->
        Gemini.askQuestion client question sourceContent useThinkingMode
        = Normal (JString apology))
  /\ (exists a,
        Ollama.outcome
          (Ollama.askQuestion fetch question sourceContent useThinkingMode)
        = Normal a)
  /\ (forall e,
        Ollama.outcome
          (Ollama.queryOllama fetch
             (Ollama.askQuestion_prompt question sourceContent
                useThinkingMode))
        = Throw e ->
        Ollama.outcome
          (Ollama.askQuestion fetch question sourceContent useThinkingMode)
        = Normal apology).
Proof.
  intros apology. repeat split.
  - unfold Gemini.askQuestion. apply try_catch_Normal.
  - intros e H. unfold Gemini.askQuestion. now rewrite H.
  - unfold Ollama.askQuestion, Ollama.etry, Ollama.outcome.
    destruct (Ollama.queryOllama fetch _) as [log [a|e]]; simpl; eauto.
  - intros e. unfold Ollama.askQuestion, Ollama.etry, Ollama.outcome.
    destruct (Ollama.queryOllama fetch _) as [log [a|e']]; simpl;
      [discriminate | reflexivity].
Qed.

(** With a client of neither SDK shape, and with a server that answers
    500, the apology comes back. *)
Lemma askQuestion_catches_failures_witness :
  Gemini.askQuestion Gemini.UnknownSdk (js "What is X?")
    (js "X is a constant equal to 1") false
  = Normal (JString
      (js "Sorry, I encountered an error while processing your question."))
  /\ Ollama.outcome
       (Ollama.askQuestion (server 500 (js "boom") None) (js "What is X?")
          (js "X is a constant equal to 1") false)
     = Normal
         (js "Sorry, I encountered an error while processing your question.").
Proof.
  destruct (askQuestion_catches_failures Gemini.UnknownSdk
              (server 500 (js "boom") None) (js "What is X?")
              (js "X is a constant equal to 1") false)
    as (_ & Hcloud & _ & Hlocal).
  split.
  - exact (Hcloud Gemini.unexpected_shape eq_refl).
  - exact (Hlocal (Error (js "Ollama error 500: boom")) eq_refl).
Defined.

(** C8: in the local variant [generateReport] has no handler: an error
    that [queryOllama] throws for the report prompt is thrown to the
    caller of [generateReport] as it is, and nothing is logged; on the same
    backend [askQuestion] still completes normally. *)
Theorem generateReport_local_propagates (fetch : Ollama.Backend)
  (sourceContent : jsstring) (e : JsVal) :
  Ollama.outcome
    (Ollama.queryOllama fetch (Ollama.generateReport_prompt sourceContent))
  = Throw e ->
  Ollama.outcome (Ollama.generateReport fetch sourceContent) = Throw e
  /\ Ollama.events (Ollama.generateReport fetch sourceContent)
     = Ollama.events
         (Ollama.queryOllama fetch
            (Ollama.generateReport_prompt sourceContent))
  /\ forall question useThinkingMode e',
       Ollama.outcome
         (Ollama.askQuestion fetch question sourceContent useThinkingMode)
       <> Throw e'.
Proof.
  intros H. split; [exact H|]. split; [reflexivity|]. clear H.
  intros question useThinkingMode e'.
  unfold Ollama.askQuestion, Ollama.etry, Ollama.outcome.
  destruct (Ollama.queryOllama fetch _) as [log [a|e'']]; simpl;
    intros Habs; discriminate Habs.
Qed.

(** A server that answers 500 is such a failing backend. *)
Lemma generateReport_local_propagates_witness :
  Ollama.outcome
    (Ollama.generateReport (server 500 (js "boom") None) (js "notes"))
  = Throw (Error (js "Ollama error 500: boom")).
Proof.
  exact (proj1 (generateReport_local_propagates
                  (server 500 (js "boom") None) (js "notes")
                  (Error (js "Ollama error 500: boom")) eq_refl)).
Defined.

(** ** Placeholders of the cloud variant *)

Lemma or_else_not_empty (a b : JsVal) :
  b <> JString [] -> or_else a b <> JString [].
Proof.
  intros Hb. unfold or_else.
  destruct (ToBoolean a) eqn:Ha; [|exact Hb].
  intros ->. discriminate Ha.
Qed.

(** C10: in the cloud variant neither [askQuestion] nor [generateReport]
    returns the empty string; when the call succeeds and [toText] gives
    the empty string, each returns its placeholder, [no_answer] and
    [no_report], which are the literals of the source (the apostrophe of
    the first is U+2019). *)
Theorem cloud_never_returns_empty (client : Gemini.Client)
  (question sourceContent : jsstring) (useThinkingMode : bool) :
  Gemini.askQuestion client question sourceContent useThinkingMode
  <> Normal (JString [])
  /\ Gemini.generateReport client sourceContent <> Normal (JString [])
  /\ (forall model res,
        Gemini.getModel client
          (if useThinkingMode then js "gemini-2.5-pro"
           else js "gemini-2.5-flash") = Normal model ->
        model (Gemini.askQuestion_prompt question sourceContent
                 useThinkingMode) = Normal res ->
        Gemini.toText res = Normal (JString []) ->
        Gemini.askQuestion client question sourceContent useThinkingMode
        = Normal (JString Gemini.no_answer))
  /\ (forall model res,
        Gemini.getModel client (js "gemini-2.5-pro") = Normal model ->
        model (Gemini.generateReport_prompt sourceContent) = Normal res ->
        Gemini.toText res = Normal (JString []) ->
        Gemini.generateReport client sourceContent
        = Normal (JString Gemini.no_report))
  /\ Gemini.no_answer
     = js "I couldn" ++ [8217%N] ++ js "t produce an answer."
  /\ Gemini.no_report = js "No report text returned.".
Proof.
  repeat split.
  - unfold Gemini.askQuestion.
    destruct (Gemini.askQuestion_try client question sourceContent
                useThinkingMode) as [v|e] eqn:Htry; simpl; [|discriminate].
    unfold Gemini.askQuestion_try in Htry.
    apply bind_Normal in Htry as (model & _ & Htry).
    apply bind_Normal in Htry as (res & _ & Htry).
    apply bind_Normal in Htry as (text & _ & Htry).
    injection Htry as <-. intros H. injection H as H.
    revert H. apply or_else_not_empty. discriminate.
  - unfold Gemini.generateReport.
    destruct (Gemini.generateReport_try client sourceContent)
      as [v|e] eqn:Htry; simpl; [|discriminate].
    unfold Gemini.generateReport_try in Htry.
    apply bind_Normal in Htry as (model & _ & Htry).
    apply bind_Normal in Htry as (res & _ & Htry).
    apply bind_Normal in Htry as (text & _ & Htry).
    injection Htry as <-. intros H. injection H as H.
    revert H. apply or_else_not_empty. discriminate.
  - intros model res Hm Hr Ht.
    unfold Gemini.askQuestion, Gemini.askQuestion_try.
    rewrite Hm. simpl. rewrite Hr. simpl. rewrite Ht. reflexivity.
  - intros model res Hm Hr Ht.
    unfold Gemini.generateReport, Gemini.generateReport_try.
    rewrite Hm. simpl. rewrite Hr. simpl. rewrite Ht. reflexivity.
Qed.

(** A backend whose response has the empty string as its text. *)
Lemma cloud_never_returns_empty_witness :
  Gemini.askQuestion (sdk_returning (response_with_text (JString [])))
    (js "What is X?") (js "X is a constant equal to 1") false
  = Normal (JString Gemini.no_answer)
  /\ Gemini.generateReport (sdk_returning (response_with_text (JString [])))
       (js "X is a constant equal to 1")
     = Normal (JString Gemini.no_report).
Proof.
  destruct (cloud_never_returns_empty
              (sdk_returning (response_with_text (JString [])))
              (js "What is X?") (js "X is a constant equal to 1") false)
    as (_ & _ & Hask & Hreport & _).
  split.
  - exact (Hask _ _ eq_refl eq_refl eq_refl).
  - exact (Hreport _ _ eq_refl eq_refl eq_refl).
Defined.

(** ** The response normalizer *)

Lemma join_values_strings (sep : jsstring) (strs : list jsstring) :
  Gemini.join_values sep (map JString strs) = Normal (join sep strs).
Proof.
  induction strs as [|s rest IH]; [reflexivity|].
  cbn [map Gemini.join_values is_nullish ToString toString_hint
       prim_toString bind].
  destruct rest as [|s' rest']; [reflexivity|].
  change (map JString (s' :: rest')) with (JString s' :: map JString rest').
  cbv iota. change (JString s' :: map JString rest')
    with (map JString (s' :: rest')).
  rewrite IH. reflexivity.
Qed.

Lemma join_values_Throw (sep : jsstring) (l : list JsVal) (e : JsVal) :
  Gemini.join_values sep l = Throw e ->
  exists x, In x l /\ is_nullish x = false /\ ToString x = Throw e.
Proof.
  induction l as [|x rest IH]; [discriminate|].
  cbn [Gemini.join_values]. intros H.
  apply bind_Throw in H as [H|(s & Hs & H)].
  - destruct (is_nullish x) eqn:Hx; [discriminate|].
    exists x. repeat split; auto. now left.
  - destruct rest as [|y rest']; [discriminate|].
    apply bind_Throw in H as [H|(t & _ & H)]; [|discriminate].
    destruct (IH H) as (z & Hin & Hz). exists z. split; [now right|exact Hz].
Qed.

Lemma toText_unfold (res : JsVal) :
  Gemini.toText res
  = match text_accessor res with
    | JFunction _ call => call
    | JString s => Normal (JString s)
    | _ =>
        match first_candidate_parts res with
        | JArray ps =>
            txt <- Gemini.join_values [U.lf]
                     (filter ToBoolean (map part_text ps)) ;;
            Normal (JString txt)
        | _ => Normal (JString [])
        end
    end.
Proof.
  unfold Gemini.toText, text_accessor, first_candidate_parts.
  set (t := opt_get (opt_get res (js "response")) (js "text")).
  set (parts := opt_get _ (js "parts")).
  assert (E : match parts with
              | JArray ps =>
                  txt <- Gemini.join_values [U.lf]
                           (filter ToBoolean
                              (map (fun p => opt_get p (js "text")) ps)) ;;
                  match txt with
                  | [] => Normal (JString [])
                  | _ => Normal (JString txt)
                  end
              | _ => Normal (JString [])
              end
              = match parts with
                | JArray ps =>
                    txt <- Gemini.join_values [U.lf]
                             (filter ToBoolean (map part_text ps)) ;;
                    Normal (JString txt)
                | _ => Normal (JString [])
                end).
  { destruct parts; try reflexivity.
    unfold part_text.
    destruct (Gemini.join_values _ _) as [[|c txt]|e]; reflexivity. }
  destruct t; try exact E; reflexivity.
Qed.

Lemma truthy_not_nullish (l : list JsVal) :
  Forall (fun v => is_nullish v = false) (filter ToBoolean l).
Proof.
  apply Forall_forall. intros v Hin. apply filter_In in Hin as (_ & Hv).
  now destruct v.
Qed.

Lemma join_values_converted (sep : jsstring) (l : list JsVal)
  (strs : list jsstring) :
  Forall (fun v => is_nullish v = false) l ->
  Forall2 converts_to l strs ->
  Gemini.join_values sep l = Normal (join sep strs).
Proof.
  intros Hnn Hco. induction Hco as [|v s l strs Hv Hco IH]; [reflexivity|].
  inversion Hnn as [|? ? Hv0 Hl]; subst.
  cbn [Gemini.join_values]. rewrite Hv0. unfold converts_to in Hv.
  rewrite Hv. cbn [bind].
  destruct Hco as [|v' s' l' strs' Hv' Hco']; [reflexivity|].
  rewrite (IH Hl). reflexivity.
Qed.

Lemma join_values_first_failure (sep : jsstring)
  (before : list JsVal) (v : JsVal) (after : list JsVal)
  (strs : list jsstring) (e : JsVal) :
  Forall (fun v => is_nullish v = false) (before ++ v :: after) ->
  Forall2 converts_to before strs ->
  ToString v = Throw e ->
  Gemini.join_values sep (before ++ v :: after) = Throw e.
Proof.
  intros Hnn Hco Hv. induction Hco as [|w s l strs Hw Hco IH].
  - inversion Hnn as [|? ? Hv0 _]; subst.
    cbn [app Gemini.join_values]. now rewrite Hv0, Hv.
  - inversion Hnn as [|? ? Hw0 Hl]; subst.
    change ((w :: l) ++ v :: after) with (w :: (l ++ v :: after)).
    cbn [Gemini.join_values]. rewrite Hw0. unfold converts_to in Hw.
    rewrite Hw. cbn [bind]. rewrite (IH Hl).
    destruct (l ++ v :: after) eqn:E; [|reflexivity].
    now destruct l.
Qed.

(** C4, as the code has it: [toText] tries the shapes in order.  A
    callable [text] accessor is invoked and its completion is the result
    (its return value, or what it throws); otherwise a string [text] is
    returned as it is; otherwise, when the first candidate has an array of
    parts, the truthy [text] fields of the parts, whatever values they
    are, are converted to strings in order and joined with line feeds, and
    when a conversion throws, [toText] throws what the first failing one
    threw; otherwise, without such an array, the result is the empty
    string.  It throws only what the accessor throws or what the string
    conversion of a truthy part text throws. *)
Theorem toText_shapes (res : JsVal) :
  (forall src call,
     text_accessor res = JFunction src call -> Gemini.toText res = call)
  /\ (forall s,
        text_accessor res = JString s ->
        Gemini.toText res = Normal (JString s))
  /\ (forall ps strs,
        is_function (text_accessor res) = false ->
        is_string (text_accessor res) = false ->
        first_candidate_parts res = JArray ps ->
        Forall2 converts_to (filter ToBoolean (map part_text ps)) strs ->
        Gemini.toText res = Normal (JString (join [U.lf] strs)))
  /\ (forall ps before v after strs e,
        is_function (text_accessor res) = false ->
        is_string (text_accessor res) = false ->
        first_candidate_parts res = JArray ps ->
        filter ToBoolean (map part_text ps) = before ++ v :: after ->
        Forall2 converts_to before strs ->
        ToString v = Throw e ->
        Gemini.toText res = Throw e)
  /\ (is_function (text_accessor res) = false ->
      is_string (text_accessor res) = false ->
      isArray (first_candidate_parts res) = false ->
      Gemini.toText res = Normal (JString []))
  /\ (forall e,
        Gemini.toText res = Throw e ->
        (exists src, text_accessor res = JFunction src (Throw e))
        \/ (exists ps p,
              first_candidate_parts res = JArray ps
              /\ In p ps
              /\ ToBoolean (part_text p) = true
              /\ ToString (part_text p) = Throw e)).
Proof.
  rewrite toText_unfold. repeat split.
  - intros src call ->. reflexivity.
  - intros s ->. reflexivity.
  - intros ps strs Hf Hs -> Hstrs.
    rewrite (join_values_converted _ _ _ (truthy_not_nullish _) Hstrs).
    destruct (text_accessor res); try discriminate; reflexivity.
  - intros ps before v after strs e Hf Hs -> Hsplit Hbefore Hv.
    pose proof (truthy_not_nullish (map part_text ps)) as Hnn.
    rewrite Hsplit in *.
    rewrite (join_values_first_failure _ _ _ _ _ _ Hnn Hbefore Hv).
    destruct (text_accessor res); try discriminate; reflexivity.
  - intros Hf Hs Ha.
    destruct (text_accessor res); try discriminate;
      destruct (first_candidate_parts res); try discriminate; reflexivity.
  - intros e H.
    assert (Hparts :
              (txt <- match first_candidate_parts res with
                      | JArray ps =>
                          Gemini.join_values [U.lf]
                            (filter ToBoolean (map part_text ps))
                      | _ => Normal []
                      end ;; Normal (JString txt)) = Throw e ->
              exists ps p,
                first_candidate_parts res = JArray ps
                /\ In p ps
                /\ ToBoolean (part_text p) = true
                /\ ToString (part_text p) = Throw e).
    { intros H'. apply bind_Throw in H' as [H'|(txt & _ & H')];
        [|discriminate].
      destruct (first_candidate_parts res) as [| | | | |ps| | |];
        try discriminate.
      apply join_values_Throw in H' as (x & Hin & _ & Hx).
      apply filter_In in Hin as (Hin & Htrue).
      apply in_map_iff in Hin as (p & <- & Hp).
      exists ps, p. auto. }
    destruct (text_accessor res) eqn:Ht; try discriminate;
      try (right; apply Hparts;
           destruct (first_candidate_parts res); exact H).
    left. eexists. rewrite H. reflexivity.
Qed.

(** The four shapes of the specification, parts whose texts are not
    strings, and a part whose text cannot be converted. *)
Lemma toText_shapes_witness :
  Gemini.toText (response_with_text (accessor (Normal (JString (js "hi")))))
  = Normal (JString (js "hi"))
  /\ Gemini.toText (response_with_text (JString (js "hi")))
     = Normal (JString (js "hi"))
  /\ Gemini.toText
       (response_with_parts [JString (js "a"); JString (js "b")])
     = Normal (JString (js "a" ++ [U.lf] ++ js "b"))
  /\ Gemini.toText (JObject [(js "status", JNumber (Num.of_Z 200))])
     = Normal (JString [])
  /\ Gemini.toText
       (response_with_parts
          [JNumber (Num.of_Z 7); JString []; JBool true; JNull;
           JString (js "z")])
     = Normal (JString (js "7" ++ [U.lf] ++ js "true" ++ [U.lf] ++ js "z"))
  /\ Gemini.toText
       (response_with_parts
          [JString (js "a"); JObject [(js "toString", JNull)];
           JString (js "z")])
     = Throw TypeError_not_primitive.
Proof.
  split; [|split; [|split; [|split; [|split]]]].
  - exact (proj1 (toText_shapes
                    (response_with_text (accessor (Normal (JString (js "hi"))))))
             (js "() => ...") (Normal (JString (js "hi"))) eq_refl).
  - exact (proj1 (proj2 (toText_shapes (response_with_text (JString (js "hi")))))
             (js "hi") eq_refl).
  - exact (proj1 (proj2 (proj2 (toText_shapes
                    (response_with_parts [JString (js "a"); JString (js "b")]))))
             [JObject [(js "text", JString (js "a"))];
              JObject [(js "text", JString (js "b"))]]
             [js "a"; js "b"] eq_refl eq_refl eq_refl
             ltac:(repeat constructor)).
  - exact (proj1 (proj2 (proj2 (proj2 (proj2 (toText_shapes
                    (JObject [(js "status", JNumber (Num.of_Z 200))]))))))
             eq_refl eq_refl eq_refl).
  - exact (proj1 (proj2 (proj2 (toText_shapes
                    (response_with_parts
                       [JNumber (Num.of_Z 7); JString []; JBool true; JNull;
                        JString (js "z")]))))
             (map (fun t => JObject [(js "text", t)])
                [JNumber (Num.of_Z 7); JString []; JBool true; JNull;
                 JString (js "z")])
             [js "7"; js "true"; js "z"] eq_refl eq_refl eq_refl
             ltac:(repeat constructor)).
  - exact (proj1 (proj2 (proj2 (proj2 (toText_shapes
                    (response_with_parts
                       [JString (js "a"); JObject [(js "toString", JNull)];
                        JString (js "z")])))))
             (map (fun t => JObject [(js "text", t)])
                [JString (js "a"); JObject [(js "toString", JNull)];
                 JString (js "z")])
             [JString (js "a")] (JObject [(js "toString", JNull)])
             [JString (js "z")] [js "a"] TypeError_not_primitive
             eq_refl eq_refl eq_refl eq_refl
             ltac:(repeat constructor) eq_refl).
Defined.

(** C4 as stated fails: an accessor that throws makes [toText] throw. *)
Lemma toText_can_throw :
  Gemini.toText (response_with_text (accessor (Throw (Error (js "blocked")))))
  = Throw (Error (js "blocked"))
  /\ ~ (exists v,
          Gemini.toText
            (response_with_text (accessor (Throw (Error (js "blocked")))))
          = Normal v).
Proof.
  split; [reflexivity|]. intros (v & H). discriminate H.
Qed.

(** ** Substrings *)

Lemma in_prefixes (a b : jsstring) : In a (prefixes (a ++ b)).
Proof.
  induction a as [|c a IH]; simpl.
  - destruct b; now left.
  - right. apply in_map, IH.
Qed.

Lemma in_suffixes (a b : jsstring) : In b (suffixes (a ++ b)).
Proof.
  induction a as [|c a IH]; simpl.
  - destruct b; now left.
  - now right.
Qed.

Lemma in_substrings (pre mid post : jsstring) :
  In mid (substrings (pre ++ mid ++ post)).
Proof.
  unfold substrings. apply in_flat_map.
  exists (mid ++ post). split; [apply in_suffixes | apply in_prefixes].
Qed.

Lemma has_json_array_false (text : jsstring) :
  has_json_array text = false -> ~ contains_json_array text.
Proof.
  intros H (pre & mid & post & elems & -> & Hparse).
  unfold has_json_array in H.
  assert (Hin := in_substrings pre mid post).
  assert (Ht : parses_to_array mid = true)
    by (unfold parses_to_array; now rewrite Hparse).
  assert (existsb parses_to_array (substrings (pre ++ mid ++ post)) = true)
    by (apply existsb_exists; eauto).
  congruence.
Qed.

(** ** The bracketed match *)

Lemma upto_last_rbracket_prefix (s p : jsstring) :
  upto_last_rbracket s = Some p -> exists post, s = p ++ post.
Proof.
  revert p; induction s as [|c r IH]; intros p H; [discriminate|].
  simpl in H. destruct (upto_last_rbracket r) as [p'|].
  - injection H as <-. destruct (IH p' eq_refl) as (post & ->).
    now exists post.
  - destruct (unit_eqb c U.rbracket); [|discriminate].
    injection H as <-. now exists r.
Qed.

(** What the regular expression matches is a substring of the text. *)
Lemma match_bracketed_substring (text m : jsstring) :
  match_bracketed text = Some m -> exists pre post, text = pre ++ m ++ post.
Proof.
  induction text as [|c r IH]; intros H; [discriminate|].
  simpl in H.
  assert (Hrest : match_bracketed r = Some m ->
                  exists pre post, c :: r = pre ++ m ++ post).
  { intros H'. destruct (IH H') as (pre & post & ->).
    now exists (c :: pre), post. }
  destruct (unit_eqb c U.lbracket); [|auto].
  destruct (upto_last_rbracket r) as [p|] eqn:Hp; [|auto].
  injection H as <-. apply upto_last_rbracket_prefix in Hp as (post & ->).
  now exists [], post.
Qed.

(** ** Texts without a JSON array *)

Lemma extract_array_none (text : jsstring) :
  ~ contains_json_array text -> Gemini.extract_array text = None.
Proof.
  intros Hno. unfold Gemini.extract_array.
  destruct (JSON.parse text) as [parsed|] eqn:Hparse.
  - destruct parsed; try reflexivity.
    exfalso. apply Hno. exists [], text, [], elems.
    now rewrite app_nil_r.
  - destruct (match_bracketed text) as [m0|] eqn:Hm; [|reflexivity].
    destruct (JSON.parse m0) as [[]|] eqn:Hp0; try reflexivity.
    exfalso. apply Hno.
    apply match_bracketed_substring in Hm as (pre & post & ->).
    now exists pre, m0, post, elems.
Qed.

Lemma generateFlashcards_try_text (client : Gemini.Client)
  (clock : nat -> Z) (sourceContent : jsstring)
  (model : jsstring -> Completion JsVal) (res : JsVal) (raw : jsstring) :
  Gemini.getModel client (js "gemini-2.5-flash") = Normal model ->
  model (Gemini.generateFlashcards_prompt sourceContent) = Normal res ->
  Gemini.toText res = Normal (JString raw) ->
  Gemini.generateFlashcards_try client clock sourceContent
  = Gemini.cards_of_text clock (trim raw).
Proof.
  intros Hm Hr Ht. unfold Gemini.generateFlashcards_try.
  rewrite Hm. cbn [bind]. rewrite Hr. cbn [bind]. rewrite Ht. reflexivity.
Qed.

(** C3: for a text that holds no valid JSON array, the extractor of
    either variant returns exactly one record, the fallback: its question
    is ["Summary"] and its answer is the text, cut to its first 1000
    code units in the cloud variant and whole in the local one.  So do the
    two [generateFlashcards] when the transport delivered that text; they
    do not throw. *)
Theorem no_array_gives_fallback (clock : nat -> Z) (text : jsstring) :
  ~ contains_json_array text ->
  Gemini.cards_of_text clock text
  = Normal [ {| Gemini.id := Gemini.flashcard_id (clock 0%nat) 0;
                Gemini.question := js "Summary";
                Gemini.answer := slice0 1000 text |} ]
  /\ (List.length text <= 1000 -> slice0 1000 text = text)
  /\ Ollama.cards_of_text text
     = JArray [JObject [(js "question", JString (js "Summary"));
                        (js "answer", JString text)]]
  /\ (forall client sourceContent model res raw,
        Gemini.getModel client (js "gemini-2.5-flash") = Normal model ->
        model (Gemini.generateFlashcards_prompt sourceContent) = Normal res ->
        Gemini.toText res = Normal (JString raw) ->
        trim raw = text ->
        Gemini.generateFlashcards client clock sourceContent
        = Normal [Gemini.fallback_card clock text])
  /\ (forall fetch sourceContent,
        Ollama.outcome
          (Ollama.queryOllama fetch
             (Ollama.generateFlashcards_prompt sourceContent))
        = Normal text ->
        Ollama.outcome (Ollama.generateFlashcards fetch sourceContent)
        = Normal (JArray [Ollama.summary_card text])).
Proof.
  intros Hno.
  assert (Hcloud : Gemini.cards_of_text clock text
                   = Normal [Gemini.fallback_card clock text]).
  { unfold Gemini.cards_of_text.
    now rewrite (extract_array_none _ Hno). }
  assert (Hlocal : Ollama.cards_of_text text
                   = JArray [Ollama.summary_card text]).
  { unfold Ollama.cards_of_text.
    destruct (JSON.parse text) as [[]|] eqn:Hparse; try reflexivity.
    exfalso. apply Hno. exists [], text, [], elems.
    now rewrite app_nil_r. }
  split; [exact Hcloud|]. split; [apply firstn_all2|].
  split; [exact Hlocal|]. split.
  - intros client sourceContent model res raw Hm Hr Ht <-.
    unfold Gemini.generateFlashcards.
    rewrite (generateFlashcards_try_text _ _ _ _ _ _ Hm Hr Ht), Hcloud.
    reflexivity.
  - intros fetch sourceContent.
    unfold Ollama.generateFlashcards, Ollama.outcome, Ollama.ebind.
    destruct (Ollama.queryOllama fetch _) as [log [t|e]]; simpl;
      [|discriminate].
    intros H. injection H as ->. now rewrite Hlocal.
Qed.

(** Outside that case: the cloud extractor, when it completes, returns at
    least one record for every text; the cloud [generateFlashcards]
    returns the empty array when its [try] block throws; and the local
    variant returns no record for the text of the empty array. *)
Lemma cloud_extractor_not_empty (clock : nat -> Z) (text : jsstring)
  (cards : list Gemini.Flashcard) :
  Gemini.cards_of_text clock text = Normal cards -> cards <> [].
Proof.
  unfold Gemini.cards_of_text. intros H.
  apply bind_Normal in H as ([|c cs] & _ & H); injection H as <-;
    discriminate.
Qed.

Lemma generateFlashcards_failure_gives_empty (client : Gemini.Client)
  (clock : nat -> Z) (sourceContent : jsstring) (e : JsVal) :
  Gemini.generateFlashcards_try client clock sourceContent = Throw e ->
  Gemini.generateFlashcards client clock sourceContent = Normal [].
Proof.
  intros H. unfold Gemini.generateFlashcards. now rewrite H.
Qed.

Example cloud_coercion_failure_gives_empty :
  Gemini.generateFlashcards
    (sdk_returning
       (response_with_text (JString (jsq "[{'question':{'toString':1}}]"))))
    (fun _ => 0%Z) (js "notes")
  = Normal [].
Proof. vm_compute. reflexivity. Qed.

Example local_empty_array :
  Ollama.cards_of_text (js "[]") = JArray [].
Proof. vm_compute. reflexivity. Qed.

(** A model that answers in prose. *)
Lemma no_array_gives_fallback_witness :
  Gemini.generateFlashcards
    (sdk_returning (response_with_text (JString (js "  No cards today. "))))
    (fun _ => 1700000000000%Z) (js "notes")
  = Normal [ {| Gemini.id := js "flashcard-1700000000000-0";
                Gemini.question := js "Summary";
                Gemini.answer := js "No cards today." |} ]
  /\ Ollama.cards_of_text (js "No cards today.")
     = JArray [JObject [(js "question", JString (js "Summary"));
                        (js "answer", JString (js "No cards today."))]].
Proof.
  assert (Hno : ~ contains_json_array (js "No cards today."))
    by (apply has_json_array_false; vm_compute; reflexivity).
  destruct (no_array_gives_fallback (fun _ => 1700000000000%Z) _ Hno)
    as (_ & _ & Hlocal & Hcloud & _).
  split; [|exact Hlocal].
  rewrite (Hcloud (sdk_returning
                     (response_with_text (JString (js "  No cards today. "))))
             (js "notes") _ _ (js "  No cards today. ")
             eq_refl eq_refl eq_refl);
    [|vm_compute; reflexivity].
  vm_compute. reflexivity.
Defined.

(** ** Cards of a JSON array *)

Lemma card_field_string (card : JsVal) (key s : jsstring) :
  field_string card key s -> Gemini.card_field card key = Normal s.
Proof.
  unfold field_string, Gemini.card_field.
  destruct (opt_get card key) eqn:Hv; simpl is_nullish; cbv iota;
    try (intros ->; reflexivity);
    try (intros (str & -> & ->); reflexivity).
Qed.

Lemma map_cards_coerced (clock : nat -> Z) (elems : list JsVal)
  (pairs : list (jsstring * jsstring)) :
  Forall2 coerced elems pairs ->
  forall i, exists cards,
    Gemini.map_cards clock i elems = Normal cards
    /\ map qa cards = pairs.
Proof.
  induction 1 as [|card p elems pairs [Hq Ha] _ IH]; intros i.
  - exists []. split; reflexivity.
  - destruct (IH (S i)) as (cards & Hcards & Hqa).
    cbn [Gemini.map_cards].
    rewrite (card_field_string _ _ _ Hq), (card_field_string _ _ _ Ha).
    cbn [bind]. rewrite Hcards. cbn [bind].
    eexists. split; [reflexivity|].
    cbn [map]. rewrite Hqa. unfold qa at 1. cbn [Gemini.question Gemini.answer].
    now destruct p.
Qed.

Lemma extract_array_parsed (text : jsstring) (elems : list JsVal) :
  JSON.parse text = Some (JArray elems) ->
  Gemini.extract_array text = Some elems.
Proof.
  intros H. unfold Gemini.extract_array. now rewrite H.
Qed.

(** The cards the extractor makes once [arr] is the non-empty [elems]. *)
Lemma cards_of_extracted (clock : nat -> Z) (text : jsstring)
  (elems : list JsVal) (pairs : list (jsstring * jsstring)) :
  Gemini.extract_array text = Some elems ->
  elems <> [] ->
  Forall2 coerced elems pairs ->
  exists cards,
    Gemini.cards_of_text clock text = Normal cards
    /\ map qa cards = pairs
    /\ map Gemini.id cards
       = map (fun k => Gemini.flashcard_id (clock k) k)
           (seq 0 (List.length elems)).
Proof.
  intros Harr Hne Hco.
  destruct (map_cards_coerced clock _ _ Hco 0) as (cards & Hcards & Hqa).
  exists cards. unfold Gemini.cards_of_text. rewrite Harr, Hcards.
  cbn [bind].
  destruct cards as [|c cards'].
  - apply map_cards_length in Hcards. destruct elems; [now elim Hne|].
    discriminate Hcards.
  - split; [reflexivity|]. split; [exact Hqa|].
    now apply map_cards_ids.
Qed.

Lemma card_field_throws (card : JsVal) (key : jsstring) (e : JsVal) :
  ToString (opt_get card key) = Throw e ->
  Gemini.card_field card key = Throw e.
Proof.
  unfold Gemini.card_field. intros H.
  destruct (opt_get card key); try discriminate H;
    cbn [is_nullish]; now rewrite H.
Qed.

Lemma card_field_Normal (card : JsVal) (key s : jsstring) :
  Gemini.card_field card key = Normal s ->
  forall e, ToString (opt_get card key) <> Throw e.
Proof.
  intros H e He. rewrite (card_field_throws _ _ _ He) in H. discriminate H.
Qed.

(** When a coercion throws, so does the [map] over the elements. *)
Lemma map_cards_fails (clock : nat -> Z) (elems : list JsVal) :
  Exists coercion_fails elems ->
  forall i, exists e, Gemini.map_cards clock i elems = Throw e.
Proof.
  induction elems as [|card rest IH]; intros Hex i.
  - inversion Hex.
  - cbn [Gemini.map_cards].
    destruct (Gemini.card_field card (js "question")) as [q|e] eqn:Hq;
      [|eexists; reflexivity].
    destruct (Gemini.card_field card (js "answer")) as [a|e] eqn:Ha;
      [|eexists; reflexivity].
    cbn [bind].
    inversion Hex as [? ? (key & e & [-> | ->] & He)|? ? Hrest]; subst.
    + now elim (card_field_Normal _ _ _ Hq e).
    + now elim (card_field_Normal _ _ _ Ha e).
    + destruct (IH Hrest (S i)) as (e & ->). eexists. reflexivity.
Qed.

(** The extractor throws when a coercion does. *)
Lemma cards_of_failing (clock : nat -> Z) (text : jsstring)
  (elems : list JsVal) :
  Gemini.extract_array text = Some elems ->
  Exists coercion_fails elems ->
  exists e, Gemini.cards_of_text clock text = Throw e.
Proof.
  intros Harr Hex. unfold Gemini.cards_of_text. rewrite Harr.
  destruct (map_cards_fails clock _ Hex 0) as (e & ->).
  eexists. reflexivity.
Qed.

(** Every coercion succeeds, or one throws. *)
Lemma coerced_or_fails (elems : list JsVal) :
  (exists pairs, Forall2 coerced elems pairs) \/ Exists coercion_fails elems.
Proof.
  assert (Hfield : forall card key,
             (exists s, field_string card key s)
             \/ exists e, ToString (opt_get card key) = Throw e).
  { intros card key. unfold field_string.
    destruct (ToString (opt_get card key)) as [str|e] eqn:Hs;
      [left|right; now exists e].
    destruct (opt_get card key); eauto. }
  induction elems as [|card rest [(pairs & IH)|IH]].
  - left. exists []. constructor.
  - destruct (Hfield card (js "question")) as [(q & Hq)|(e & He)];
      [|right; left; exists (js "question"), e; auto].
    destruct (Hfield card (js "answer")) as [(a & Ha)|(e & He)];
      [|right; left; exists (js "answer"), e; auto].
    left. exists ((q, a) :: pairs). constructor; [now split | exact IH].
  - right. now right.
Qed.

(** C1, as the code has it, for the cloud variant: when the normalized
    text is a JSON array with at least one element, [generateFlashcards]
    returns one record per element, in the order of the array, whose
    question and answer are the fields coerced by [String] and trimmed: a
    string field trimmed, a missing or [null] field the empty string, any
    other value its string form.  The empty array gives the one fallback
    record instead. *)
Theorem cloud_cards_of_json_array (client : Gemini.Client)
  (clock : nat -> Z) (sourceContent : jsstring)
  (model : jsstring -> Completion JsVal) (res : JsVal) (raw : jsstring)
  (elems : list JsVal) :
  Gemini.getModel client (js "gemini-2.5-flash") = Normal model ->
  model (Gemini.generateFlashcards_prompt sourceContent) = Normal res ->
  Gemini.toText res = Normal (JString raw) ->
  JSON.parse (trim raw) = Some (JArray elems) ->
  (forall pairs,
     elems <> [] ->
     Forall2 coerced elems pairs ->
     exists cards,
       Gemini.generateFlashcards client clock sourceContent = Normal cards
       /\ map qa cards = pairs
       /\ map Gemini.id cards
          = map (fun k => Gemini.flashcard_id (clock k) k)
              (seq 0 (List.length elems)))
  /\ (elems = [] ->
      Gemini.generateFlashcards client clock sourceContent
      = Normal [Gemini.fallback_card clock (trim raw)]).
Proof.
  intros Hm Hr Ht Hparse.
  unfold Gemini.generateFlashcards.
  rewrite (generateFlashcards_try_text _ _ _ _ _ _ Hm Hr Ht).
  apply extract_array_parsed in Hparse. split.
  - intros pairs Hne Hco.
    destruct (cards_of_extracted clock _ _ _ Hparse Hne Hco)
      as (cards & -> & Hqa & Hids).
    exists cards. auto.
  - intros ->. unfold Gemini.cards_of_text. now rewrite Hparse.
Qed.

(** A model that answers with a JSON array of two cards. *)
Lemma cloud_cards_of_json_array_witness :
  exists cards,
    Gemini.generateFlashcards
      (sdk_returning
         (response_with_text
            (JString
               (jsq " [{'question':' What is X? ','answer':1},{'answer':null}] "))))
      (fun _ => 1700000000000%Z) (js "X is a constant equal to 1")
    = Normal cards
    /\ map qa cards = [(js "What is X?", js "1"); ([], [])]
    /\ map Gemini.id cards
       = [js "flashcard-1700000000000-0"; js "flashcard-1700000000000-1"].
Proof.
  destruct (cloud_cards_of_json_array
              (sdk_returning
                 (response_with_text
                    (JString
                       (jsq " [{'question':' What is X? ','answer':1},{'answer':null}] "))))
              (fun _ => 1700000000000%Z) (js "X is a constant equal to 1")
              _ _ _
              ([JObject [(js "question", JString (js " What is X? "));
                                  (js "answer", JNumber (Num.of_Z 1))];
                         JObject [(js "answer", JNull)]])
              eq_refl eq_refl eq_refl ltac:(vm_compute; reflexivity))
    as (Hcards & _).
  destruct (Hcards [(js "What is X?", js "1"); ([], [])]) as (cards & H & Hqa & Hid).
  - discriminate.
  - repeat constructor; try (vm_compute; reflexivity).
    exists (js "1"). split; vm_compute; reflexivity.
  - exists cards. split; [exact H|]. split; [exact Hqa|].
    rewrite Hid. vm_compute. reflexivity.
Defined.

(** What the local variant does with an array: it returns it as parsed. *)
Lemma local_cards_of_json_array (text : jsstring) (elems : list JsVal) :
  JSON.parse text = Some (JArray elems) ->
  Ollama.cards_of_text text = JArray elems.
Proof.
  intros H. unfold Ollama.cards_of_text. now rewrite H.
Qed.

(** C1 as stated fails on the array [[{"question":true,"answer":" a "}]]:
    the cloud variant makes the question ["true"], not the empty string,
    and the local variant returns the element as parsed, neither coerced
    nor trimmed.  It fails on the empty array too, for which the cloud
    variant returns the fallback record. *)
Lemma non_string_field_not_emptied :
  JSON.parse (jsq "[{'question':true,'answer':' a '}]")
  = Some (JArray [JObject [(js "question", JBool true);
                           (js "answer", JString (js " a "))]])
  /\ map spec_pair [JObject [(js "question", JBool true);
                             (js "answer", JString (js " a "))]]
     = [([], js "a")]
  /\ (exists cards,
        Gemini.generateFlashcards
          (sdk_returning
             (response_with_text
                (JString (jsq "[{'question':true,'answer':' a '}]"))))
          (fun _ => 0%Z) (js "notes")
        = Normal cards
        /\ map qa cards = [(js "true", js "a")]
        /\ map qa cards
           <> map spec_pair [JObject [(js "question", JBool true);
                                      (js "answer", JString (js " a "))]])
  /\ Ollama.outcome
       (Ollama.generateFlashcards
          (streaming_server
             [jsq "{'response':'[{\'question\':true,\'answer\':\' a \'}]'}"
                ++ [U.lf]])
          (js "notes"))
     = Normal (JArray [JObject [(js "question", JBool true);
                                (js "answer", JString (js " a "))]])
  /\ JArray [JObject [(js "question", JBool true);
                      (js "answer", JString (js " a "))]]
     <> JArray (map (fun card => pair_object (spec_pair card))
                  [JObject [(js "question", JBool true);
                            (js "answer", JString (js " a "))]])
  /\ JSON.parse (js "[]") = Some (JArray [])
  /\ Gemini.generateFlashcards
       (sdk_returning (response_with_text (JString (js "[]"))))
       (fun _ => 0%Z) (js "notes")
     = Normal [ {| Gemini.id := js "flashcard-0-0";
                   Gemini.question := js "Summary";
                   Gemini.answer := js "[]" |} ].
Proof.
  split; [vm_compute; reflexivity|].
  split; [vm_compute; reflexivity|].
  split.
  - eexists. split; [vm_compute; reflexivity|].
    split; [vm_compute; reflexivity|].
    vm_compute. intros H. discriminate H.
  - split; [vm_compute; reflexivity|].
    split; [vm_compute; intros H; discriminate H|].
    split; vm_compute; reflexivity.
Qed.

(** ** An array inside prose *)

Lemma upto_last_rbracket_none (s : jsstring) :
  ~ In U.rbracket s -> upto_last_rbracket s = None.
Proof.
  induction s as [|c r IH]; intros Hno; [reflexivity|].
  simpl. rewrite IH by (intros H; apply Hno; now right).
  destruct (unit_eqb c U.rbracket) eqn:Hc; [|reflexivity].
  apply N.eqb_eq in Hc. exfalso. apply Hno. now left.
Qed.

Lemma upto_last_rbracket_last (s post : jsstring) :
  ~ In U.rbracket post ->
  upto_last_rbracket (s ++ U.rbracket :: post) = Some (s ++ [U.rbracket]).
Proof.
  intros Hno. induction s as [|c r IH]; simpl.
  - now rewrite (upto_last_rbracket_none _ Hno).
  - now rewrite IH.
Qed.

(** The match runs from the first opening bracket of the text to its last
    closing bracket. *)
Lemma match_bracketed_first_last (pre mid post : jsstring) :
  ~ In U.lbracket pre ->
  ~ In U.rbracket post ->
  match_bracketed (pre ++ U.lbracket :: mid ++ U.rbracket :: post)
  = Some (U.lbracket :: mid ++ [U.rbracket]).
Proof.
  intros Hpre Hpost. induction pre as [|c r IH]; simpl.
  - now rewrite (upto_last_rbracket_last _ _ Hpost).
  - destruct (unit_eqb c U.lbracket) eqn:Hc.
    + apply N.eqb_eq in Hc. exfalso. apply Hpre. now left.
    + apply IH. intros H. apply Hpre. now right.
Qed.

(** C5, as the code has it, for the cloud variant: when the normalized
    text is not JSON as a whole, the extractor takes the substring from
    the first opening bracket to the last closing bracket; when that
    substring parses to an array with at least one element, [arr] is that
    array and the cards are made of its elements, whatever stands before
    and after it: one record per element, with the fields coerced by
    [String] and trimmed, when every coercion succeeds, and the empty
    array when one throws. *)
Theorem cloud_cards_of_embedded_array (client : Gemini.Client)
  (clock : nat -> Z) (sourceContent : jsstring)
  (model : jsstring -> Completion JsVal) (res : JsVal)
  (raw pre mid post : jsstring) (elems : list JsVal) :
  Gemini.getModel client (js "gemini-2.5-flash") = Normal model ->
  model (Gemini.generateFlashcards_prompt sourceContent) = Normal res ->
  Gemini.toText res = Normal (JString raw) ->
  trim raw = pre ++ U.lbracket :: mid ++ U.rbracket :: post ->
  ~ In U.lbracket pre ->
  ~ In U.rbracket post ->
  JSON.parse (trim raw) = None ->
  JSON.parse (U.lbracket :: mid ++ [U.rbracket]) = Some (JArray elems) ->
  elems <> [] ->
  match_bracketed (trim raw) = Some (U.lbracket :: mid ++ [U.rbracket])
  /\ Gemini.extract_array (trim raw) = Some elems
  /\ (forall pairs,
        Forall2 coerced elems pairs ->
        exists cards,
          Gemini.generateFlashcards client clock sourceContent = Normal cards
          /\ map qa cards = pairs
          /\ List.length cards = List.length elems)
  /\ (Exists coercion_fails elems ->
      Gemini.generateFlashcards client clock sourceContent = Normal []).
Proof.
  intros Hm Hr Ht Htext Hpre Hpost Hwhole Harr Hne.
  assert (Hmatch : match_bracketed (trim raw)
                   = Some (U.lbracket :: mid ++ [U.rbracket]))
    by (rewrite Htext; now apply match_bracketed_first_last).
  split; [exact Hmatch|].
  assert (Hex : Gemini.extract_array (trim raw) = Some elems).
  { unfold Gemini.extract_array. now rewrite Hwhole, Hmatch, Harr. }
  split; [exact Hex|].
  unfold Gemini.generateFlashcards.
  rewrite (generateFlashcards_try_text _ _ _ _ _ _ Hm Hr Ht). split.
  - intros pairs Hco.
    destruct (cards_of_extracted clock _ _ _ Hex Hne Hco)
      as (cards & Hcards & Hqa & Hids).
    exists cards. rewrite Hcards.
    split; [reflexivity|]. split; [exact Hqa|].
    apply (f_equal (@List.length jsstring)) in Hids.
    now rewrite !length_map, length_seq in Hids.
  - intros Hfail.
    destruct (cards_of_failing clock _ _ Hex Hfail) as (e & ->).
    reflexivity.
Qed.

(** A model that wraps its array in a sentence. *)
Lemma cloud_cards_of_embedded_array_witness :
  exists cards,
    Gemini.generateFlashcards
      (sdk_returning
         (response_with_text
            (JString
               (jsq "Here are your cards: [{'question':'q','answer':'a'}] Enjoy!"))))
      (fun _ => 1700000000000%Z) (js "notes")
    = Normal cards
    /\ map qa cards = [(js "q", js "a")].
Proof.
  destruct (cloud_cards_of_embedded_array
              (sdk_returning
                 (response_with_text
                    (JString
                       (jsq "Here are your cards: [{'question':'q','answer':'a'}] Enjoy!"))))
              (fun _ => 1700000000000%Z) (js "notes") _ _ _
              (js "Here are your cards: ")
              (jsq "{'question':'q','answer':'a'}")
              (js " Enjoy!")
              [JObject [(js "question", JString (js "q"));
                        (js "answer", JString (js "a"))]]
              eq_refl eq_refl eq_refl
              ltac:(vm_compute; reflexivity)
              ltac:(vm_compute; intuition discriminate)
              ltac:(vm_compute; intuition discriminate)
              ltac:(vm_compute; reflexivity)
              ltac:(vm_compute; reflexivity)
              ltac:(discriminate))
    as (_ & _ & Hcards & _).
  destruct (Hcards [(js "q", js "a")]
              ltac:(repeat constructor; vm_compute; reflexivity))
    as (cards & H & Hqa & _).
  exists cards. split; [exact H | exact Hqa].
Defined.

(** The same sentence around an element whose [question] cannot be
    converted: no card is made and the result is the empty array. *)
Example embedded_array_coercion_failure :
  Gemini.generateFlashcards
    (sdk_returning
       (response_with_text
          (JString
             (jsq "Here are your cards: [{'question':{'toString':1},'answer':'a'}] Enjoy!"))))
    (fun _ => 1700000000000%Z) (js "notes")
  = Normal [].
Proof. vm_compute. reflexivity. Qed.

(** The local variant parses the whole text and nothing else: a text
    that is not JSON gives the summary record, whatever it holds. *)
Lemma local_cards_of_non_json (text : jsstring) :
  JSON.parse text = None ->
  Ollama.cards_of_text text = JArray [Ollama.summary_card text].
Proof.
  intros H. unfold Ollama.cards_of_text. now rewrite H.
Qed.

(** C5 as stated fails in the local variant, which has no bracketed
    match: given an array inside a sentence it returns the summary record
    of the whole text, not the elements of the array.  In the cloud
    variant the match is not tried when the whole text is JSON: an object
    that holds the array gives the fallback record. *)
Lemma local_ignores_embedded_array :
  match_bracketed (jsq "Cards: [{'question':'q','answer':'a'}]")
  = Some (jsq "[{'question':'q','answer':'a'}]")
  /\ JSON.parse (jsq "[{'question':'q','answer':'a'}]")
     = Some (JArray [JObject [(js "question", JString (js "q"));
                              (js "answer", JString (js "a"))]])
  /\ Ollama.outcome
       (Ollama.generateFlashcards
          (streaming_server
             [jsq "{'response':'Cards: [{\'question\':\'q\',\'answer\':\'a\'}]'}"
                ++ [U.lf]])
          (js "notes"))
     = Normal
         (JArray
            [JObject
               [(js "question", JString (js "Summary"));
                (js "answer",
                 JString (jsq "Cards: [{'question':'q','answer':'a'}]"))]])
  /\ Ollama.outcome
       (Ollama.generateFlashcards
          (streaming_server
             [jsq "{'response':'Cards: [{\'question\':\'q\',\'answer\':\'a\'}]'}"
                ++ [U.lf]])
          (js "notes"))
     <> Normal (JArray [JObject [(js "question", JString (js "q"));
                                 (js "answer", JString (js "a"))]])
  /\ match_bracketed (jsq "{'cards':[{'question':'q','answer':'a'}]}")
     = Some (jsq "[{'question':'q','answer':'a'}]")
  /\ Gemini.generateFlashcards
       (sdk_returning
          (response_with_text
             (JString (jsq "{'cards':[{'question':'q','answer':'a'}]}"))))
       (fun _ => 0%Z) (js "notes")
     = Normal [ {| Gemini.id := js "flashcard-0-0";
                   Gemini.question := js "Summary";
                   Gemini.answer :=
                     jsq "{'cards':[{'question':'q','answer':'a'}]}" |} ].
Proof.
  split; [vm_compute; reflexivity|].
  split; [vm_compute; reflexivity|].
  split; [vm_compute; reflexivity|].
  split; [vm_compute; intros H; discriminate H|].
  split; vm_compute; reflexivity.
Qed.

(** ** The stream of the local backend *)

Lemma split_lf_aux_line (cur l rest : jsstring) :
  ~ In U.lf l ->
  split_lf_aux cur (l ++ U.lf :: rest)
  = (rev cur ++ l) :: split_lf_aux [] rest.
Proof.
  revert cur; induction l as [|c l IH]; intros cur Hno; simpl.
  - now rewrite app_nil_r.
  - destruct (unit_eqb c U.lf) eqn:Hc.
    + apply N.eqb_eq in Hc. exfalso. apply Hno. now left.
    + rewrite IH by (intros H; apply Hno; now right).
      simpl. now rewrite <- app_assoc.
Qed.

Lemma split_lf_render (lines : list jsstring) :
  Forall (fun l => ~ In U.lf l) lines ->
  split_lf (render lines) = lines ++ [[]].
Proof.
  unfold split_lf, render.
  induction 1 as [|l lines Hl _ IH]; [reflexivity|].
  simpl. rewrite <- app_assoc. simpl.
  rewrite (split_lf_aux_line [] l _ Hl). simpl. now rewrite IH.
Qed.

Lemma outcome_after_emit {A : Type} (ev : Ollama.Event) (m : Ollama.Eff A) :
  Ollama.outcome (Ollama.ebind (Ollama.emit ev) (fun _ => m))
  = Ollama.outcome m.
Proof.
  unfold Ollama.ebind, Ollama.emit, Ollama.outcome. now destruct m.
Qed.

(** A chunk made of whole lines is read back as its non-empty lines. *)
Lemma lines_of_whole_lines (lines : list jsstring) :
  Forall (fun l => ~ In U.lf l) lines ->
  Ollama.lines_of (render lines) = filter non_empty lines.
Proof.
  intros Hall. unfold Ollama.lines_of. rewrite (split_lf_render _ Hall).
  rewrite filter_app. simpl. now rewrite app_nil_r.
Qed.

(** Whatever the lines hold, when every chunk is made of whole lines the
    loop handles the non-empty lines one after the other, as if they had
    come in one chunk. *)
Lemma read_loop_whole_lines (groups : list (list jsstring)) :
  Forall (Forall (fun l => ~ In U.lf l)) groups ->
  forall result,
    Ollama.outcome
      (Ollama.read_loop (stream_of_chunks (map render groups)) result)
    = Normal
        (trim (fold_left Ollama.process_line
                 (filter non_empty (List.concat groups)) result)).
Proof.
  induction 1 as [|g groups Hg _ IH]; intros result;
    cbn [map stream_of_chunks fold_right Ollama.read_loop];
    rewrite outcome_after_emit.
  - reflexivity.
  - fold (stream_of_chunks (map render groups)).
    rewrite IH. unfold Ollama.process_chunk.
    rewrite (lines_of_whole_lines _ Hg).
    simpl List.concat. now rewrite filter_app, fold_left_app.
Qed.

Lemma ndjson_line_not_empty (l : jsstring) : ndjson_line l -> l <> [].
Proof.
  intros (_ & props & Hparse & _) ->. discriminate Hparse.
Qed.

(** A chunk made of complete lines is read back as these lines. *)
Lemma lines_of_render (lines : list jsstring) :
  Forall ndjson_line lines -> Ollama.lines_of (render lines) = lines.
Proof.
  intros Hall. unfold Ollama.lines_of.
  rewrite split_lf_render
    by (eapply Forall_impl; [|exact Hall]; now intros l (H & _)).
  rewrite filter_app. simpl. rewrite app_nil_r.
  induction Hall as [|l lines Hl _ IH]; [reflexivity|].
  simpl. destruct l; [exfalso; exact (ndjson_line_not_empty _ Hl eq_refl)|].
  now rewrite IH.
Qed.

(** A complete line adds its [response] text to the result. *)
Lemma process_line_ndjson (result l : jsstring) :
  ndjson_line l -> Ollama.process_line result l = result ++ line_response l.
Proof.
  intros (_ & props & Hparse & Hresp).
  unfold Ollama.process_line, JSON_parse_or_throw, line_response.
  rewrite Hparse. cbn [bind get_strict is_nullish get].
  destruct Hresp as [->|([|c s] & ->)]; cbn.
  - now rewrite app_nil_r.
  - now rewrite app_nil_r.
  - reflexivity.
Qed.

Lemma process_chunk_render (lines : list jsstring) :
  Forall ndjson_line lines ->
  forall result,
    Ollama.process_chunk result (render lines)
    = result ++ List.concat (map line_response lines).
Proof.
  intros Hall result. unfold Ollama.process_chunk.
  rewrite (lines_of_render _ Hall). revert result.
  induction Hall as [|l lines Hl _ IH]; intros result; simpl.
  - now rewrite app_nil_r.
  - rewrite IH, (process_line_ndjson _ _ Hl). now rewrite <- app_assoc.
Qed.

Lemma read_loop_rendered (groups : list (list jsstring)) :
  Forall (Forall ndjson_line) groups ->
  forall result,
    Ollama.outcome
      (Ollama.read_loop (stream_of_chunks (map render groups)) result)
    = Normal (trim (result ++ List.concat (map line_response (List.concat groups)))).
Proof.
  induction 1 as [|g groups Hg _ IH]; intros result;
    cbn [map stream_of_chunks fold_right Ollama.read_loop];
    rewrite outcome_after_emit.
  - simpl. now rewrite app_nil_r.
  - fold (stream_of_chunks (map render groups)).
    rewrite IH, (process_chunk_render _ Hg).
    simpl List.concat. now rewrite map_app, concat_app, app_assoc.
Qed.

Lemma queryOllama_ok (fetch : Ollama.Backend) (prompt : jsstring)
  (res : Ollama.Response) (stream : Ollama.Stream) :
  fetch (Ollama.request prompt) = Normal res ->
  Ollama.ok res = true ->
  Ollama.body res = Some stream ->
  Ollama.outcome (Ollama.queryOllama fetch prompt)
  = Ollama.outcome (Ollama.read_loop stream []).
Proof.
  intros Hfetch Hok Hbody. unfold Ollama.queryOllama.
  rewrite Hfetch. unfold Ollama.ebind at 1. rewrite Hok, Hbody.
  cbn [negb]. rewrite (surjective_pairing (Ollama.ebind _ _)).
  unfold Ollama.outcome at 1. cbn [snd].
  apply outcome_after_emit.
Qed.

(** C2, as the code has it: when every chunk of a successful response is
    made of complete lines (each a JSON object on a line of its own, ended
    by a line feed), [queryOllama] returns the [response] texts of the
    lines, concatenated in the order of arrival and trimmed.  The result
    depends on the lines only, so two such streams with the same lines,
    cut into chunks differently, give the same result. *)
Theorem queryOllama_whole_lines (fetch : Ollama.Backend)
  (prompt : jsstring) (res : Ollama.Response)
  (groups : list (list jsstring)) :
  fetch (Ollama.request prompt) = Normal res ->
  Ollama.ok res = true ->
  Ollama.body res = Some (stream_of_chunks (map render groups)) ->
  Forall (Forall ndjson_line) groups ->
  Ollama.outcome (Ollama.queryOllama fetch prompt)
  = Normal (trim (List.concat (map line_response (List.concat groups))))
  /\ forall groups',
       Forall (Forall ndjson_line) groups' ->
       List.concat groups' = List.concat groups ->
       Ollama.outcome
         (Ollama.queryOllama (streaming_server (map render groups')) prompt)
       = Ollama.outcome (Ollama.queryOllama fetch prompt).
Proof.
  intros Hfetch Hok Hbody Hall.
  assert (Hmain : Ollama.outcome (Ollama.queryOllama fetch prompt)
                  = Normal (trim (List.concat (map line_response (List.concat groups))))).
  { rewrite (queryOllama_ok _ _ _ _ Hfetch Hok Hbody).
    now rewrite (read_loop_rendered _ Hall). }
  split; [exact Hmain|].
  intros groups' Hall' Hsame.
  rewrite Hmain, <- Hsame.
  rewrite (queryOllama_ok (streaming_server (map render groups')) prompt
             _ _ eq_refl eq_refl eq_refl).
  now rewrite (read_loop_rendered _ Hall').
Qed.

Ltac ndjson_line_tac :=
  split;
  [ vm_compute; intuition discriminate
  | eexists; split;
    [ vm_compute; reflexivity
    | first [ right; eexists; vm_compute; reflexivity
            | left; vm_compute; reflexivity ] ] ].

Ltac ndjson_groups_tac :=
  repeat (first [apply Forall_nil | apply Forall_cons]); ndjson_line_tac.

(** Three lines, delivered as one line and then two, or as two lines and
    then one. *)
Lemma queryOllama_whole_lines_witness :
  Ollama.outcome
    (Ollama.queryOllama
       (streaming_server
          (map render
             [[jsq "{'response':'Hello'}"];
              [jsq "{'response':', wor'}";
               jsq "{'response':'ld ','done':true}"]]))
       (js "p"))
  = Normal (js "Hello, world")
  /\ Ollama.outcome
       (Ollama.queryOllama
          (streaming_server
             (map render
                [[jsq "{'response':'Hello'}"; jsq "{'response':', wor'}"];
                 [jsq "{'response':'ld ','done':true}"]]))
          (js "p"))
     = Normal (js "Hello, world").
Proof.
  destruct (queryOllama_whole_lines
              (streaming_server
                 (map render
                    [[jsq "{'response':'Hello'}"];
                     [jsq "{'response':', wor'}";
                      jsq "{'response':'ld ','done':true}"]]))
              (js "p") _
              [[jsq "{'response':'Hello'}"];
               [jsq "{'response':', wor'}";
                jsq "{'response':'ld ','done':true}"]]
              eq_refl eq_refl eq_refl
              ltac:(ndjson_groups_tac))
    as (Hmain & Hsame).
  split.
  - rewrite Hmain. vm_compute. reflexivity.
  - rewrite (Hsame [[jsq "{'response':'Hello'}"; jsq "{'response':', wor'}"];
                    [jsq "{'response':'ld ','done':true}"]]
               ltac:(ndjson_groups_tac) eq_refl).
    rewrite Hmain. vm_compute. reflexivity.
Defined.

(** C2 as stated fails: the same two lines give another result when the
    second is cut in two by a chunk boundary, since neither piece parses
    and both are dropped. *)
Lemma split_line_is_dropped :
  List.concat
    [jsq "{'response':'Hello'}" ++ [U.lf] ++ jsq "{'respon";
     jsq "se':', world'}" ++ [U.lf]]
  = List.concat
      [jsq "{'response':'Hello'}" ++ [U.lf]
         ++ jsq "{'response':', world'}" ++ [U.lf]]
  /\ Ollama.outcome
       (Ollama.queryOllama
          (streaming_server
             [jsq "{'response':'Hello'}" ++ [U.lf]
                ++ jsq "{'response':', world'}" ++ [U.lf]])
          (js "p"))
     = Normal (js "Hello, world")
  /\ Ollama.outcome
       (Ollama.queryOllama
          (streaming_server
             [jsq "{'response':'Hello'}" ++ [U.lf] ++ jsq "{'respon";
              jsq "se':', world'}" ++ [U.lf]])
          (js "p"))
     = Normal (js "Hello")
  /\ js "Hello" <> js "Hello, world".
Proof.
  split; [vm_compute; reflexivity|].
  split; [vm_compute; reflexivity|].
  split; [vm_compute; reflexivity|].
  vm_compute. intros H. discriminate H.
Qed.

(** * Further properties of the services *)

(** ** [trim] *)

Lemma trimStart_clean (s : jsstring) :
  forall c r, trimStart s = c :: r -> is_trim_space c = false.
Proof.
  induction s as [|x s IH]; intros c r H; [discriminate|].
  simpl in H. destruct (is_trim_space x) eqn:Hx; [eauto|].
  injection H as <- _. exact Hx.
Qed.

Lemma trimStart_fixed (s : jsstring) :
  (forall c r, s = c :: r -> is_trim_space c = false) -> trimStart s = s.
Proof.
  destruct s as [|c r]; [reflexivity|]. intros H. simpl.
  now rewrite (H c r eq_refl).
Qed.

Lemma trimStart_keeps_last (l : jsstring) (c : code_unit) :
  is_trim_space c = false -> exists l', trimStart (l ++ [c]) = l' ++ [c].
Proof.
  intros Hc. induction l as [|x l IH]; simpl.
  - rewrite Hc. now exists [].
  - destruct (is_trim_space x); [exact IH|]. now exists (x :: l).
Qed.

Lemma trimEnd_clean (s : jsstring) :
  forall c r, trimEnd s = r ++ [c] -> is_trim_space c = false.
Proof.
  unfold trimEnd. intros c r H.
  apply (f_equal (@rev code_unit)) in H.
  rewrite rev_involutive, rev_app_distr in H. simpl in H.
  now apply trimStart_clean in H.
Qed.

Lemma trimEnd_keeps_first (s : jsstring) :
  (forall c r, s = c :: r -> is_trim_space c = false) ->
  forall c r, trimEnd s = c :: r -> is_trim_space c = false.
Proof.
  intros Hs c r H. destruct s as [|x s']; [discriminate|].
  pose proof (Hs x s' eq_refl) as Hx.
  unfold trimEnd in H. simpl in H.
  destruct (trimStart_keeps_last (rev s') x Hx) as (l' & Hl').
  rewrite Hl', rev_app_distr in H. simpl in H.
  injection H as <- _. exact Hx.
Qed.

Lemma trim_no_outer_space (s : jsstring) : no_outer_space (trim s).
Proof.
  split.
  - apply trimEnd_keeps_first, trimStart_clean.
  - apply trimEnd_clean.
Qed.

Lemma no_outer_space_trim (s : jsstring) : no_outer_space s -> trim s = s.
Proof.
  intros (Hfirst & Hlast). unfold trim.
  rewrite (trimStart_fixed s Hfirst). unfold trimEnd.
  rewrite trimStart_fixed; [apply rev_involutive|].
  intros c r H. apply (f_equal (@rev code_unit)) in H.
  rewrite rev_involutive in H. simpl in H. eauto.
Qed.

Lemma trim_fixed_no_outer_space (s : jsstring) :
  trim s = s <-> no_outer_space s.
Proof.
  split; [|apply no_outer_space_trim].
  intros H. rewrite <- H. apply trim_no_outer_space.
Qed.

Lemma trim_idempotent (s : jsstring) : trim (trim s) = trim s.
Proof. apply no_outer_space_trim, trim_no_outer_space. Qed.

(** ** The local transport, for every stream *)

Lemma events_after_emit {A : Type} (ev : Ollama.Event) (m : Ollama.Eff A) :
  Ollama.events (Ollama.ebind (Ollama.emit ev) (fun _ => m))
  = ev :: Ollama.events m.
Proof.
  unfold Ollama.ebind, Ollama.emit, Ollama.events. now destruct m.
Qed.

(** What a line adds does not depend on what was read before it. *)
Lemma process_line_append (result line : jsstring) :
  Ollama.process_line result line = result ++ fragment line.
Proof.
  unfold fragment, Ollama.process_line.
  destruct (JSON_parse_or_throw line) as [json|e]; cbn [bind];
    [|now rewrite app_nil_r].
  destruct (get_strict json (js "response")) as [response|e]; cbn [bind];
    [|now rewrite app_nil_r].
  destruct (ToBoolean response); [|now rewrite app_nil_r].
  unfold string_plus.
  destruct (toString_hint false response) as [t|e]; cbn [bind];
    [reflexivity | now rewrite app_nil_r].
Qed.

(** A line that is not JSON adds nothing. *)
Lemma fragment_not_json (line : jsstring) :
  JSON.parse line = None -> fragment line = [].
Proof.
  intros H. unfold fragment, Ollama.process_line, JSON_parse_or_throw.
  now rewrite H.
Qed.

Lemma process_lines_fragments (lines : list jsstring) :
  forall result,
    fold_left Ollama.process_line lines result
    = result ++ List.concat (map fragment lines).
Proof.
  induction lines as [|l lines IH]; intros result; simpl.
  - now rewrite app_nil_r.
  - now rewrite IH, process_line_append, <- app_assoc.
Qed.

Lemma read_loop_chunks (chunks : list jsstring) :
  forall result,
    Ollama.outcome (Ollama.read_loop (stream_of_chunks chunks) result)
    = Normal
        (trim (result
               ++ List.concat (map fragment (flat_map Ollama.lines_of chunks)))).
Proof.
  induction chunks as [|chunk chunks IH]; intros result;
    cbn [stream_of_chunks fold_right Ollama.read_loop];
    rewrite outcome_after_emit.
  - simpl. now rewrite app_nil_r.
  - fold (stream_of_chunks chunks). rewrite IH.
    unfold Ollama.process_chunk. rewrite process_lines_fragments.
    cbn [flat_map]. now rewrite map_app, concat_app, app_assoc.
Qed.

Lemma read_loop_events (stream : Ollama.Stream) :
  forall result,
    Ollama.events (Ollama.read_loop stream result)
    = repeat Ollama.Read (reads stream).
Proof.
  induction stream as [|chunk rest IH|err]; intros result;
    cbn [Ollama.read_loop reads]; rewrite events_after_emit.
  - reflexivity.
  - now rewrite IH.
  - reflexivity.
Qed.

Lemma read_loop_broken (chunks : list jsstring) (err : JsVal) :
  forall result,
    Ollama.outcome (Ollama.read_loop (broken_stream chunks err) result)
    = Throw err.
Proof.
  induction chunks as [|chunk chunks IH]; intros result;
    cbn [broken_stream fold_right Ollama.read_loop];
    rewrite outcome_after_emit.
  - reflexivity.
  - apply IH.
Qed.

Lemma reads_stream_of_chunks (chunks : list jsstring) :
  reads (stream_of_chunks chunks) = S (List.length chunks).
Proof.
  induction chunks as [|c chunks IH]; simpl; [reflexivity | now rewrite IH].
Qed.

Lemma reads_broken_stream (chunks : list jsstring) (err : JsVal) :
  reads (broken_stream chunks err) = S (List.length chunks).
Proof.
  induction chunks as [|c chunks IH]; simpl; [reflexivity | now rewrite IH].
Qed.

Lemma queryOllama_ok_events (fetch : Ollama.Backend) (prompt : jsstring)
  (res : Ollama.Response) (stream : Ollama.Stream) :
  fetch (Ollama.request prompt) = Normal res ->
  Ollama.ok res = true ->
  Ollama.body res = Some stream ->
  Ollama.events (Ollama.queryOllama fetch prompt)
  = Ollama.Fetch (Ollama.request prompt) :: Ollama.GetReader
      :: repeat Ollama.Read (reads stream).
Proof.
  intros Hfetch Hok Hbody. unfold Ollama.queryOllama.
  rewrite Hfetch. unfold Ollama.ebind at 1. rewrite Hok, Hbody.
  cbn [negb]. rewrite (surjective_pairing (Ollama.ebind _ _)).
  unfold Ollama.events at 1. cbn [fst app]. f_equal.
  change (fst ?m) with (Ollama.events m).
  now rewrite events_after_emit, read_loop_events.
Qed.

(** X1: for every successful response and every way its body comes in
    chunks, [queryOllama] returns the trimmed concatenation of what each
    non-empty line of each chunk adds, taken line by line in order: a line
    adds the same text whatever came before it, and a line that is not
    JSON adds nothing. *)
Theorem queryOllama_fragments (fetch : Ollama.Backend) (prompt : jsstring)
  (res : Ollama.Response) (chunks : list jsstring) :
  fetch (Ollama.request prompt) = Normal res ->
  Ollama.ok res = true ->
  Ollama.body res = Some (stream_of_chunks chunks) ->
  Ollama.outcome (Ollama.queryOllama fetch prompt)
  = Normal
      (trim (List.concat (map fragment (flat_map Ollama.lines_of chunks))))
  /\ (forall result line,
        Ollama.process_line result line = result ++ fragment line)
  /\ (forall line, JSON.parse line = None -> fragment line = []).
Proof.
  intros Hfetch Hok Hbody. split; [|split].
  - rewrite (queryOllama_ok _ _ _ _ Hfetch Hok Hbody).
    now rewrite read_loop_chunks.
  - apply process_line_append.
  - apply fragment_not_json.
Qed.

(** A line cut by a chunk boundary: its two pieces add nothing. *)
Lemma queryOllama_fragments_witness :
  Ollama.outcome
    (Ollama.queryOllama
       (streaming_server
          [jsq "{'response':'Hello'}" ++ [U.lf] ++ jsq "{'respon";
           jsq "se':', world'}" ++ [U.lf] ++ jsq "{'response':'!'}"])
       (js "p"))
  = Normal (js "Hello!").
Proof.
  destruct (queryOllama_fragments
              (streaming_server
                 [jsq "{'response':'Hello'}" ++ [U.lf] ++ jsq "{'respon";
                  jsq "se':', world'}" ++ [U.lf] ++ jsq "{'response':'!'}"])
              (js "p") _
              [jsq "{'response':'Hello'}" ++ [U.lf] ++ jsq "{'respon";
               jsq "se':', world'}" ++ [U.lf] ++ jsq "{'response':'!'}"]
              eq_refl eq_refl eq_refl)
    as (H & _).
  rewrite H. vm_compute. reflexivity.
Defined.

(** X2: on a successful response with a body, [queryOllama] makes the
    request, takes the reader and reads once per chunk and once more for
    the end of the stream; it never calls [res.text()]. *)
Theorem queryOllama_success_trace (fetch : Ollama.Backend)
  (prompt : jsstring) (res : Ollama.Response) (chunks : list jsstring) :
  fetch (Ollama.request prompt) = Normal res ->
  Ollama.ok res = true ->
  Ollama.body res = Some (stream_of_chunks chunks) ->
  Ollama.events (Ollama.queryOllama fetch prompt)
  = Ollama.Fetch (Ollama.request prompt) :: Ollama.GetReader
      :: repeat Ollama.Read (S (List.length chunks))
  /\ ~ In Ollama.ResText (Ollama.events (Ollama.queryOllama fetch prompt)).
Proof.
  intros Hfetch Hok Hbody.
  rewrite (queryOllama_ok_events _ _ _ _ Hfetch Hok Hbody),
    reads_stream_of_chunks.
  split; [reflexivity|].
  intros [H|[H|H]]; try discriminate H.
  apply repeat_spec in H. discriminate H.
Qed.

Lemma queryOllama_success_trace_witness :
  Ollama.events
    (Ollama.queryOllama (streaming_server [js "a"; js "b"]) (js "p"))
  = [Ollama.Fetch (Ollama.request (js "p")); Ollama.GetReader;
     Ollama.Read; Ollama.Read; Ollama.Read].
Proof.
  exact (proj1 (queryOllama_success_trace
                  (streaming_server [js "a"; js "b"]) (js "p") _
                  [js "a"; js "b"] eq_refl eq_refl eq_refl)).
Defined.

(** X3: a failure of the transport is thrown by [queryOllama] as it is.
    When [fetch] throws, nothing else is done; when a read fails after
    some chunks, the error of the read is thrown after one read per chunk
    and the failing one, and what was read is lost. *)
Theorem queryOllama_transport_failures (fetch : Ollama.Backend)
  (prompt : jsstring) :
  (forall e,
     fetch (Ollama.request prompt) = Throw e ->
     Ollama.queryOllama fetch prompt
     = ([Ollama.Fetch (Ollama.request prompt)], Throw e))
  /\ (forall res chunks err,
        fetch (Ollama.request prompt) = Normal res ->
        Ollama.ok res = true ->
        Ollama.body res = Some (broken_stream chunks err) ->
        Ollama.queryOllama fetch prompt
        = (Ollama.Fetch (Ollama.request prompt) :: Ollama.GetReader
             :: repeat Ollama.Read (S (List.length chunks)),
           Throw err)).
Proof.
  split.
  - intros e H. unfold Ollama.queryOllama. now rewrite H.
  - intros res chunks err Hfetch Hok Hbody.
    rewrite (surjective_pairing (Ollama.queryOllama fetch prompt)).
    change (fst ?m) with (Ollama.events m).
    change (snd ?m) with (Ollama.outcome m).
    rewrite (queryOllama_ok_events _ _ _ _ Hfetch Hok Hbody),
      (queryOllama_ok _ _ _ _ Hfetch Hok Hbody),
      reads_broken_stream, read_loop_broken.
    reflexivity.
Qed.

Lemma queryOllama_transport_failures_witness :
  Ollama.queryOllama (fun _ => Throw (Error (js "Failed to fetch"))) (js "p")
  = ([Ollama.Fetch (Ollama.request (js "p"))],
     Throw (Error (js "Failed to fetch")))
  /\ Ollama.outcome
       (Ollama.queryOllama
          (server 200 []
             (Some (broken_stream [jsq "{'response':'Hello'}" ++ [U.lf]]
                      (Error (js "network error")))))
          (js "p"))
     = Throw (Error (js "network error")).
Proof.
  split.
  - exact (proj1 (queryOllama_transport_failures
                    (fun _ => Throw (Error (js "Failed to fetch"))) (js "p"))
             _ eq_refl).
  - rewrite (proj2 (queryOllama_transport_failures
                      (server 200 []
                         (Some (broken_stream
                                  [jsq "{'response':'Hello'}" ++ [U.lf]]
                                  (Error (js "network error")))))
                      (js "p"))
               _ [jsq "{'response':'Hello'}" ++ [U.lf]]
               (Error (js "network error")) eq_refl eq_refl eq_refl).
    reflexivity.
Defined.

Lemma read_loop_trimmed (stream : Ollama.Stream) :
  forall result t,
    Ollama.outcome (Ollama.read_loop stream result) = Normal t ->
    exists r, t = trim r.
Proof.
  induction stream as [|chunk rest IH|err]; intros result t;
    cbn [Ollama.read_loop]; rewrite outcome_after_emit.
  - intros H. injection H as <-. now exists result.
  - apply IH.
  - discriminate.
Qed.

(** X4: whatever the backend does, a text that [queryOllama] returns
    neither starts nor ends with white space, and trimming it again
    changes nothing. *)
Theorem queryOllama_result_trimmed (fetch : Ollama.Backend)
  (prompt t : jsstring) :
  Ollama.outcome (Ollama.queryOllama fetch prompt) = Normal t ->
  no_outer_space t /\ trim t = t.
Proof.
  intros H.
  assert (Ht : exists r, t = trim r).
  { unfold Ollama.queryOllama in H.
    destruct (fetch (Ollama.request prompt)) as [res|e]; [|discriminate H].
    unfold Ollama.ebind at 1 in H.
    destruct (negb (Ollama.ok res));
      [destruct (Ollama.text res); discriminate H|].
    destruct (Ollama.body res) as [stream|].
    - rewrite (surjective_pairing (Ollama.ebind _ _)) in H.
      unfold Ollama.outcome at 1 in H. cbn [snd] in H.
      change (snd ?m) with (Ollama.outcome m) in H.
      rewrite outcome_after_emit in H.
      now apply read_loop_trimmed in H.
    - injection H as <-. exists (js "(no response body)").
      vm_compute. reflexivity. }
  destruct Ht as (r & ->). split.
  - apply trim_no_outer_space.
  - apply trim_idempotent.
Qed.

Lemma queryOllama_result_trimmed_witness :
  Ollama.outcome
    (Ollama.queryOllama
       (streaming_server [jsq "{'response':'  spaced out \n'}" ++ [U.lf]])
       (js "p"))
  = Normal (js "spaced out")
  /\ no_outer_space (js "spaced out").
Proof.
  assert (H : Ollama.outcome
                (Ollama.queryOllama
                   (streaming_server
                      [jsq "{'response':'  spaced out \n'}" ++ [U.lf]])
                   (js "p"))
              = Normal (js "spaced out")) by (vm_compute; reflexivity).
  split; [exact H|].
  exact (proj1 (queryOllama_result_trimmed _ _ _ H)).
Defined.

(** X5: a successful response without a body makes [queryOllama] return
    the text ["(no response body)"] after the request alone; the local
    [generateFlashcards] then returns that text as its one summary
    record. *)
Theorem local_no_body (fetch : Ollama.Backend) (sourceContent : jsstring)
  (res : Ollama.Response) :
  fetch (Ollama.request (Ollama.generateFlashcards_prompt sourceContent))
  = Normal res ->
  Ollama.ok res = true ->
  Ollama.body res = None ->
  Ollama.queryOllama fetch (Ollama.generateFlashcards_prompt sourceContent)
  = ([Ollama.Fetch
        (Ollama.request (Ollama.generateFlashcards_prompt sourceContent))],
     Normal (js "(no response body)"))
  /\ Ollama.outcome (Ollama.generateFlashcards fetch sourceContent)
     = Normal
         (JArray [JObject [(js "question", JString (js "Summary"));
                           (js "answer",
                            JString (js "(no response body)"))]]).
Proof.
  intros Hfetch Hok Hbody.
  assert (Hq : Ollama.queryOllama fetch
                 (Ollama.generateFlashcards_prompt sourceContent)
               = ([Ollama.Fetch
                     (Ollama.request
                        (Ollama.generateFlashcards_prompt sourceContent))],
                  Normal (js "(no response body)"))).
  { unfold Ollama.queryOllama. rewrite Hfetch.
    unfold Ollama.ebind at 1. now rewrite Hok, Hbody. }
  split; [exact Hq|].
  unfold Ollama.generateFlashcards. rewrite Hq.
  vm_compute. reflexivity.
Qed.

Lemma local_no_body_witness :
  Ollama.outcome
    (Ollama.generateFlashcards (server 204 [] None) (js "notes"))
  = Normal
      (JArray [JObject [(js "question", JString (js "Summary"));
                        (js "answer", JString (js "(no response body)"))]]).
Proof.
  exact (proj2 (local_no_body (server 204 [] None) (js "notes") _
                  eq_refl eq_refl eq_refl)).
Defined.

(** X6: the local [generateFlashcards] has no handler around the
    transport: what [queryOllama] throws, it throws.  When [queryOllama]
    returns a text it returns an array, and that array is empty exactly
    when the text is the JSON text of the empty array; it does nothing to
    the outside beyond what [queryOllama] does. *)
Theorem local_generateFlashcards_result (fetch : Ollama.Backend)
  (sourceContent : jsstring) :
  (forall e,
     Ollama.outcome
       (Ollama.queryOllama fetch
          (Ollama.generateFlashcards_prompt sourceContent)) = Throw e ->
     Ollama.outcome (Ollama.generateFlashcards fetch sourceContent)
     = Throw e)
  /\ (forall t,
        Ollama.outcome
          (Ollama.queryOllama fetch
             (Ollama.generateFlashcards_prompt sourceContent)) = Normal t ->
        exists elems,
          Ollama.outcome (Ollama.generateFlashcards fetch sourceContent)
          = Normal (JArray elems)
          /\ (elems = [] <-> JSON.parse t = Some (JArray [])))
  /\ Ollama.events (Ollama.generateFlashcards fetch sourceContent)
     = Ollama.events
         (Ollama.queryOllama fetch
            (Ollama.generateFlashcards_prompt sourceContent)).
Proof.
  unfold Ollama.generateFlashcards, Ollama.ebind, Ollama.outcome,
    Ollama.events.
  destruct (Ollama.queryOllama fetch _) as [log [t|e]]; cbn [fst snd].
  - split; [discriminate|]. split; [|apply app_nil_r].
    intros t' H. injection H as <-.
    unfold Ollama.ret, Ollama.cards_of_text.
    destruct (JSON.parse t) as [[| | | | |elems| | |]|];
      eexists; (split; [reflexivity|]); split; intros H;
      try discriminate H; congruence.
  - split; [intros e' H; congruence|]. split; [discriminate|reflexivity].
Qed.

Lemma local_generateFlashcards_result_witness :
  Ollama.outcome
    (Ollama.generateFlashcards (server 500 (js "boom") None) (js "notes"))
  = Throw (Error (js "Ollama error 500: boom"))
  /\ Ollama.outcome
       (Ollama.generateFlashcards
          (streaming_server [jsq "{'response':'[]'}" ++ [U.lf]]) (js "notes"))
     = Normal (JArray []).
Proof.
  split.
  - exact (proj1 (local_generateFlashcards_result
                    (server 500 (js "boom") None) (js "notes"))
             (Error (js "Ollama error 500: boom")) eq_refl).
  - destruct (proj1 (proj2 (local_generateFlashcards_result
                    (streaming_server [jsq "{'response':'[]'}" ++ [U.lf]])
                    (js "notes")))
                (js "[]") ltac:(vm_compute; reflexivity))
      as (elems & H & Hempty).
    rewrite H. f_equal. f_equal. apply Hempty. vm_compute. reflexivity.
Defined.

(** X7: the local [askQuestion] returns the text of [queryOllama] as it
    is and logs nothing when the transport succeeds; when it fails the
    error is logged once with [console.error] and the apology returned.
    There is no placeholder: a stream without any chunk gives the empty
    string as the answer. *)
Theorem local_askQuestion_result (fetch : Ollama.Backend)
  (question sourceContent : jsstring) (useThinkingMode : bool) :
  let query :=
    Ollama.queryOllama fetch
      (Ollama.askQuestion_prompt question sourceContent useThinkingMode) in
  (forall t,
     Ollama.outcome query = Normal t ->
     Ollama.askQuestion fetch question sourceContent useThinkingMode
     = (Ollama.events query, Normal t))
  /\ (forall e,
        Ollama.outcome query = Throw e ->
        Ollama.askQuestion fetch question sourceContent useThinkingMode
        = (Ollama.events query ++ [Ollama.ConsoleError e],
           Normal Ollama.askQuestion_apology))
  /\ (forall res,
        fetch (Ollama.request
                 (Ollama.askQuestion_prompt question sourceContent
                    useThinkingMode)) = Normal res ->
        Ollama.ok res = true ->
        Ollama.body res = Some Ollama.Done ->
        Ollama.outcome
          (Ollama.askQuestion fetch question sourceContent useThinkingMode)
        = Normal []).
Proof.
  intros query.
  assert (Hok : forall t,
             Ollama.outcome query = Normal t ->
             Ollama.askQuestion fetch question sourceContent useThinkingMode
             = (Ollama.events query, Normal t)).
  { intros t. unfold Ollama.askQuestion, Ollama.etry. fold query.
    unfold Ollama.outcome, Ollama.events.
    destruct query as [log [a|e]]; cbn [fst snd]; intros H;
      [now injection H as <- | discriminate H]. }
  split; [exact Hok|]. split.
  - intros e. unfold Ollama.askQuestion, Ollama.etry. fold query.
    unfold Ollama.outcome, Ollama.events.
    destruct query as [log [a|e']]; cbn [fst snd]; intros H;
      [discriminate H|]. now injection H as <-.
  - intros res Hfetch Hres Hbody.
    rewrite (Hok []); [reflexivity|].
    unfold query. rewrite (queryOllama_ok _ _ _ _ Hfetch Hres Hbody).
    reflexivity.
Qed.

Lemma local_askQuestion_result_witness :
  Ollama.askQuestion (server 200 [] (Some Ollama.Done)) (js "What is X?")
    (js "X is a constant equal to 1") false
  = ([Ollama.Fetch
        (Ollama.request
           (Ollama.askQuestion_prompt (js "What is X?")
              (js "X is a constant equal to 1") false));
      Ollama.GetReader; Ollama.Read],
     Normal [])
  /\ Ollama.events
       (Ollama.askQuestion (server 500 (js "boom") None) (js "What is X?")
          (js "X is a constant equal to 1") false)
     = [Ollama.Fetch
          (Ollama.request
             (Ollama.askQuestion_prompt (js "What is X?")
                (js "X is a constant equal to 1") false));
        Ollama.ResText;
        Ollama.ConsoleError (Error (js "Ollama error 500: boom"))].
Proof.
  split.
  - exact (proj1 (local_askQuestion_result
                    (server 200 [] (Some Ollama.Done)) (js "What is X?")
                    (js "X is a constant equal to 1") false)
             [] eq_refl).
  - rewrite (proj1 (proj2 (local_askQuestion_result
                    (server 500 (js "boom") None) (js "What is X?")
                    (js "X is a constant equal to 1") false))
               (Error (js "Ollama error 500: boom")) eq_refl).
    reflexivity.
Defined.

(** ** The cloud operations *)

(** X8: the cloud [generateReport] and [generateFlashcards] never throw.
    When the [try] block of [generateReport] throws, the report is the
    fixed apology of reports; when that of [generateFlashcards] throws,
    the result is the empty array, and so it is when the normalized text
    is not a string and has no [trim] method. *)
Theorem cloud_report_and_flashcards_catch (client : Gemini.Client)
  (clock : nat -> Z) (sourceContent : jsstring) :
  (exists v, Gemini.generateReport client sourceContent = Normal v)
  /\ (forall e,
        Gemini.generateReport_try client sourceContent = Throw e ->
        Gemini.generateReport client sourceContent
        = Normal
            (JString
               (js "Sorry, I encountered an error while generating the report.")))
  /\ (exists cards,
        Gemini.generateFlashcards client clock sourceContent = Normal cards)
  /\ (forall e,
        Gemini.generateFlashcards_try client clock sourceContent = Throw e ->
        Gemini.generateFlashcards client clock sourceContent = Normal [])
  /\ (forall model res t,
        Gemini.getModel client (js "gemini-2.5-flash") = Normal model ->
        model (Gemini.generateFlashcards_prompt sourceContent) = Normal res ->
        Gemini.toText res = Normal t ->
        is_string t = false ->
        is_function (get t (js "trim")) = false ->
        Gemini.generateFlashcards client clock sourceContent = Normal []).
Proof.
  split; [apply try_catch_Normal|].
  split; [intros e H; unfold Gemini.generateReport; now rewrite H|].
  split; [apply try_catch_Normal|].
  split; [intros e H; unfold Gemini.generateFlashcards; now rewrite H|].
  intros model res t Hm Hr Ht Hs _.
  unfold Gemini.generateFlashcards, Gemini.generateFlashcards_try.
  rewrite Hm. cbn [bind]. rewrite Hr. cbn [bind]. rewrite Ht. cbn [bind].
  destruct t; try discriminate Hs; reflexivity.
Qed.

(** A client of neither shape, and an accessor that returns a number. *)
Lemma cloud_report_and_flashcards_catch_witness :
  Gemini.generateReport Gemini.UnknownSdk (js "notes")
  = Normal
      (JString (js "Sorry, I encountered an error while generating the report."))
  /\ Gemini.generateFlashcards Gemini.UnknownSdk (fun _ => 0%Z) (js "notes")
     = Normal []
  /\ Gemini.generateFlashcards
       (sdk_returning
          (response_with_text (accessor (Normal (JNumber (Num.of_Z 42))))))
       (fun _ => 0%Z) (js "notes")
     = Normal [].
Proof.
  split; [|split].
  - exact (proj1 (proj2 (cloud_report_and_flashcards_catch
                           Gemini.UnknownSdk (fun _ => 0%Z) (js "notes")))
             Gemini.unexpected_shape eq_refl).
  - exact (proj1 (proj2 (proj2 (proj2 (cloud_report_and_flashcards_catch
                           Gemini.UnknownSdk (fun _ => 0%Z) (js "notes")))))
             Gemini.unexpected_shape eq_refl).
  - exact (proj2 (proj2 (proj2 (proj2 (cloud_report_and_flashcards_catch
                           (sdk_returning
                              (response_with_text
                                 (accessor (Normal (JNumber (Num.of_Z 42))))))
                           (fun _ => 0%Z) (js "notes")))))
             _ _ (JNumber (Num.of_Z 42)) eq_refl eq_refl eq_refl
             eq_refl eq_refl).
Defined.

(** X9: [pingGemini] has no handler: it throws exactly what [getModel],
    the model call or [toText] throws, so a client of neither SDK shape
    makes it throw where the three service operations return their
    fallback; and it never returns the empty string. *)
Theorem pingGemini_result (client : Gemini.Client) :
  (forall e,
     Gemini.pingGemini client = Throw e
     <-> (Gemini.getModel client (js "gemini-2.5-flash") = Throw e
          \/ (exists model,
                Gemini.getModel client (js "gemini-2.5-flash") = Normal model
                /\ model (js "Say 'ready' if you can hear me.") = Throw e)
          \/ (exists model res,
                Gemini.getModel client (js "gemini-2.5-flash") = Normal model
                /\ model (js "Say 'ready' if you can hear me.") = Normal res
                /\ Gemini.toText res = Throw e)))
  /\ Gemini.pingGemini client <> Normal (JString [])
  /\ (forall model res,
        Gemini.getModel client (js "gemini-2.5-flash") = Normal model ->
        model (js "Say 'ready' if you can hear me.") = Normal res ->
        Gemini.toText res = Normal (JString []) ->
        Gemini.pingGemini client = Normal (JString (js "(no text)"))).
Proof.
  unfold Gemini.pingGemini. split; [|split].
  - intros e. split.
    + intros H. apply bind_Throw in H as [H|(model & Hm & H)]; [now left|].
      apply bind_Throw in H as [H|(res & Hr & H)]; [right; left; eauto|].
      apply bind_Throw in H as [H|(text & Ht & H)]; [|discriminate].
      right; right; eauto.
    + intros [H|[(model & Hm & H)|(model & res & Hm & Hr & H)]].
      * now rewrite H.
      * rewrite Hm. cbn [bind]. now rewrite H.
      * rewrite Hm. cbn [bind]. rewrite Hr. cbn [bind]. now rewrite H.
  - intros H.
    apply bind_Normal in H as (model & _ & H).
    apply bind_Normal in H as (res & _ & H).
    apply bind_Normal in H as (text & _ & H).
    injection H as H. revert H. apply or_else_not_empty. discriminate.
  - intros model res Hm Hr Ht.
    rewrite Hm. cbn [bind]. rewrite Hr. cbn [bind]. rewrite Ht. reflexivity.
Qed.

Lemma pingGemini_result_witness :
  Gemini.pingGemini Gemini.UnknownSdk = Throw Gemini.unexpected_shape
  /\ Gemini.pingGemini (sdk_returning (response_with_text (JString [])))
     = Normal (JString (js "(no text)")).
Proof.
  split.
  - exact (proj2 (proj1 (pingGemini_result Gemini.UnknownSdk)
                    Gemini.unexpected_shape)
             (or_introl eq_refl)).
  - exact (proj2 (proj2 (pingGemini_result
                           (sdk_returning (response_with_text (JString [])))))
             _ _ eq_refl eq_refl eq_refl).
Defined.

(** ** The prompts *)

Lemma cloud_askQuestion_prompt_shape (q s : jsstring) (m : bool) :
  Gemini.askQuestion_prompt q s m
  = cloud_question_head m ++ s ++ question_delimiter ++ q.
Proof. destruct m; vm_compute; reflexivity. Qed.

Lemma local_askQuestion_prompt_shape (q s : jsstring) (m : bool) :
  Ollama.askQuestion_prompt q s m
  = local_question_head m ++ s ++ question_delimiter ++ q.
Proof. destruct m; vm_compute; reflexivity. Qed.

(** X10: a prompt of [askQuestion] does not tell the source from the
    question: the source is put in as it is, so a question that holds the
    delimiter and a source that ends with it give the same prompt, in both
    variants, and the cloud [askQuestion] cannot tell the two calls
    apart. *)
Theorem askQuestion_prompt_ambiguous (client : Gemini.Client)
  (a b sourceContent : jsstring) (useThinkingMode : bool) :
  Gemini.askQuestion_prompt (a ++ question_delimiter ++ b) sourceContent
    useThinkingMode
  = Gemini.askQuestion_prompt b (sourceContent ++ question_delimiter ++ a)
      useThinkingMode
  /\ Ollama.askQuestion_prompt (a ++ question_delimiter ++ b) sourceContent
       useThinkingMode
     = Ollama.askQuestion_prompt b (sourceContent ++ question_delimiter ++ a)
         useThinkingMode
  /\ Gemini.askQuestion client (a ++ question_delimiter ++ b) sourceContent
       useThinkingMode
     = Gemini.askQuestion client b (sourceContent ++ question_delimiter ++ a)
         useThinkingMode.
Proof.
  assert (Hcloud :
            Gemini.askQuestion_prompt (a ++ question_delimiter ++ b)
              sourceContent useThinkingMode
            = Gemini.askQuestion_prompt b
                (sourceContent ++ question_delimiter ++ a) useThinkingMode).
  { rewrite !cloud_askQuestion_prompt_shape. now rewrite <- !app_assoc. }
  split; [exact Hcloud|]. split.
  - rewrite !local_askQuestion_prompt_shape. now rewrite <- !app_assoc.
  - unfold Gemini.askQuestion, Gemini.askQuestion_try. now rewrite Hcloud.
Qed.

Lemma join_around (sep : jsstring) (xs ys : list jsstring) (s : jsstring) :
  xs <> [] -> ys <> [] ->
  join sep (xs ++ s :: ys)
  = join sep xs ++ sep ++ s ++ sep ++ join sep ys.
Proof.
  intros Hxs Hys. induction xs as [|x xs IH]; [now elim Hxs|].
  destruct xs as [|x' xs'].
  - destruct ys as [|y ys']; [now elim Hys|]. reflexivity.
  - change (join sep ((x :: x' :: xs') ++ s :: ys))
      with (x ++ sep ++ join sep ((x' :: xs') ++ s :: ys)).
    rewrite IH by discriminate.
    change (join sep (x :: x' :: xs')) with (x ++ sep ++ join sep (x' :: xs')).
    now rewrite <- !app_assoc.
Qed.

Lemma join_around_inj (sep : jsstring) (xs ys : list jsstring)
  (s s' : jsstring) :
  xs <> [] -> ys <> [] ->
  join sep (xs ++ s :: ys) = join sep (xs ++ s' :: ys) -> s = s'.
Proof.
  intros Hxs Hys H. rewrite !join_around in H by assumption.
  apply app_inv_head in H. apply app_inv_head in H.
  now apply app_inv_tail in H.
Qed.

(** X11: the prompts keep the source whole: in each of the six prompt
    builders two different sources give two different prompts, the other
    arguments being the same. *)
Theorem prompts_keep_source (question s s' : jsstring)
  (useThinkingMode : bool) :
  (Gemini.askQuestion_prompt question s useThinkingMode
   = Gemini.askQuestion_prompt question s' useThinkingMode -> s = s')
  /\ (Gemini.generateReport_prompt s = Gemini.generateReport_prompt s' ->
      s = s')
  /\ (Gemini.generateFlashcards_prompt s = Gemini.generateFlashcards_prompt s'
      -> s = s')
  /\ (Ollama.askQuestion_prompt question s useThinkingMode
      = Ollama.askQuestion_prompt question s' useThinkingMode -> s = s')
  /\ (Ollama.generateReport_prompt s = Ollama.generateReport_prompt s' ->
      s = s')
  /\ (Ollama.generateFlashcards_prompt s = Ollama.generateFlashcards_prompt s'
      -> s = s').
Proof.
  repeat split; intros H.
  - unfold Gemini.askQuestion_prompt in H.
    eapply (join_around_inj [U.lf] [_; _; _; _] [_; _; _]); [| |exact H];
      discriminate.
  - unfold Gemini.generateReport_prompt in H.
    eapply (join_around_inj [U.lf] [_; _; _; _; _; _; _] [_]); [| |exact H];
      discriminate.
  - unfold Gemini.generateFlashcards_prompt in H.
    eapply (join_around_inj [U.lf] [_; _; _; _; _] [_]); [| |exact H];
      discriminate.
  - unfold Ollama.askQuestion_prompt in H.
    eapply (join_around_inj [U.lf] [_; _; _] [_; _; _]); [| |exact H];
      discriminate.
  - unfold Ollama.generateReport_prompt in H.
    eapply (join_around_inj [U.lf] [_; _; _; _; _; _; _] [_]); [| |exact H];
      discriminate.
  - unfold Ollama.generateFlashcards_prompt in H.
    eapply (join_around_inj [U.lf] [_; _; _; _; _] [_]); [| |exact H];
      discriminate.
Qed.

Lemma prompts_keep_source_witness :
  Gemini.generateReport_prompt (js "a") <> Gemini.generateReport_prompt (js "b").
Proof.
  intros H.
  pose proof (proj1 (proj2 (prompts_keep_source [] (js "a") (js "b") false)) H)
    as Hab.
  discriminate Hab.
Defined.

(** ** The normalizer gives strings *)

(** X12: unless the [text] accessor is callable, what [toText] returns is
    a string; a callable accessor is the one way to anything else, since
    its return value is passed on unchecked. *)
Theorem toText_returns_string (res v : JsVal) :
  is_function (text_accessor res) = false ->
  Gemini.toText res = Normal v ->
  (exists s, v = JString s)
  /\ forall w,
       Gemini.toText (response_with_text (accessor (Normal w))) = Normal w.
Proof.
  intros Hf H. split; [|reflexivity].
  rewrite toText_unfold in H.
  destruct (text_accessor res); try discriminate Hf;
    try (destruct (first_candidate_parts res);
         try (injection H as <-; eauto; fail);
         apply bind_Normal in H as (txt & _ & H);
         injection H as <-; eauto; fail).
Qed.

Lemma toText_returns_string_witness :
  exists s,
    Gemini.toText (response_with_parts [JNumber (Num.of_Z 7); JBool true])
    = Normal (JString s).
Proof.
  destruct (toText_returns_string
              (response_with_parts [JNumber (Num.of_Z 7); JBool true])
              (JString (js "7" ++ [U.lf] ++ js "true"))
              eq_refl ltac:(vm_compute; reflexivity))
    as ((s & Hs) & _).
  exists s. rewrite <- Hs. vm_compute. reflexivity.
Defined.

(** ** The bracketed match, in full *)

Lemma upto_last_rbracket_some (s : jsstring) :
  In U.rbracket s -> exists p, upto_last_rbracket s = Some p.
Proof.
  induction s as [|c r IH]; intros Hin; [destruct Hin|].
  simpl. destruct (upto_last_rbracket r) as [p|] eqn:Hp; [eauto|].
  destruct Hin as [Hc|Hin].
  - subst c. change (unit_eqb U.rbracket U.rbracket) with true. eauto.
  - destruct (IH Hin) as (p & Habs). discriminate Habs.
Qed.

Lemma upto_last_rbracket_shape (s p : jsstring) :
  upto_last_rbracket s = Some p ->
  exists mid post,
    p = mid ++ [U.rbracket] /\ s = p ++ post /\ ~ In U.rbracket post.
Proof.
  revert p; induction s as [|c r IH]; intros p H; [discriminate|].
  simpl in H. destruct (upto_last_rbracket r) as [p'|] eqn:Hp.
  - injection H as <-.
    destruct (IH p' eq_refl) as (mid & post & -> & Hr & Hpost).
    exists (c :: mid), post. repeat split; auto.
    simpl. now rewrite <- Hr.
  - destruct (unit_eqb c U.rbracket) eqn:Hc; [|discriminate].
    injection H as <-. apply N.eqb_eq in Hc. subst c.
    exists [], r. repeat split.
    intros Hin. apply upto_last_rbracket_some in Hin as (p & Habs).
    congruence.
Qed.

Lemma match_bracketed_no_rbracket (text : jsstring) :
  ~ In U.rbracket text -> match_bracketed text = None.
Proof.
  induction text as [|c r IH]; intros Hno; [reflexivity|].
  assert (Hr : ~ In U.rbracket r) by (intros H; apply Hno; now right).
  simpl. rewrite (upto_last_rbracket_none r Hr), (IH Hr).
  now destruct (unit_eqb c U.lbracket).
Qed.

(** X13: the regular expression of the extractor matches exactly when
    some opening bracket of the text has a closing bracket after it, and
    then the match is the part of the text from its first opening bracket
    to its last closing bracket. *)
Theorem match_bracketed_spec (text : jsstring) :
  (forall m,
     match_bracketed text = Some m ->
     exists pre mid post,
       text = pre ++ m ++ post
       /\ m = U.lbracket :: mid ++ [U.rbracket]
       /\ ~ In U.lbracket pre
       /\ ~ In U.rbracket post)
  /\ (match_bracketed text = None <->
      ~ exists pre mid post,
          text = pre ++ U.lbracket :: mid ++ U.rbracket :: post).
Proof.
  split.
  - induction text as [|c r IH]; intros m H; [discriminate|].
    simpl in H. destruct (unit_eqb c U.lbracket) eqn:Hc.
    + destruct (upto_last_rbracket r) as [p|] eqn:Hp.
      * injection H as <-. apply N.eqb_eq in Hc. subst c.
        apply upto_last_rbracket_shape in Hp
          as (mid & post & -> & -> & Hpost).
        exists [], mid, post. repeat split; auto.
      * exfalso.
        assert (Hno : ~ In U.rbracket r).
        { intros Hin. apply upto_last_rbracket_some in Hin as (p & Habs).
          congruence. }
        rewrite (match_bracketed_no_rbracket r Hno) in H. discriminate H.
    + destruct (IH m H) as (pre & mid & post & -> & -> & Hpre & Hpost).
      exists (c :: pre), mid, post. repeat split; auto.
      intros [->|Hin]; [discriminate Hc | now apply Hpre].
  - split.
    + intros Hnone (pre & mid & post & ->).
      revert Hnone. induction pre as [|c pre IH]; simpl.
      * destruct (upto_last_rbracket_some (mid ++ U.rbracket :: post))
          as (p & Hp); [apply in_or_app; right; now left|].
        change (unit_eqb U.lbracket U.lbracket) with true. cbv iota.
        rewrite Hp. discriminate.
      * destruct (unit_eqb c U.lbracket); [|exact IH].
        destruct (upto_last_rbracket_some
                    (pre ++ U.lbracket :: mid ++ U.rbracket :: post))
          as (p & ->); [|discriminate].
        apply in_or_app. right. right. apply in_or_app. right. now left.
    + intros Hno. destruct (match_bracketed text) as [m|] eqn:Hm;
        [|reflexivity].
      exfalso. apply Hno.
      induction text as [|c r IH]; [discriminate|].
      simpl in Hm. destruct (unit_eqb c U.lbracket) eqn:Hc.
      * destruct (upto_last_rbracket r) as [p|] eqn:Hp.
        -- apply N.eqb_eq in Hc. subst c.
           apply upto_last_rbracket_shape in Hp
             as (mid & post & -> & -> & _).
           exists [], mid, post. simpl. now rewrite <- app_assoc.
        -- assert (Hnr : ~ In U.rbracket r).
           { intros Hin. apply upto_last_rbracket_some in Hin as (p & Habs).
             congruence. }
           rewrite (match_bracketed_no_rbracket r Hnr) in Hm. discriminate Hm.
      * destruct IH as (pre & mid & post & ->); [|exact Hm|].
        -- intros (pre & mid & post & ->). apply Hno.
           now exists (c :: pre), mid, post.
        -- now exists (c :: pre), mid, post.
Qed.

Example match_bracketed_greedy :
  match_bracketed (js "See [1] and [2]!") = Some (js "[1] and [2]")
  /\ match_bracketed (js "] before [") = None.
Proof. split; vm_compute; reflexivity. Qed.

(** ** The cards of the cloud extractor *)

Lemma card_field_trimmed (card : JsVal) (key s : jsstring) :
  Gemini.card_field card key = Normal s -> exists r, s = trim r.
Proof.
  unfold Gemini.card_field. intros H.
  apply bind_Normal in H as (r & _ & H). injection H as <-. now exists r.
Qed.

Lemma map_cards_trimmed (clock : nat -> Z) (arr : list JsVal) :
  forall i cards,
    Gemini.map_cards clock i arr = Normal cards ->
    Forall (fun c => no_outer_space (Gemini.question c)
                     /\ no_outer_space (Gemini.answer c)) cards.
Proof.
  induction arr as [|card rest IH]; intros i cards H.
  - injection H as <-. constructor.
  - cbn [Gemini.map_cards] in H.
    apply bind_Normal in H as (q & Hq & H).
    apply bind_Normal in H as (a & Ha & H).
    apply bind_Normal in H as (cs & Hrest & H).
    injection H as <-. constructor; [|now apply (IH (S i))].
    apply card_field_trimmed in Hq as (rq & ->).
    apply card_field_trimmed in Ha as (ra & ->).
    split; apply trim_no_outer_space.
Qed.

(** X14: when the extracted array has an element, the extractor either
    returns or throws.  When it returns, it returns as many records as the
    array has elements, and the question and the answer of each neither
    start nor end with white space; it returns whenever every coercion of
    a field succeeds, and it throws whenever one throws. *)
Theorem cloud_cards_are_trimmed (clock : nat -> Z) (text : jsstring)
  (elems : list JsVal) :
  Gemini.extract_array text = Some elems ->
  elems <> [] ->
  (forall cards,
     Gemini.cards_of_text clock text = Normal cards ->
     List.length cards = List.length elems
     /\ Forall (fun c => no_outer_space (Gemini.question c)
                         /\ no_outer_space (Gemini.answer c)) cards)
  /\ (forall pairs,
        Forall2 coerced elems pairs ->
        exists cards, Gemini.cards_of_text clock text = Normal cards)
  /\ (Exists coercion_fails elems ->
      exists e, Gemini.cards_of_text clock text = Throw e).
Proof.
  intros Harr Hne. split; [|split].
  - intros cards H. unfold Gemini.cards_of_text in H. rewrite Harr in H.
    apply bind_Normal in H as (cs & Hmap & H).
    pose proof (map_cards_length _ _ _ _ Hmap) as Hlen.
    destruct cs as [|c cs'].
    + destruct elems; [now elim Hne | discriminate Hlen].
    + injection H as <-. split; [exact Hlen|].
      now apply (map_cards_trimmed clock elems 0).
  - intros pairs Hco.
    destruct (cards_of_extracted clock _ _ _ Harr Hne Hco)
      as (cards & Hcards & _).
    now exists cards.
  - now apply cards_of_failing.
Qed.

Lemma cloud_cards_are_trimmed_witness :
  exists cards,
    Gemini.cards_of_text (fun _ => 0%Z)
      (jsq "[{'question':'  Why?\n','answer':'\tBecause. '}]")
    = Normal cards
    /\ List.length cards = 1%nat
    /\ Forall (fun c => no_outer_space (Gemini.question c)
                        /\ no_outer_space (Gemini.answer c)) cards.
Proof.
  eexists. split; [vm_compute; reflexivity|].
  exact (proj1 (cloud_cards_are_trimmed (fun _ => 0%Z)
                  (jsq "[{'question':'  Why?\n','answer':'\tBecause. '}]")
                  [JObject [(js "question", JString (js "  Why?" ++ [U.lf]));
                            (js "answer",
                             JString (9%N :: js "Because. "))]]
                  ltac:(vm_compute; reflexivity) ltac:(discriminate))
           _ ltac:(vm_compute; reflexivity)).
Defined.

(** X15: an element that is not an object has no [question] and no
    [answer]: an array with at least one element, all of them numbers,
    strings, booleans or [null]s, gives one record per element, each with
    an empty question and an empty answer, not the fallback record. *)
Theorem cloud_cards_of_primitives (clock : nat -> Z) (text : jsstring)
  (elems : list JsVal) :
  JSON.parse text = Some (JArray elems) ->
  elems <> [] ->
  Forall (fun e => is_object e = false) elems ->
  exists cards,
    Gemini.cards_of_text clock text = Normal cards
    /\ List.length cards = List.length elems
    /\ Forall (fun c => Gemini.question c = [] /\ Gemini.answer c = []) cards.
Proof.
  intros Hparse Hne Hprim.
  assert (Hco : Forall2 coerced elems (map (fun _ => ([], [])) elems)).
  { clear Hparse Hne. induction Hprim as [|e elems He _ IH]; constructor;
      [|exact IH].
    unfold coerced, field_string, opt_get.
    destruct e; try discriminate He; split; reflexivity. }
  destruct (cards_of_extracted clock text elems _
              (extract_array_parsed _ _ Hparse) Hne Hco)
    as (cards & Hcards & Hqa & Hids).
  exists cards. split; [exact Hcards|]. split.
  - apply (f_equal (@List.length (jsstring * jsstring))) in Hqa.
    now rewrite !length_map in Hqa.
  - apply Forall_forall. intros c Hc.
    apply (in_map qa) in Hc. rewrite Hqa in Hc.
    apply in_map_iff in Hc as (e & Hc & _).
    unfold qa in Hc. injection Hc as Hq Ha. auto.
Qed.

Lemma cloud_cards_of_primitives_witness :
  exists cards,
    Gemini.cards_of_text (fun _ => 0%Z) (jsq "[1, 'two', null]") = Normal cards
    /\ List.length cards = 3%nat
    /\ Forall (fun c => Gemini.question c = [] /\ Gemini.answer c = []) cards.
Proof.
  exact (cloud_cards_of_primitives (fun _ => 0%Z)
           (jsq "[1, 'two', null]")
           [JNumber (Num.of_Z 1); JString (js "two"); JNull]
           ltac:(vm_compute; reflexivity) ltac:(discriminate)
           ltac:(repeat constructor)).
Defined.

(** X16: the cloud extractor makes cards only of an array that stands in
    the text: when [arr] is set, its elements are those of a substring of
    the text that parses to an array, namely the whole text, or, when the
    whole text is not JSON, the bracketed match. *)
Theorem extracted_array_occurs (text : jsstring) (elems : list JsVal) :
  Gemini.extract_array text = Some elems ->
  exists pre mid post,
    text = pre ++ mid ++ post
    /\ JSON.parse mid = Some (JArray elems)
    /\ (mid = text
        \/ (JSON.parse text = None /\ match_bracketed text = Some mid)).
Proof.
  unfold Gemini.extract_array. intros H.
  destruct (JSON.parse text) as [parsed|] eqn:Hparse.
  - destruct parsed; try discriminate H. injection H as <-.
    exists [], text, []. rewrite app_nil_r. auto.
  - destruct (match_bracketed text) as [m0|] eqn:Hm; [|discriminate H].
    destruct (JSON.parse m0) as [[]|] eqn:Hp0; try discriminate H.
    injection H as <-.
    destruct (match_bracketed_substring _ _ Hm) as (pre & post & ->).
    exists pre, m0, post. auto.
Qed.

Lemma extracted_array_occurs_witness :
  exists pre mid post,
    jsq "Cards: [{'question':'q'}]." = pre ++ mid ++ post
    /\ JSON.parse mid = Some (JArray [JObject [(js "question", JString (js "q"))]]).
Proof.
  destruct (extracted_array_occurs (jsq "Cards: [{'question':'q'}].")
              [JObject [(js "question", JString (js "q"))]]
              ltac:(vm_compute; reflexivity))
    as (pre & mid & post & H1 & H2 & _).
  now exists pre, mid, post.
Defined.

(** X17: when no array is extracted, or an empty one, the cloud extractor
    returns the one fallback record: its answer is the start of the text,
    at most 1000 code units of it, and the whole text when that is not
    longer. *)
Theorem cloud_fallback_is_capped (clock : nat -> Z) (text : jsstring) :
  Gemini.extract_array text = None \/ Gemini.extract_array text = Some [] ->
  Gemini.cards_of_text clock text = Normal [Gemini.fallback_card clock text]
  /\ Gemini.question (Gemini.fallback_card clock text) = js "Summary"
  /\ List.length (Gemini.answer (Gemini.fallback_card clock text))
     = Nat.min 1000 (List.length text)
  /\ exists rest,
       text = Gemini.answer (Gemini.fallback_card clock text) ++ rest.
Proof.
  intros H. split; [|split; [reflexivity|split]].
  - unfold Gemini.cards_of_text. now destruct H as [-> | ->].
  - apply length_firstn.
  - exists (skipn 1000 text). symmetry. apply firstn_skipn.
Qed.

Lemma cloud_fallback_is_capped_witness :
  Gemini.cards_of_text (fun _ => 0%Z) (js "[]")
  = Normal [Gemini.fallback_card (fun _ => 0%Z) (js "[]")]
  /\ List.length
       (Gemini.answer
          (Gemini.fallback_card (fun _ => 0%Z) (repeat 120%N 1500)))
     = 1000%nat.
Proof.
  split.
  - exact (proj1 (cloud_fallback_is_capped (fun _ => 0%Z) (js "[]")
                    (or_intror eq_refl))).
  - assert (Hnone : Gemini.extract_array (repeat 120%N 1500) = None)
      by (vm_compute; reflexivity).
    exact (proj1 (proj2 (proj2 (cloud_fallback_is_capped (fun _ => 0%Z)
                    (repeat 120%N 1500) (or_introl Hnone))))).
Defined.

(** ** Where the two variants agree and where they part *)

Lemma parse_backtick (rest : jsstring) : JSON.parse (96%N :: rest) = None.
Proof. reflexivity. Qed.

Lemma fenced_array (mid : jsstring) :
  fenced (U.lbracket :: mid ++ [U.rbracket])
  = (js "```json" ++ [U.lf])
      ++ U.lbracket :: mid ++ U.rbracket :: U.lf :: js "```".
Proof.
  unfold fenced. rewrite <- !app_assoc. simpl. now rewrite <- app_assoc.
Qed.

(** The extractor gives the same for two texts with the same array of at
    least one element: the text itself shows in the fallback record
    only. *)
Lemma cards_of_same_array (clock : nat -> Z) (text text' : jsstring)
  (elems : list JsVal) :
  Gemini.extract_array text = Some elems ->
  Gemini.extract_array text' = Some elems ->
  elems <> [] ->
  Gemini.cards_of_text clock text = Gemini.cards_of_text clock text'.
Proof.
  intros H H' Hne. unfold Gemini.cards_of_text. rewrite H, H'.
  destruct (Gemini.map_cards clock 0 elems) as [cards|e] eqn:Hmap;
    [|reflexivity].
  apply map_cards_length in Hmap. cbn [bind].
  destruct cards; [|reflexivity].
  destruct elems; [now elim Hne | discriminate Hmap].
Qed.

Lemma cards_of_empty_array (clock : nat -> Z) (text : jsstring) :
  Gemini.extract_array text = Some [] ->
  Gemini.cards_of_text clock text
  = Normal [Gemini.fallback_card clock text].
Proof.
  intros H. unfold Gemini.cards_of_text. now rewrite H.
Qed.

(** X18: the text of a JSON array inside a Markdown code fence.  The
    fenced text is not JSON; the cloud extractor finds the array with the
    bracketed match, and when the array has an element it gives for the
    fenced text what it gives for the text of the array alone (the cards,
    or the failure of a coercion), while for the empty array it gives the
    fallback record of the fenced text.  The local variant, which parses
    the whole text only, returns the summary record with the fenced text
    as its answer in both cases. *)
Theorem fenced_array_cards (clock : nat -> Z) (mid : jsstring)
  (elems : list JsVal) :
  JSON.parse (U.lbracket :: mid ++ [U.rbracket]) = Some (JArray elems) ->
  JSON.parse (fenced (U.lbracket :: mid ++ [U.rbracket])) = None
  /\ match_bracketed (fenced (U.lbracket :: mid ++ [U.rbracket]))
     = Some (U.lbracket :: mid ++ [U.rbracket])
  /\ Gemini.extract_array (fenced (U.lbracket :: mid ++ [U.rbracket]))
     = Some elems
  /\ (elems <> [] ->
      Gemini.cards_of_text clock (fenced (U.lbracket :: mid ++ [U.rbracket]))
      = Gemini.cards_of_text clock (U.lbracket :: mid ++ [U.rbracket]))
  /\ (elems = [] ->
      Gemini.cards_of_text clock (fenced (U.lbracket :: mid ++ [U.rbracket]))
      = Normal [Gemini.fallback_card clock
                  (fenced (U.lbracket :: mid ++ [U.rbracket]))])
  /\ Ollama.cards_of_text (fenced (U.lbracket :: mid ++ [U.rbracket]))
     = JArray
         [JObject
            [(js "question", JString (js "Summary"));
             (js "answer",
              JString (fenced (U.lbracket :: mid ++ [U.rbracket])))]].
Proof.
  intros Harr.
  assert (Hwhole : JSON.parse (fenced (U.lbracket :: mid ++ [U.rbracket]))
                   = None) by apply parse_backtick.
  assert (Hmatch : match_bracketed
                     (fenced (U.lbracket :: mid ++ [U.rbracket]))
                   = Some (U.lbracket :: mid ++ [U.rbracket])).
  { rewrite fenced_array. apply match_bracketed_first_last;
      vm_compute; intuition discriminate. }
  assert (Hex : Gemini.extract_array
                  (fenced (U.lbracket :: mid ++ [U.rbracket]))
                = Some elems).
  { unfold Gemini.extract_array. now rewrite Hwhole, Hmatch, Harr. }
  split; [exact Hwhole|]. split; [exact Hmatch|]. split; [exact Hex|].
  split; [|split].
  - intros Hne.
    exact (cards_of_same_array clock _ _ _ Hex
             (extract_array_parsed _ _ Harr) Hne).
  - intros ->. now apply cards_of_empty_array.
  - now apply local_cards_of_non_json.
Qed.

Lemma fenced_array_cards_witness :
  Gemini.cards_of_text (fun _ => 0%Z)
    (fenced (jsq "[{'question':'q','answer':'a'}]"))
  = Normal [ {| Gemini.id := js "flashcard-0-0";
                Gemini.question := js "q";
                Gemini.answer := js "a" |} ].
Proof.
  change (jsq "[{'question':'q','answer':'a'}]")
    with (U.lbracket :: jsq "{'question':'q','answer':'a'}" ++ [U.rbracket]).
  rewrite (proj1 (proj2 (proj2 (proj2
             (fenced_array_cards (fun _ => 0%Z)
                (jsq "{'question':'q','answer':'a'}")
                [JObject [(js "question", JString (js "q"));
                          (js "answer", JString (js "a"))]]
                ltac:(vm_compute; reflexivity)))))
             ltac:(discriminate)).
  vm_compute. reflexivity.
Defined.

Lemma clean_card_coerced (e : JsVal) (c : jsstring * jsstring) :
  opt_get e (js "question") = JString (fst c) ->
  opt_get e (js "answer") = JString (snd c) ->
  no_outer_space (fst c) -> no_outer_space (snd c) ->
  coerced e c.
Proof.
  intros Hq Ha Hcq Hca. unfold coerced, field_string. rewrite Hq, Ha.
  split; symmetry; now apply no_outer_space_trim.
Qed.

Lemma clean_cards_coerced (elems : list JsVal) :
  Forall clean_card elems ->
  exists pairs,
    Forall2 coerced elems pairs
    /\ Forall2 (fun p e => opt_get e (js "question") = JString (fst p)
                           /\ opt_get e (js "answer") = JString (snd p))
         pairs elems.
Proof.
  induction 1 as [|e elems (q & a & Hq & Ha & Hcq & Hca) _ (pairs & IH & IH')].
  - exists []. split; constructor.
  - exists ((q, a) :: pairs). split; constructor; auto.
    now apply clean_card_coerced.
Qed.

(** X19: on a text that is a JSON array with at least one element, each
    with a string [question] and a string [answer] without white space
    around them (in any order, among any other members), the two variants
    agree on the questions and the answers: the local variant returns the
    elements as parsed, and the cloud extractor returns one record per
    element, in order, with the question and the answer of that element.
    On the empty array they part: the local variant returns no record,
    the cloud extractor the fallback record. *)
Theorem variants_agree_on_clean_arrays (clock : nat -> Z) (text : jsstring)
  (elems : list JsVal) :
  JSON.parse text = Some (JArray elems) ->
  Forall clean_card elems ->
  Ollama.cards_of_text text = JArray elems
  /\ (elems <> [] ->
      exists cards,
        Gemini.cards_of_text clock text = Normal cards
        /\ Forall2 same_qa cards elems)
  /\ (elems = [] ->
      Gemini.cards_of_text clock text
      = Normal [Gemini.fallback_card clock text]).
Proof.
  intros Hparse Hclean.
  split; [now apply local_cards_of_json_array|]. split.
  - intros Hne.
    destruct (clean_cards_coerced _ Hclean) as (pairs & Hco & Hsame).
    destruct (cards_of_extracted clock text _ _
                (extract_array_parsed _ _ Hparse) Hne Hco)
      as (cards & Hcards & Hqa & _).
    exists cards. split; [exact Hcards|].
    clear - Hqa Hsame. revert cards Hqa.
    induction Hsame as [|p e pairs elems [Hq Ha] _ IH]; intros cards Hqa.
    + destruct cards; [constructor | discriminate Hqa].
    + destruct cards as [|c cards]; [discriminate Hqa|].
      cbn [map] in Hqa. injection Hqa as Hc Hrest.
      constructor; [|now apply IH].
      unfold qa in Hc. subst p. now split.
  - intros ->. apply cards_of_empty_array.
    now apply extract_array_parsed.
Qed.

Lemma variants_agree_on_clean_arrays_witness :
  Ollama.cards_of_text
    (jsq "[{'answer':'a1','question':'q1','page':3},{'question':'q2','answer':'a2'}]")
  = JArray
      [JObject [(js "answer", JString (js "a1"));
                (js "question", JString (js "q1"));
                (js "page", JNumber (Num.of_Z 3))];
       JObject [(js "question", JString (js "q2"));
                (js "answer", JString (js "a2"))]]
  /\ exists cards,
       Gemini.cards_of_text (fun _ => 0%Z)
         (jsq "[{'answer':'a1','question':'q1','page':3},{'question':'q2','answer':'a2'}]")
       = Normal cards
       /\ map qa cards = [(js "q1", js "a1"); (js "q2", js "a2")].
Proof.
  destruct (variants_agree_on_clean_arrays (fun _ => 0%Z)
              (jsq "[{'answer':'a1','question':'q1','page':3},{'question':'q2','answer':'a2'}]")
              [JObject [(js "answer", JString (js "a1"));
                        (js "question", JString (js "q1"));
                        (js "page", JNumber (Num.of_Z 3))];
               JObject [(js "question", JString (js "q2"));
                        (js "answer", JString (js "a2"))]]
              ltac:(vm_compute; reflexivity))
    as (Hlocal & Hcloud & _).
  - repeat constructor.
    + exists (js "q1"), (js "a1").
      repeat split;
        try (apply (proj1 (trim_fixed_no_outer_space _));
             vm_compute; reflexivity).
    + exists (js "q2"), (js "a2").
      repeat split;
        try (apply (proj1 (trim_fixed_no_outer_space _));
             vm_compute; reflexivity).
  - split; [exact Hlocal|].
    destruct (Hcloud ltac:(discriminate)) as (cards & Hcards & _).
    exists cards. split; [exact Hcards|].
    vm_compute in Hcards. injection Hcards as <-. reflexivity.
Defined.

(** ** The requests of the cloud operations *)

(** X20: the result of a cloud operation depends on the SDK through its
    answer to one model name and one prompt alone: [askQuestion] with
    [gemini-2.5-pro] in thinking mode and [gemini-2.5-flash] otherwise,
    [generateReport] always with [gemini-2.5-pro] and
    [generateFlashcards] always with [gemini-2.5-flash], each with its
    own prompt.  Two SDKs, each of the newer or of the older shape, that
    answer that one request alike give the same result, whatever they
    answer to other requests: the two shapes are not told apart. *)
Theorem cloud_single_request
  (newer newer' : bool)
  (gen gen' : jsstring -> jsstring -> Completion JsVal)
  (clock : nat -> Z) (question sourceContent : jsstring)
  (useThinkingMode : bool) :
  (gen (if useThinkingMode then js "gemini-2.5-pro" else js "gemini-2.5-flash")
     (Gemini.askQuestion_prompt question sourceContent useThinkingMode)
   = gen' (if useThinkingMode then js "gemini-2.5-pro"
           else js "gemini-2.5-flash")
       (Gemini.askQuestion_prompt question sourceContent useThinkingMode) ->
   Gemini.askQuestion (sdk_of_shape newer gen) question sourceContent
     useThinkingMode
   = Gemini.askQuestion (sdk_of_shape newer' gen') question sourceContent
       useThinkingMode)
  /\ (gen (js "gemini-2.5-pro") (Gemini.generateReport_prompt sourceContent)
      = gen' (js "gemini-2.5-pro")
          (Gemini.generateReport_prompt sourceContent) ->
      Gemini.generateReport (sdk_of_shape newer gen) sourceContent
      = Gemini.generateReport (sdk_of_shape newer' gen') sourceContent)
  /\ (gen (js "gemini-2.5-flash")
        (Gemini.generateFlashcards_prompt sourceContent)
      = gen' (js "gemini-2.5-flash")
          (Gemini.generateFlashcards_prompt sourceContent) ->
      Gemini.generateFlashcards (sdk_of_shape newer gen) clock sourceContent
      = Gemini.generateFlashcards (sdk_of_shape newer' gen') clock
          sourceContent).
Proof.
  split; [|split]; intros H.
  - unfold Gemini.askQuestion, Gemini.askQuestion_try.
    destruct newer, newer'; unfold sdk_of_shape, Gemini.getModel;
      cbn [bind]; now rewrite H.
  - unfold Gemini.generateReport, Gemini.generateReport_try.
    destruct newer, newer'; unfold sdk_of_shape, Gemini.getModel;
      cbn [bind]; now rewrite H.
  - unfold Gemini.generateFlashcards, Gemini.generateFlashcards_try.
    destruct newer, newer'; unfold sdk_of_shape, Gemini.getModel;
      cbn [bind]; now rewrite H.
Qed.

(** An SDK that knows [gemini-2.5-flash] only: a question without thinking
    mode is answered as by one that knows every model. *)
Lemma cloud_single_request_witness :
  Gemini.askQuestion
    (Gemini.OldSdk
       (fun name _ =>
          if jsstring_eqb name (js "gemini-2.5-flash")
          then Normal (response_with_text (JString (js "1")))
          else Throw (Error (js "no such model"))))
    (js "What is X?") (js "X is a constant equal to 1") false
  = Gemini.askQuestion
      (Gemini.NewSdk
         (fun name =>
            Normal (fun _ => Normal (response_with_text (JString (js "1"))))))
      (js "What is X?") (js "X is a constant equal to 1") false.
Proof.
  exact (proj1 (cloud_single_request false true
                  (fun name _ =>
                     if jsstring_eqb name (js "gemini-2.5-flash")
                     then Normal (response_with_text (JString (js "1")))
                     else Throw (Error (js "no such model")))
                  (fun _ _ => Normal (response_with_text (JString (js "1"))))
                  (fun _ => 0%Z) (js "What is X?")
                  (js "X is a constant equal to 1") false)
           eq_refl).
Defined.

(** ** The start of the cloud module *)

(** X21: the module yields a client only with a truthy API key and an
    export under one of the two names, [GoogleGenerativeAI] first, and the
    client is what that constructor makes of [{ apiKey }].  The key is
    checked first: without one, or with the empty string, the error is
    that of the key whatever is exported; with a key and no export it is
    that of the export. *)
Theorem startup_checks (apiKey : JsVal) (exports : Startup.Exports) :
  (ToBoolean apiKey = false ->
   Startup.client apiKey exports = Throw Startup.missing_key)
  /\ (ToBoolean apiKey = true ->
      Startup.GoogleGenerativeAI exports = None ->
      Startup.GoogleGenAI exports = None ->
      Startup.client apiKey exports = Throw Startup.missing_export)
  /\ (forall c,
        Startup.client apiKey exports = Normal c ->
        ToBoolean apiKey = true
        /\ exists ctor,
             (Startup.GoogleGenerativeAI exports = Some ctor
              \/ (Startup.GoogleGenerativeAI exports = None
                  /\ Startup.GoogleGenAI exports = Some ctor))
             /\ ctor (JObject [(js "apiKey", apiKey)]) = Normal c)
  /\ Startup.client (JString []) exports = Throw Startup.missing_key
  /\ Startup.client JUndefined exports = Throw Startup.missing_key.
Proof.
  unfold Startup.client, Startup.GoogleClient.
  split; [intros ->; reflexivity|].
  split; [intros -> -> ->; reflexivity|].
  split; [|split; reflexivity].
  intros c H. destruct (ToBoolean apiKey); [|discriminate H].
  split; [reflexivity|]. cbn [negb] in H.
  destruct (Startup.GoogleGenerativeAI exports) as [ctor|].
  - exists ctor. auto.
  - destruct (Startup.GoogleGenAI exports) as [ctor|]; [|discriminate H].
    exists ctor. auto.
Qed.

Lemma startup_checks_witness :
  Startup.client (JString (js "key"))
    {| Startup.GoogleGenerativeAI := None;
       Startup.GoogleGenAI := Some (fun _ => Normal Gemini.UnknownSdk) |}
  = Normal Gemini.UnknownSdk
  /\ Startup.client (JString (js "key"))
       {| Startup.GoogleGenerativeAI := None; Startup.GoogleGenAI := None |}
     = Throw Startup.missing_export.
Proof.
  split.
  - reflexivity.
  - exact (proj1 (proj2 (startup_checks (JString (js "key"))
                    {| Startup.GoogleGenerativeAI := None;
                       Startup.GoogleGenAI := None |}))
             eq_refl eq_refl eq_refl).
Defined.

(** ** When the coercion of a field succeeds *)

Lemma flat_toString (v : JsVal) :
  flat v = true -> exists s, ToString v = Normal s.
Proof.
  unfold ToString.
  destruct v as [| | b | x | s | elems | props | src call | name message];
    intros Hf; try (eexists; reflexivity).
  - cbn [toString_hint]. cbn [flat] in Hf.
    induction elems as [|x rest IHrest]; [eexists; reflexivity|].
    cbn [forallb] in Hf. apply andb_true_iff in Hf as (Hx & Hrest).
    destruct (IHrest Hrest) as (t & Hrest'). clear IHrest.
    destruct x; try discriminate Hx; cbn [is_nullish toString_hint bind];
      rewrite Hrest'; destruct rest; eexists; reflexivity.
  - cbn [toString_hint]. cbn [flat] in Hf.
    unfold object_toPrimitive, try_method.
    destruct (own_prop props (js "toString")); [discriminate Hf|].
    eexists. reflexivity.
Qed.

Lemma flat_field_string (card : JsVal) (key : jsstring) :
  flat (opt_get card key) = true -> exists s, field_string card key s.
Proof.
  intros Hf. unfold field_string.
  destruct (flat_toString _ Hf) as (str & Hstr).
  destruct (opt_get card key); eauto.
Qed.

Lemma unprintable_toString (v : JsVal) :
  unprintable v = true -> ToString v = Throw TypeError_not_primitive.
Proof.
  destruct v as [| | | | | |props| |]; try discriminate.
  unfold unprintable, ToString. cbn [toString_hint].
  unfold object_toPrimitive, try_method.
  destruct (own_prop props (js "toString")) as [t|]; [|discriminate].
  destruct t; try discriminate;
    (destruct (own_prop props (js "valueOf")) as [w|];
     [destruct w; try discriminate|]; reflexivity).
Qed.

(** X22: when the extracted array has an element, the coercion of the
    fields succeeds, and the extractor returns one record per element,
    whenever every [question] and every [answer] is missing, a primitive,
    an array of primitives or an object without a member of its own named
    [toString].  It fails, and the extractor throws, whenever some
    [question] or [answer] is an object whose own [toString] is not
    callable and that has no callable [valueOf] of its own, which in JSON
    data is any object with a member named [toString]. *)
Theorem cloud_cards_of_flat_fields (clock : nat -> Z) (text : jsstring)
  (elems : list JsVal) :
  Gemini.extract_array text = Some elems ->
  elems <> [] ->
  (Forall (fun e => flat (opt_get e (js "question")) = true
                    /\ flat (opt_get e (js "answer")) = true) elems ->
   exists cards,
     Gemini.cards_of_text clock text = Normal cards
     /\ List.length cards = List.length elems)
  /\ (Exists (fun e => unprintable (opt_get e (js "question")) = true
                       \/ unprintable (opt_get e (js "answer")) = true)
        elems ->
      exists e, Gemini.cards_of_text clock text = Throw e).
Proof.
  intros Harr Hne. split.
  - intros Hflat.
    assert (Hpairs : exists pairs, Forall2 coerced elems pairs).
    { clear Harr Hne. induction Hflat as [|e elems [Hq Ha] _ (pairs & IH)].
      - exists []. constructor.
      - destruct (flat_field_string _ _ Hq) as (q & Hq').
        destruct (flat_field_string _ _ Ha) as (a & Ha').
        exists ((q, a) :: pairs). constructor; [now split | exact IH]. }
    destruct Hpairs as (pairs & Hco).
    destruct (cards_of_extracted clock text elems pairs Harr Hne Hco)
      as (cards & Hcards & Hqa & Hids).
    exists cards. split; [exact Hcards|].
    apply (f_equal (@List.length jsstring)) in Hids.
    now rewrite !length_map, length_seq in Hids.
  - intros Hbad. apply (cards_of_failing clock _ _ Harr).
    apply Exists_exists in Hbad as (e & Hin & Hbad).
    apply Exists_exists. exists e. split; [exact Hin|].
    destruct Hbad as [H|H]; apply unprintable_toString in H.
    + exists (js "question"), TypeError_not_primitive. auto.
    + exists (js "answer"), TypeError_not_primitive. auto.
Qed.

Lemma cloud_cards_of_flat_fields_witness :
  (exists cards,
     Gemini.cards_of_text (fun _ => 0%Z)
       (jsq "[{'question':[1,'b',null],'answer':{'valueOf':1}},{'question':7}]")
     = Normal cards
     /\ List.length cards = 2%nat)
  /\ exists e,
       Gemini.cards_of_text (fun _ => 0%Z)
         (jsq "[{'question':'q','answer':{'toString':1}}]")
       = Throw e.
Proof.
  split.
  - exact (proj1 (cloud_cards_of_flat_fields (fun _ => 0%Z)
             (jsq "[{'question':[1,'b',null],'answer':{'valueOf':1}},{'question':7}]")
             [JObject
                [(js "question",
                  JArray [JNumber (Num.of_Z 1); JString (js "b"); JNull]);
                 (js "answer", JObject [(js "valueOf", JNumber (Num.of_Z 1))])];
              JObject [(js "question", JNumber (Num.of_Z 7))]]
             ltac:(vm_compute; reflexivity) ltac:(discriminate))
             ltac:(repeat constructor)).
  - exact (proj2 (cloud_cards_of_flat_fields (fun _ => 0%Z)
             (jsq "[{'question':'q','answer':{'toString':1}}]")
             [JObject
                [(js "question", JString (js "q"));
                 (js "answer", JObject [(js "toString", JNumber (Num.of_Z 1))])]]
             ltac:(vm_compute; reflexivity) ltac:(discriminate))
             ltac:(left; right; reflexivity)).
Defined.

(** X23: on a successful call whose normalized text is a non-empty
    string, the cloud [askQuestion] and [generateReport] return that text
    as it is, and so does [pingGemini]. *)
Theorem cloud_returns_the_text (client : Gemini.Client)
  (question sourceContent : jsstring) (useThinkingMode : bool)
  (c : code_unit) (s : jsstring) :
  (forall model res,
     Gemini.getModel client
       (if useThinkingMode then js "gemini-2.5-pro"
        else js "gemini-2.5-flash") = Normal model ->
     model (Gemini.askQuestion_prompt question sourceContent useThinkingMode)
     = Normal res ->
     Gemini.toText res = Normal (JString (c :: s)) ->
     Gemini.askQuestion client question sourceContent useThinkingMode
     = Normal (JString (c :: s)))
  /\ (forall model res,
        Gemini.getModel client (js "gemini-2.5-pro") = Normal model ->
        model (Gemini.generateReport_prompt sourceContent) = Normal res ->
        Gemini.toText res = Normal (JString (c :: s)) ->
        Gemini.generateReport client sourceContent
        = Normal (JString (c :: s)))
  /\ (forall model res,
        Gemini.getModel client (js "gemini-2.5-flash") = Normal model ->
        model (js "Say 'ready' if you can hear me.") = Normal res ->
        Gemini.toText res = Normal (JString (c :: s)) ->
        Gemini.pingGemini client = Normal (JString (c :: s))).
Proof.
  split; [|split]; intros model res Hm Hr Ht.
  - unfold Gemini.askQuestion, Gemini.askQuestion_try.
    rewrite Hm. cbn [bind]. rewrite Hr. cbn [bind]. now rewrite Ht.
  - unfold Gemini.generateReport, Gemini.generateReport_try.
    rewrite Hm. cbn [bind]. rewrite Hr. cbn [bind]. now rewrite Ht.
  - unfold Gemini.pingGemini.
    rewrite Hm. cbn [bind]. rewrite Hr. cbn [bind]. now rewrite Ht.
Qed.

Lemma cloud_returns_the_text_witness :
  Gemini.askQuestion
    (sdk_returning (response_with_text (JString (js "X is 1."))))
    (js "What is X?") (js "X is a constant equal to 1") false
  = Normal (JString (js "X is 1.")).
Proof.
  exact (proj1 (cloud_returns_the_text
                  (sdk_returning (response_with_text (JString (js "X is 1."))))
                  (js "What is X?") (js "X is a constant equal to 1") false
                  88%N (js " is 1."))
           _ _ eq_refl eq_refl eq_refl).
Defined.
